(** * Call session lifecycle and presence relay of the video-call API

    A shallow embedding of
      - src/models/call.model.js        (the Call document and its methods),
      - src/controllers/call.controller.js (the HTTP handlers on calls),
      - src/controllers/admin.controller.js (the administrators' end and kick),
      - src/utils/agora.js              (the uid hash and the media token),
      - the socket.io connection handler of the server entry file,
    followed by the properties of the session state machine.

    Conventions.
      - Dates are milliseconds since the epoch, in Z.  Every [new Date()] of
        the source is an explicit time argument of the embedding.
      - ObjectIds are compared in the source through [toString()], so user
        and call identities are strings.
      - A JS number is a Z; [Math.floor (x / 1000)] is [x / 1000] in Z.
      - [find] followed by a mutation of the found sub-document is
        [list_find] followed by an update at the found index.
      - Fields of the schema that no handler below reads or writes (title,
        description, call type and mode, recording and Agora configuration,
        metadata) are left out of the records.
      - [populate] puts the document an id refers to in the place of the
        id.  The model's methods are given on the document as stored and
        as they run on a populated one; the handlers that load a populated
        document ([joinCall], [getCall]) take the set of the users that
        exist.
      - Library code the handlers call (the token builder of
        agora-access-token, the ObjectId cast of Mongoose, [isMongoId] of
        express-validator) is an argument of the definitions that use
        it. *)

From stdpp Require Import base option list gmap strings pretty sorting.
From Stdlib Require Import ZArith Lia.

Local Open Scope string_scope.
Local Open Scope list_scope.
Local Open Scope Z_scope.

(** ** Data model (call.model.js, lines 3-252) *)

Inductive Role := RoleHost | RoleParticipant | RoleModerator.
Inductive Quality := Excellent | Good | Fair | Poor | Disconnected.
Inductive CallStatus := Scheduled | Active | Ended | Cancelled.
Inductive InvitationStatus := Pending | Accepted | Declined | Expired.

Global Instance Role_eq_dec : EqDecision Role.
Proof. solve_decision. Defined.
Global Instance CallStatus_eq_dec : EqDecision CallStatus.
Proof. solve_decision. Defined.
Global Instance InvitationStatus_eq_dec : EqDecision InvitationStatus.
Proof. solve_decision. Defined.

Record Permissions := mkPermissions {
  canInvite : bool;
  canMute : bool;
  canKick : bool;
  canRecord : bool
}.

Record MediaState := mkMediaState {
  audioEnabled : bool;
  videoEnabled : bool;
  screenSharing : bool
}.

Module Participant.
Record t := mk {
  userId : string;
  joinedAt : option Z;
  leftAt : option Z;
  duration : option Z;
  role : Role;
  permissions : Permissions;
  mediaState : MediaState;
  connectionQuality : Quality;
  isActive : bool
}.
End Participant.

Module Invitation.
Record t := mk {
  userId : string;
  invitedBy : string;
  invitedAt : Z;
  status : InvitationStatus;
  respondedAt : option Z
}.
End Invitation.

(** A JS string is a sequence of UTF-16 code units; [length] is the number
    of code units, which is what [String.prototype.length] and the
    [maxlength] validator count. *)
Abbreviation jsstring := (list N).

Module ChatMessage.
Record t := mk {
  senderId : string;
  message : jsstring;
  timestamp : Z;
  messageType : string
}.
End ChatMessage.

Record Settings := mkSettings {
  waitingRoom : bool;
  allowChat : bool;
  allowScreenShare : bool;
  allowRecording : bool;
  muteOnJoin : bool;
  disableVideo : bool;
  requirePassword : bool;
  password : option string;
  lockRoom : bool
}.

Record Analytics := mkAnalytics {
  totalParticipants : Z;
  maxConcurrentParticipants : Z;
  totalMessages : Z
}.

Module Call.
Record t := mk {
  channelName : string;
  host : string;
  participants : list Participant.t;
  maxParticipants : Z;
  status : CallStatus;
  scheduledFor : option Z;
  startedAt : option Z;
  endedAt : option Z;
  duration : option Z;
  settings : Settings;
  chatMessages : list ChatMessage.t;
  invitations : list Invitation.t;
  analytics : Analytics
}.

Definition set_participants (ps : list Participant.t) (c : t) : t :=
  mk (channelName c) (host c) ps (maxParticipants c) (status c)
     (scheduledFor c) (startedAt c) (endedAt c) (duration c) (settings c)
     (chatMessages c) (invitations c) (analytics c).

Definition set_host (h : string) (c : t) : t :=
  mk (channelName c) h (participants c) (maxParticipants c) (status c)
     (scheduledFor c) (startedAt c) (endedAt c) (duration c) (settings c)
     (chatMessages c) (invitations c) (analytics c).

Definition set_status (s : CallStatus) (c : t) : t :=
  mk (channelName c) (host c) (participants c) (maxParticipants c) s
     (scheduledFor c) (startedAt c) (endedAt c) (duration c) (settings c)
     (chatMessages c) (invitations c) (analytics c).

Definition set_endedAt (e : option Z) (c : t) : t :=
  mk (channelName c) (host c) (participants c) (maxParticipants c) (status c)
     (scheduledFor c) (startedAt c) e (duration c) (settings c)
     (chatMessages c) (invitations c) (analytics c).

Definition set_duration (d : option Z) (c : t) : t :=
  mk (channelName c) (host c) (participants c) (maxParticipants c) (status c)
     (scheduledFor c) (startedAt c) (endedAt c) d (settings c)
     (chatMessages c) (invitations c) (analytics c).

Definition set_chatMessages (ms : list ChatMessage.t) (c : t) : t :=
  mk (channelName c) (host c) (participants c) (maxParticipants c) (status c)
     (scheduledFor c) (startedAt c) (endedAt c) (duration c) (settings c)
     ms (invitations c) (analytics c).

Definition set_invitations (invs : list Invitation.t) (c : t) : t :=
  mk (channelName c) (host c) (participants c) (maxParticipants c) (status c)
     (scheduledFor c) (startedAt c) (endedAt c) (duration c) (settings c)
     (chatMessages c) invs (analytics c).

Definition set_analytics (a : Analytics) (c : t) : t :=
  mk (channelName c) (host c) (participants c) (maxParticipants c) (status c)
     (scheduledFor c) (startedAt c) (endedAt c) (duration c) (settings c)
     (chatMessages c) (invitations c) a.
End Call.

(** ** Virtuals and middleware (call.model.js, lines 254-298) *)

(** [this.participants.filter(p => p.isActive).length] *)
Definition activeParticipantsCount (c : Call.t) : Z :=
  Z.of_nat (length (filter (λ p, Participant.isActive p = true) (Call.participants c))).

(** [Math.floor((b - a) / 1000)] on two dates. *)
Definition elapsedSeconds (a b : Z) : Z := (b - a) / 1000.

(** The [pre('save')] hook: the duration of an ended call, then the derived
    analytics.  A Date object is truthy, so [this.endedAt && this.startedAt]
    tests presence. *)
Definition preSave (c : Call.t) : Call.t :=
  let c1 :=
    match Call.status c, Call.endedAt c, Call.startedAt c with
    | Ended, Some e, Some s => Call.set_duration (Some (elapsedSeconds s e)) c
    | _, _, _ => c
    end in
  Call.set_analytics
    {| totalParticipants := Z.of_nat (length (Call.participants c1));
       maxConcurrentParticipants :=
         Z.max (maxConcurrentParticipants (Call.analytics c1))
               (activeParticipantsCount c1);
       totalMessages := Z.of_nat (length (Call.chatMessages c1)) |}
    c1.

(** [this.save()] for the writes whose new content satisfies the schema by
    construction (every handler except the chat append): the hook runs and
    the document is what the store then holds. *)
Definition save (c : Call.t) : Call.t := preSave c.

(** ** Instance methods (call.model.js, lines 300-416) *)

(** [p.userId.toString() === userId.toString()] *)
Definition sameUser (u : string) (p : Participant.t) : Prop :=
  Participant.userId p = u.

Global Instance sameUser_dec u p : Decision (sameUser u p).
Proof. unfold sameUser. apply _. Defined.

(** What [addParticipant] writes into an inactive entry (lines 307-311). *)
Definition reactivate (now : Z) (p : Participant.t) : Participant.t :=
  Participant.mk (Participant.userId p) (Some now) None
    (Participant.duration p) (Participant.role p) (Participant.permissions p)
    (Participant.mediaState p) (Participant.connectionQuality p) true.

(** The sub-document [push] creates: schema defaults for everything the
    caller does not give. *)
Definition newParticipant (u : string) (r : Role) (perms : Permissions) (now : Z)
  : Participant.t :=
  Participant.mk u (Some now) None None r
    {| canInvite := canInvite perms || (bool_decide (r = RoleHost) || bool_decide (r = RoleModerator));
       canMute := canMute perms || (bool_decide (r = RoleHost) || bool_decide (r = RoleModerator));
       canKick := canKick perms || bool_decide (r = RoleHost);
       canRecord := canRecord perms || bool_decide (r = RoleHost) |}
    {| audioEnabled := true; videoEnabled := true; screenSharing := false |}
    Good true.

(** The [permissions = {}] default: every flag is [undefined], which [||]
    treats as false. *)
Definition noPermissions : Permissions := mkPermissions false false false false.

(** [addParticipant] (lines 300-327). *)
Definition addParticipant (c : Call.t) (u : string) (r : Role) (perms : Permissions)
    (now : Z) : Call.t :=
  match list_find (sameUser u) (Call.participants c) with
  | Some (i, existingParticipant) =>
      if Participant.isActive existingParticipant then save c
      else save (Call.set_participants
                   (<[i := reactivate now existingParticipant]> (Call.participants c)) c)
  | None =>
      save (Call.set_participants
              (Call.participants c ++ [newParticipant u r perms now]) c)
  end.

(** What [removeParticipant] and [endCall] write into an active entry. *)
Definition markLeft (now : Z) (p : Participant.t) : Participant.t :=
  Participant.mk (Participant.userId p) (Participant.joinedAt p) (Some now)
    (match Participant.joinedAt p with
     | Some j => Some (elapsedSeconds j now)
     | None => Participant.duration p
     end)
    (Participant.role p) (Participant.permissions p)
    (Participant.mediaState p) (Participant.connectionQuality p) false.

(** [removeParticipant] (lines 329-345). *)
Definition removeParticipant (c : Call.t) (u : string) (now : Z) : Call.t :=
  match list_find (sameUser u) (Call.participants c) with
  | Some (i, p) =>
      if Participant.isActive p
      then save (Call.set_participants (<[i := markLeft now p]> (Call.participants c)) c)
      else save c
  | None => save c
  end.

(** [endCall] (lines 372-390): every active entry leaves at [endedAt]. *)
Definition endCall (c : Call.t) (now : Z) : Call.t :=
  let c1 := Call.set_endedAt (Some now) (Call.set_status Ended c) in
  save (Call.set_participants
          ((λ p, if Participant.isActive p then markLeft now p else p)
             <$> Call.participants c1) c1).

(** [canUserJoin] (lines 392-416) and the object it returns. *)
Record JoinCheck := mkJoinCheck { canJoin : bool; reason : option string }.

Definition canUserJoin (c : Call.t) (u : string) : JoinCheck :=
  if negb (bool_decide (Call.status c = Active)) && negb (bool_decide (Call.status c = Scheduled))
  then mkJoinCheck false (Some "Call is not active")
  else if bool_decide (Call.maxParticipants c ≤ activeParticipantsCount c)
  then mkJoinCheck false (Some "Call is full")
  else if lockRoom (Call.settings c)
  then
    let isParticipant := bool_decide (Exists (sameUser u) (Call.participants c)) in
    let hasInvitation :=
      bool_decide (Exists (λ inv, Invitation.userId inv = u
                                  ∧ Invitation.status inv = Accepted)
                          (Call.invitations c)) in
    if negb isParticipant && negb hasInvitation
    then mkJoinCheck false (Some "Room is locked")
    else mkJoinCheck true None
  else mkJoinCheck true None.

(** *** The same methods on a document loaded with [populate]

    [joinCall] loads the call with [populate('participants.userId')].  On
    that document the [userId] of an entry is the User document it refers
    to, or [null] when there is no such user.  A Mongoose document prints
    as the list of its fields, which is never the hexadecimal id the
    methods compare it with, and [toString()] on [null] is a TypeError. *)
Inductive View := Plain | Populated (users : gset string).

Inductive Printed := Hex (id : string) | Inspected (id : string).

Global Instance Printed_eq_dec : EqDecision Printed.
Proof. solve_decision. Defined.

(** [p.userId.toString()]; [None] is the TypeError. *)
Definition printedUserId (v : View) (id : string) : option Printed :=
  match v with
  | Plain => Some (Hex id)
  | Populated users =>
      if bool_decide (id ∈ users) then Some (Inspected id) else None
  end.

(** [this.participants.find(p => p.userId.toString() === userId.toString())]
    with the index of the entry found; the outer [None] is the TypeError.
    [some] with the same test stops at the same entry. *)
Fixpoint findUser (v : View) (u : string) (ps : list Participant.t)
  : option (option (nat * Participant.t)) :=
  match ps with
  | [] => Some None
  | p :: rest =>
      match printedUserId v (Participant.userId p) with
      | None => None
      | Some s =>
          if bool_decide (s = Hex u) then Some (Some (0%nat, p))
          else match findUser v u rest with
               | None => None
               | Some found => Some (prod_map S id <$> found)
               end
      end
  end.

(** [addParticipant] (lines 300-327) on a document seen through [v]. *)
Definition addParticipantOn (v : View) (c : Call.t) (u : string) (r : Role)
    (perms : Permissions) (now : Z) : option Call.t :=
  match findUser v u (Call.participants c) with
  | None => None
  | Some (Some (i, existingParticipant)) =>
      if Participant.isActive existingParticipant then Some (save c)
      else Some (save (Call.set_participants
                         (<[i := reactivate now existingParticipant]> (Call.participants c))
                         c))
  | Some None =>
      Some (save (Call.set_participants
                    (Call.participants c ++ [newParticipant u r perms now]) c))
  end.

(** [canUserJoin] (lines 392-416) on a document seen through [v].  The
    invitations are not populated by [joinCall]. *)
Definition canUserJoinOn (v : View) (c : Call.t) (u : string) : option JoinCheck :=
  if negb (bool_decide (Call.status c = Active)) && negb (bool_decide (Call.status c = Scheduled))
  then Some (mkJoinCheck false (Some "Call is not active"))
  else if bool_decide (Call.maxParticipants c ≤ activeParticipantsCount c)
  then Some (mkJoinCheck false (Some "Call is full"))
  else if lockRoom (Call.settings c)
  then
    match findUser v u (Call.participants c) with
    | None => None
    | Some found =>
        let isParticipant := bool_decide (is_Some found) in
        let hasInvitation :=
          bool_decide (Exists (λ inv, Invitation.userId inv = u
                                      ∧ Invitation.status inv = Accepted)
                              (Call.invitations c)) in
        if negb isParticipant && negb hasInvitation
        then Some (mkJoinCheck false (Some "Room is locked"))
        else Some (mkJoinCheck true None)
    end
  else Some (mkJoinCheck true None).

(** [updateParticipantMedia]: [Object.assign] of the fields the patch has. *)
Record MediaPatch := mkMediaPatch {
  patchAudio : option bool;
  patchVideo : option bool;
  patchScreen : option bool
}.

Definition assignMedia (patch : MediaPatch) (m : MediaState) : MediaState :=
  {| audioEnabled := default (audioEnabled m) (patchAudio patch);
     videoEnabled := default (videoEnabled m) (patchVideo patch);
     screenSharing := default (screenSharing m) (patchScreen patch) |}.

Definition setMedia (patch : MediaPatch) (p : Participant.t) : Participant.t :=
  Participant.mk (Participant.userId p) (Participant.joinedAt p) (Participant.leftAt p)
    (Participant.duration p) (Participant.role p) (Participant.permissions p)
    (assignMedia patch (Participant.mediaState p))
    (Participant.connectionQuality p) (Participant.isActive p).

Definition activeUser (u : string) (p : Participant.t) : Prop :=
  Participant.userId p = u ∧ Participant.isActive p = true.

Global Instance activeUser_dec u p : Decision (activeUser u p).
Proof. unfold activeUser. apply _. Defined.

Definition updateParticipantMedia (c : Call.t) (u : string) (patch : MediaPatch) : Call.t :=
  match list_find (activeUser u) (Call.participants c) with
  | Some (i, p) =>
      save (Call.set_participants (<[i := setMedia patch p]> (Call.participants c)) c)
  | None => c
  end.

(** The virtual [formattedDuration] (lines 259-273).  [!this.duration] holds
    for a missing duration and for 0; [%] is the remainder that takes the
    sign of the dividend; a number in a template literal is printed in
    decimal. *)
Definition formattedDuration (c : Call.t) : option string :=
  match Call.duration c with
  | None => None
  | Some d =>
      if d =? 0 then None
      else
        let hours := d / 3600 in
        let minutes := Z.rem d 3600 / 60 in
        let seconds := Z.rem d 60 in
        if 0 <? hours
        then Some (pretty hours +:+ "h " +:+ pretty minutes +:+ "m "
                   +:+ pretty seconds +:+ "s")
        else if 0 <? minutes
        then Some (pretty minutes +:+ "m " +:+ pretty seconds +:+ "s")
        else Some (pretty seconds +:+ "s")
  end.

(** The chat sub-schema: [message] required with [maxlength] 1000,
    [messageType] in the enum.  This is the one write whose content comes
    from the request unchecked, so its [save] can be rejected. *)
Definition messageTypes : list string := ["text"; "system"; "file"; "emoji"].

Definition validChatMessage (m : ChatMessage.t) : bool :=
  negb (Z.of_nat (length (ChatMessage.message m)) =? 0)
  && (Z.of_nat (length (ChatMessage.message m)) <=? 1000)
  && bool_decide (ChatMessage.messageType m ∈ messageTypes).

Inductive SaveOutcome :=
  | Saved (c : Call.t)
  | ValidationError.

Definition addChatMessage (c : Call.t) (sender : string) (text : jsstring)
    (messageType : string) (now : Z) : SaveOutcome :=
  let m := ChatMessage.mk sender text now messageType in
  if validChatMessage m
  then Saved (save (Call.set_chatMessages (Call.chatMessages c ++ [m]) c))
  else ValidationError.

(** ** HTTP handlers (call.controller.js) *)

(** What a handler sends through [io.to(room).emit(name, payload)];
    payload timestamps are left out. *)
Inductive Event :=
  | UserJoinedCall (callId user : string)
  | UserLeftCall (callId user : string)
  | HostChanged (callId newHostId : string)
  | CallEnded (callId : string) (endedBy reason : option string)
  | CallInvitation (callId from : string)
  | InvitationResponse (callId user : string) (response : InvitationStatus)
  | NewChatMessage (callId sender : string) (text : jsstring) (messageType : string).

Record Emit := mkEmit { room : string; event : Event }.

Inductive Data := NoData | InvitationsSent (n : Z).

Record Response := mkResponse { statusCode : Z; message : string; data : Data }.

(** [sendSuccessResponse] and [sendErrorResponse] of utils/response. *)
Definition sendSuccessResponse (msg : string) (d : Data) : Response :=
  mkResponse 200 msg d.
Definition sendErrorResponse (msg : string) (code : Z) : Response :=
  mkResponse code msg NoData.

(** The outcome of one request: the store afterwards, the HTTP response and
    the events emitted, in order. *)
Record Result := mkResult {
  db : gmap string Call.t;
  response : Response;
  emitted : list Emit
}.

(** The personal room [`user-${id}`]. *)
Definition userRoom (u : string) : string := "user-" +:+ u.

Definition fullPermissions : Permissions := mkPermissions true true true true.

Definition promote (p : Participant.t) : Participant.t :=
  Participant.mk (Participant.userId p) (Participant.joinedAt p) (Participant.leftAt p)
    (Participant.duration p) RoleHost fullPermissions
    (Participant.mediaState p) (Participant.connectionQuality p) (Participant.isActive p).

(** [p.isActive && p.userId.toString() !== userId] *)
Definition otherActive (u : string) (p : Participant.t) : Prop :=
  Participant.isActive p = true ∧ Participant.userId p ≠ u.

Global Instance otherActive_dec u p : Decision (otherActive u p).
Proof. unfold otherActive. apply _. Defined.

(** ** Media credentials (utils/agora.js, lines 1-175) *)

Module Agora.

(** [x & x]: the ToInt32 of ECMAScript. *)
Definition toInt32 (x : Z) : Z := (x + 2 ^ 31) mod 2 ^ 32 - 2 ^ 31.

(** One turn of the loop of [generateUidFromString] (lines 108-112):
    [hash << 5] works on the 32-bit value of [hash]; the subtraction and
    the addition are exact; [hash & hash] brings the sum back to 32 bits. *)
Definition hashStep (hash : Z) (char : N) : Z :=
  toInt32 (toInt32 (toInt32 hash * 32) - hash + Z.of_N char).

(** [generateUidFromString] (lines 104-117). *)
Definition generateUidFromString (str : jsstring) : Z :=
  if Z.of_nat (length str) =? 0 then 0
  else Z.abs (foldl hashStep 0 str) mod (2 ^ 32 - 1) + 1.

(** The code units of an identity: ObjectIds print as hexadecimal digits,
    one code unit per character. *)
Definition codeUnits (s : string) : jsstring :=
  (λ a, Ascii.N_of_ascii a) <$> String.list_ascii_of_string s.

(** The two environment variables; a variable that is not set and one set
    to the empty string are both falsy. *)
Record Config := mkConfig {
  AGORA_APP_ID : option string;
  AGORA_APP_CERTIFICATE : option string
}.

Definition truthy (v : option string) : bool :=
  match v with
  | Some x => negb (bool_decide (x = ""))
  | None => false
  end.

Inductive RtcRole := PUBLISHER | SUBSCRIBER.

Record TokenInfo := mkTokenInfo {
  token : string;
  uid : Z;
  channelName : string;
  role : RtcRole;
  expiry : Z;
  expiryTimestamp : Z
}.

Definition RTC_TOKEN_EXPIRY : Z := 3600.

Section Builder.
(** [RtcTokenBuilder.buildTokenWithUid] of the agora-access-token package:
    application id, certificate, channel, uid, role, expiry. *)
Variable buildTokenWithUid : string → string → string → Z → RtcRole → Z → string.

(** [generateAgoraToken] (lines 19-57); [None] is the error it throws.  The
    user is a string, hashed to a uid, or already a number. *)
Definition generateAgoraToken (cfg : Config) (channel : string) (user : string + Z)
    (roleName : string) (expirySeconds : Z) (now : Z) : option TokenInfo :=
  if negb (truthy (AGORA_APP_ID cfg)) || negb (truthy (AGORA_APP_CERTIFICATE cfg))
  then None
  else
    let uid := match user with
               | inl str => generateUidFromString (codeUnits str)
               | inr n => n
               end in
    let agoraRole := if bool_decide (roleName = "publisher") then PUBLISHER else SUBSCRIBER in
    let currentTimestamp := now / 1000 in
    let privilegeExpiredTs := currentTimestamp + expirySeconds in
    Some (mkTokenInfo
            (buildTokenWithUid (default "" (AGORA_APP_ID cfg))
                               (default "" (AGORA_APP_CERTIFICATE cfg))
                               channel uid agoraRole privilegeExpiredTs)
            uid channel agoraRole (privilegeExpiredTs * 1000) privilegeExpiredTs).
End Builder.

(** [isTokenExpired] (lines 155-158) and [getTokenTimeRemaining] (lines
    165-169), at the time [now]. *)
Definition isTokenExpired (expiryTimestamp now : Z) : bool :=
  expiryTimestamp <=? now / 1000.

Definition getTokenTimeRemaining (expiryTimestamp now : Z) : Z :=
  Z.max 0 (expiryTimestamp - now / 1000).

End Agora.

Module CallController.

(** The host-transfer block of [leaveCall] (lines 213-234), run on the
    document [removeParticipant] returned.  [activeParticipants[0]] is a
    reference into [call.participants]: the first entry the filter keeps,
    that is the entry [list_find] returns, updated in place. *)
Definition transferHost (callId : string) (c : Call.t) (u : string)
  : Call.t * list Emit :=
  if bool_decide (Call.host c = u) && (0 <? activeParticipantsCount c)
  then
    match list_find (otherActive u) (Call.participants c) with
    | Some (i, newHost) =>
        (save (Call.set_participants
                 (<[i := promote newHost]> (Call.participants c))
                 (Call.set_host (Participant.userId newHost) c)),
         [mkEmit (Call.channelName c)
                 (HostChanged callId (Participant.userId newHost))])
    | None => (c, [])
    end
  else (c, []).

(** The auto-end block of [leaveCall] (lines 236-245). *)
Definition endIfEmpty (callId : string) (c : Call.t) (tEnd : Z)
  : Call.t * list Emit :=
  if activeParticipantsCount c =? 0
  then (endCall c tEnd,
        [mkEmit (Call.channelName c)
                (CallEnded callId None (Some "No active participants"))])
  else (c, []).

(** The effect of [leaveCall] on a document that was found. *)
Definition leaveCallDoc (callId : string) (c : Call.t) (u : string)
    (tLeave tEnd : Z) : Call.t * list Emit :=
  let c1 := removeParticipant c u tLeave in
  let left := [mkEmit (Call.channelName c1) (UserLeftCall callId u)] in
  let '(c2, changed) := transferHost callId c1 u in
  let '(c3, ended) := endIfEmpty callId c2 tEnd in
  (c3, left ++ changed ++ ended).

Definition leaveCall (store : gmap string Call.t) (callId u : string)
    (tLeave tEnd : Z) : Result :=
  match store !! callId with
  | None => mkResult store (sendErrorResponse "Call not found" 404) []
  | Some c =>
      let '(c', evs) := leaveCallDoc callId c u tLeave tEnd in
      mkResult (<[callId := c']> store)
               (sendSuccessResponse "Left call successfully" NoData) evs
  end.

(** [endCall] (lines 255-287). *)
Definition endCall (store : gmap string Call.t) (callId u : string) (now : Z)
  : Result :=
  match store !! callId with
  | None => mkResult store (sendErrorResponse "Call not found" 404) []
  | Some c =>
      let participant := list_find (sameUser u) (Call.participants c) in
      if negb (bool_decide (Call.host c = u))
         && match participant with
            | None => true
            | Some (_, p) => negb (bool_decide (Participant.role p = RoleModerator))
            end
      then mkResult store
             (sendErrorResponse "Only the host or moderator can end the call" 403) []
      else
        let c' := endCall c now in
        mkResult (<[callId := c']> store)
                 (sendSuccessResponse "Call ended successfully" NoData)
                 [mkEmit (Call.channelName c') (CallEnded callId (Some u) None)]
  end.

(** The loop of [inviteToCall] (lines 381-394).  [call.invitations] and
    [call.participants] are not touched while the loop runs; the new
    invitations are collected aside. *)
Definition alreadyInvited (c : Call.t) (target : string) : bool :=
  bool_decide (Exists (λ inv, Invitation.userId inv = target) (Call.invitations c)).

Definition alreadyParticipating (c : Call.t) (target : string) : bool :=
  bool_decide (Exists (sameUser target) (Call.participants c)).

Definition pendingInvitation (inviter : string) (now : Z) (target : string)
  : Invitation.t :=
  Invitation.mk target inviter now Pending None.

Fixpoint inviteLoop (c : Call.t) (inviter : string) (now : Z)
    (userIds : list string) (newInvitations : list Invitation.t)
  : list Invitation.t :=
  match userIds with
  | [] => newInvitations
  | inviteUserId :: rest =>
      if negb (alreadyInvited c inviteUserId) && negb (alreadyParticipating c inviteUserId)
      then inviteLoop c inviter now rest
             (newInvitations ++ [pendingInvitation inviter now inviteUserId])
      else inviteLoop c inviter now rest newInvitations
  end.

Definition invitationEvents (callId from : string) (invs : list Invitation.t)
  : list Emit :=
  (λ inv, mkEmit (userRoom (Invitation.userId inv)) (CallInvitation callId from)) <$> invs.

(** [call.invitations.push(...)] casts the [userId] of a new invitation to
    an ObjectId.  [castObjectId] is that cast, from the string of the
    request to the id as it is stored and printed; [None] is the CastError,
    with which [save] fails. *)
Definition castInvitation (castObjectId : string → option string)
    (inv : Invitation.t) : option Invitation.t :=
  match castObjectId (Invitation.userId inv) with
  | Some oid =>
      Some (Invitation.mk oid (Invitation.invitedBy inv) (Invitation.invitedAt inv)
              (Invitation.status inv) (Invitation.respondedAt inv))
  | None => None
  end.

(** [inviteToCall] (lines 359-423).  The loop and the notifications work
    on the strings of the request; the document stores their casts. *)
Definition inviteToCall (castObjectId : string → option string)
    (store : gmap string Call.t) (callId u : string)
    (userIds : list string) (now : Z) : Result :=
  if Z.of_nat (length userIds) =? 0
  then mkResult store (sendErrorResponse "User IDs array is required" 400) []
  else
    match store !! callId with
    | None => mkResult store (sendErrorResponse "Call not found" 404) []
    | Some c =>
        match list_find (activeUser u) (Call.participants c) with
        | Some (_, participant) =>
            if canInvite (Participant.permissions participant)
            then
              let newInvitations := inviteLoop c u now userIds [] in
              let sent := InvitationsSent (Z.of_nat (length newInvitations)) in
              if 0 <? Z.of_nat (length newInvitations)
              then
                match mapM (castInvitation castObjectId) newInvitations with
                | Some storedInvitations =>
                    let c' := save (Call.set_invitations
                                      (Call.invitations c ++ storedInvitations) c) in
                    mkResult (<[callId := c']> store)
                             (sendSuccessResponse "Invitations sent successfully" sent)
                             (invitationEvents callId u newInvitations)
                | None =>
                    mkResult store (sendErrorResponse "Failed to send invitations" 500) []
                end
              else
                mkResult store
                         (sendSuccessResponse "Invitations sent successfully" sent) []
            else mkResult store
                   (sendErrorResponse "You do not have permission to invite users" 403) []
        | None => mkResult store
                   (sendErrorResponse "You do not have permission to invite users" 403) []
        end
    end.

(** [respondToInvitation] (lines 425-468).  The quotation marks inside the
    text of the 400 response are dropped. *)
Definition statusName (r : InvitationStatus) : string :=
  match r with
  | Pending => "pending" | Accepted => "accepted"
  | Declined => "declined" | Expired => "expired"
  end.

Definition pendingFor (u : string) (inv : Invitation.t) : Prop :=
  Invitation.userId inv = u ∧ Invitation.status inv = Pending.

Global Instance pendingFor_dec u inv : Decision (pendingFor u inv).
Proof. unfold pendingFor. apply _. Defined.

Definition answer (r : InvitationStatus) (now : Z) (inv : Invitation.t)
  : Invitation.t :=
  Invitation.mk (Invitation.userId inv) (Invitation.invitedBy inv)
    (Invitation.invitedAt inv) r (Some now).

Definition respondToInvitation (store : gmap string Call.t) (callId u : string)
    (r : InvitationStatus) (now : Z) : Result :=
  if negb (bool_decide (r ∈ [Accepted; Declined]))
  then mkResult store
         (sendErrorResponse "Invalid response. Must be accepted or declined" 400) []
  else
    match store !! callId with
    | None => mkResult store (sendErrorResponse "Call not found" 404) []
    | Some c =>
        match list_find (pendingFor u) (Call.invitations c) with
        | None => mkResult store
                    (sendErrorResponse "No pending invitation found" 404) []
        | Some (i, invitation) =>
            let c' := save (Call.set_invitations
                              (<[i := answer r now invitation]> (Call.invitations c)) c) in
            mkResult (<[callId := c']> store)
                     (sendSuccessResponse
                        ("Invitation " +:+ statusName r +:+ " successfully") NoData)
                     [mkEmit (userRoom (Invitation.invitedBy invitation))
                             (InvitationResponse callId u r)]
        end
    end.

(** [String.prototype.trim]: the WhiteSpace and LineTerminator code
    units of ECMAScript, removed at both ends. *)
Definition isWhiteSpace (c : N) : bool :=
  bool_decide (c ∈ [9; 10; 11; 12; 13; 32; 160; 5760; 8192; 8193; 8194; 8195;
                    8196; 8197; 8198; 8199; 8200; 8201; 8202; 8232; 8233;
                    8239; 8287; 12288; 65279]%N).

Fixpoint trimStart (s : jsstring) : jsstring :=
  match s with
  | [] => []
  | c :: s' => if isWhiteSpace c then trimStart s' else s
  end.

Definition trimEnd (s : jsstring) : jsstring := reverse (trimStart (reverse s)).

Definition trim (s : jsstring) : jsstring := trimEnd (trimStart s).

(** [sendChatMessage] (lines 506-555).  The request's [messageType] is
    optional and defaults to "text".  A rejected [save] throws into the
    handler's [catch]. *)
Definition sendChatMessage (store : gmap string Call.t) (callId u : string)
    (text : jsstring) (messageType : option string) (now : Z) : Result :=
  if (Z.of_nat (length text) =? 0) || (Z.of_nat (length (trim text)) =? 0)
  then mkResult store (sendErrorResponse "Message cannot be empty" 400) []
  else
    match store !! callId with
    | None => mkResult store (sendErrorResponse "Call not found" 404) []
    | Some c =>
        match list_find (activeUser u) (Call.participants c) with
        | None => mkResult store
                    (sendErrorResponse "You are not a participant in this call" 403) []
        | Some _ =>
            if negb (allowChat (Call.settings c))
            then mkResult store
                   (sendErrorResponse "Chat is disabled for this call" 403) []
            else
              match addChatMessage c u (trim text) (default "text" messageType) now with
              | Saved c' =>
                  mkResult (<[callId := c']> store)
                           (sendSuccessResponse "Message sent successfully" NoData)
                           [mkEmit (Call.channelName c')
                                   (NewChatMessage callId u (trim text)
                                                   (default "text" messageType))]
              | ValidationError =>
                  mkResult store (sendErrorResponse "Failed to send message" 500) []
              end
        end
    end.

(** [createCall] (lines 10-122).  The request body, with the optional
    fields as options.  [callType], [callMode], [title] and [description]
    are left out with the fields of the call they set: a request stands for
    a body in which they pass their validators. *)
Record SettingsRequest := mkSettingsRequest {
  reqWaitingRoom : option bool;
  reqAllowChat : option bool;
  reqAllowScreenShare : option bool;
  reqAllowRecording : option bool;
  reqMuteOnJoin : option bool;
  reqDisableVideo : option bool;
  reqRequirePassword : option bool;
  reqPassword : option string;
  reqLockRoom : option bool
}.

Record CreateRequest := mkCreateRequest {
  reqMaxParticipants : option Z;
  reqScheduledFor : option Z;
  reqSettings : SettingsRequest;
  inviteUserIds : list string
}.

(** The fields of the user document that [createCall] reads. *)
Record User := mkUser {
  userIsActive : bool;
  isEmailVerified : bool;
  featMaxParticipants : Z;
  screenSharingEnabled : bool;
  recordingEnabled : bool
}.

Definition canMakeCall (user : User) : bool :=
  userIsActive user && isEmailVerified user.

(** The validators of the route that a request of this shape can fail:
    [maxParticipants] an integer from 2 to 1000, [settings.password] of 4 to
    20 characters, every listed id accepted by [isMongoId] of
    express-validator.  A password is written as a string of one-byte
    characters, whose length is the number the validator counts. *)
Definition validationErrors (isMongoId : string → bool) (req : CreateRequest) : bool :=
  match reqMaxParticipants req with
  | Some n => negb ((2 <=? n) && (n <=? 1000))
  | None => false
  end
  || match reqPassword (reqSettings req) with
     | Some pw => negb ((4 <=? Z.of_nat (String.length pw))
                        && (Z.of_nat (String.length pw) <=? 20))
     | None => false
     end
  || negb (forallb isMongoId (inviteUserIds req)).

(** The [min] and [max] of the schema on [maxParticipants], the one
    constraint the document [createCall] builds can break. *)
Definition schemaValid (c : Call.t) : bool :=
  (2 <=? Call.maxParticipants c) && (Call.maxParticipants c <=? 1000).

Definition newCall (u : string) (user : User) (req : CreateRequest)
    (uuid : string) (now : Z) : Call.t :=
  let st := reqSettings req in
  Call.mk ("call-" +:+ uuid) u []
    (Z.min (default 50 (reqMaxParticipants req)) (featMaxParticipants user))
    (match reqScheduledFor req with Some _ => Scheduled | None => Active end)
    (reqScheduledFor req) (Some now) None None
    {| waitingRoom := default false (reqWaitingRoom st);
       allowChat := negb (bool_decide (reqAllowChat st = Some false));
       allowScreenShare :=
         negb (bool_decide (reqAllowScreenShare st = Some false))
         && screenSharingEnabled user;
       allowRecording := default false (reqAllowRecording st) && recordingEnabled user;
       muteOnJoin := default false (reqMuteOnJoin st);
       disableVideo := default false (reqDisableVideo st);
       requirePassword := default false (reqRequirePassword st);
       password := reqPassword st;
       lockRoom := default false (reqLockRoom st) |}
    [] [] (mkAnalytics 0 0 0).

(** The document after the first [save] of [createCall], the one inside
    [addParticipant]: the host is the only participant. *)
Definition hostedCall (u : string) (user : User) (req : CreateRequest)
    (uuid : string) (now : Z) : Call.t :=
  addParticipant (newCall u user req uuid now) u RoleHost
    (mkPermissions true true true (recordingEnabled user)) now.

(** The document after the second [save]; [invitees] are the listed ids as
    cast to ObjectIds. *)
Definition createCallDoc (u : string) (user : User) (req : CreateRequest)
    (invitees : list string) (uuid : string) (now : Z) : Call.t :=
  let call := hostedCall u user req uuid now in
  let call :=
    if 0 <? Z.of_nat (length invitees)
    then Call.set_invitations
           (Call.invitations call ++ (pendingInvitation u now <$> invitees)) call
    else call in
  save call.

(** [updateMediaState] (lines 470-504).  A field of the body that is not a
    boolean is left out of the patch.  The notification goes out, and the
    answer is 200, whether or not the user is in the call. *)
Inductive Notice :=
  | ParticipantMediaUpdated (callId user : string) (patch : MediaPatch)
  | KickedFromCall (callId reason : string).

Record Sent := mkSent { toRoom : string; notice : Notice }.

Record Outcome := mkOutcome {
  stored : gmap string Call.t;
  reply : Response;
  sent : list Sent
}.

Definition updateMediaState (store : gmap string Call.t) (callId u : string)
    (patch : MediaPatch) : Outcome :=
  match store !! callId with
  | None => mkOutcome store (sendErrorResponse "Call not found" 404) []
  | Some c =>
      let c' := updateParticipantMedia c u patch in
      mkOutcome (<[callId := c']> store)
                (sendSuccessResponse "Media state updated successfully" NoData)
                [mkSent (Call.channelName c') (ParticipantMediaUpdated callId u patch)]
  end.

(** The handlers that issue a media token.  Their outcome carries the
    token of the 200 answer. *)
Record TokenResult := mkTokenResult {
  tokenDb : gmap string Call.t;
  tokenResponse : Response;
  issued : option Agora.TokenInfo;
  tokenEmitted : list Emit
}.

Section WithAgora.
Variable buildTokenWithUid : string → string → string → Z → Agora.RtcRole → Z → string.
Variable cfg : Agora.Config.
(** The ids of the User documents that exist, the ObjectId cast of
    Mongoose and [isMongoId] of express-validator. *)
Variable users : gset string.
Variable castObjectId : string → option string.
Variable isMongoId : string → bool.

(** [generateAgoraToken(channelName, userId)] as the handlers call it: the
    role and the expiry are the defaults. *)
Definition issueToken (channel u : string) (now : Z) : option Agora.TokenInfo :=
  Agora.generateAgoraToken buildTokenWithUid cfg channel (inl u) "publisher"
    Agora.RTC_TOKEN_EXPIRY now.

(** [getAgoraToken] (lines 557-587). *)
Definition getAgoraToken (store : gmap string Call.t) (callId u : string) (now : Z)
  : TokenResult :=
  match store !! callId with
  | None => mkTokenResult store (sendErrorResponse "Call not found" 404) None []
  | Some c =>
      match list_find (activeUser u) (Call.participants c) with
      | None =>
          mkTokenResult store
            (sendErrorResponse "You are not a participant in this call" 403) None []
      | Some _ =>
          match issueToken (Call.channelName c) u now with
          | Some tok =>
              mkTokenResult store
                (sendSuccessResponse "Agora token generated successfully" NoData)
                (Some tok) []
          | None =>
              mkTokenResult store
                (sendErrorResponse "Failed to generate Agora token" 500) None []
          end
      end
  end.

(** [joinCall] (lines 125-189).  The call is loaded with
    [populate('host')] and [populate('participants.userId')], and
    [canUserJoin] and [addParticipant] run on that document.  [users] are
    the ids of the User documents that exist; [blockedUsers] is the block
    list of the host's user document, which is reached through
    [call.host._id] and so needs the host to exist.  The participant is
    saved before the token is made; the notification is sent after.  Every
    exception ends in the 500 of the [catch]. *)
Definition joinCall (store : gmap string Call.t) (blockedUsers : list string)
    (callId u : string) (pw : option string) (now : Z) : TokenResult :=
  let failed s := mkTokenResult s (sendErrorResponse "Failed to join call" 500) None [] in
  match store !! callId with
  | None => mkTokenResult store (sendErrorResponse "Call not found" 404) None []
  | Some c =>
      match canUserJoinOn (Populated users) c u with
      | None => failed store
      | Some joinCheck =>
          if negb (canJoin joinCheck)
          then mkTokenResult store
                 (sendErrorResponse (default "" (reason joinCheck)) 403) None []
          else if requirePassword (Call.settings c)
                  && negb (bool_decide (password (Call.settings c) = pw))
          then mkTokenResult store (sendErrorResponse "Invalid call password" 403) None []
          else if negb (bool_decide (Call.host c ∈ users))
          then failed store
          else if bool_decide (u ∈ blockedUsers)
          then mkTokenResult store
                 (sendErrorResponse "You are not allowed to join this call" 403) None []
          else
            match addParticipantOn (Populated users) c u RoleParticipant noPermissions now with
            | None => failed store
            | Some c' =>
                match issueToken (Call.channelName c') u now with
                | Some tok =>
                    mkTokenResult (<[callId := c']> store)
                      (sendSuccessResponse "Joined call successfully" NoData) (Some tok)
                      [mkEmit (Call.channelName c') (UserJoinedCall callId u)]
                | None => failed (<[callId := c']> store)
                end
            end
      end
  end.

(** [createCall] (lines 10-122).  The token is made before the document.
    [addParticipant] saves the new document, which is when the schema is
    checked; the invitations are pushed and saved after that, so a listed
    id that cannot be cast leaves the call stored without invitations. *)
Definition createCall (store : gmap string Call.t) (callId u : string)
    (user : User) (req : CreateRequest) (uuid : string) (now : Z) : TokenResult :=
  let failed s := mkTokenResult s (sendErrorResponse "Failed to create call" 500) None [] in
  if validationErrors isMongoId req
  then mkTokenResult store (sendErrorResponse "Validation failed" 400) None []
  else if negb (canMakeCall user)
  then mkTokenResult store
         (sendErrorResponse "Please verify your email to make calls" 403) None []
  else
    match issueToken ("call-" +:+ uuid) u now with
    | None => failed store
    | Some tok =>
        if negb (schemaValid (newCall u user req uuid now))
        then failed store
        else
          match mapM castObjectId (inviteUserIds req) with
          | None => failed (<[callId := hostedCall u user req uuid now]> store)
          | Some invitees =>
              mkTokenResult (<[callId := createCallDoc u user req invitees uuid now]> store)
                (mkResponse 201 "Call created successfully" NoData) (Some tok)
                ((λ inviteUserId,
                    mkEmit (userRoom inviteUserId) (CallInvitation callId u))
                   <$> inviteUserIds req)
          end
    end.
End WithAgora.



(** [getErrorCode] of utils/response (lines 193-210), which
    [sendErrorResponse] puts in every error body. *)
Definition getErrorCode (statusCode : Z) : string :=
  match statusCode with
  | 400 => "BAD_REQUEST"
  | 401 => "UNAUTHORIZED"
  | 403 => "FORBIDDEN"
  | 404 => "NOT_FOUND"
  | 405 => "METHOD_NOT_ALLOWED"
  | 409 => "CONFLICT"
  | 422 => "UNPROCESSABLE_ENTITY"
  | 429 => "TOO_MANY_REQUESTS"
  | 500 => "INTERNAL_SERVER_ERROR"
  | 502 => "BAD_GATEWAY"
  | 503 => "SERVICE_UNAVAILABLE"
  | 504 => "GATEWAY_TIMEOUT"
  | _ => "UNKNOWN_ERROR"
  end.

End CallController.

(** ** The administrators' handler (admin.controller.js, lines 392-423) *)

Module AdminController.

Definition endCall (store : gmap string Call.t) (callId admin : string) (now : Z)
  : Result :=
  match store !! callId with
  | None => mkResult store (sendErrorResponse "Call not found" 404) []
  | Some c =>
      if bool_decide (Call.status c = Ended)
      then mkResult store (sendErrorResponse "Call already ended" 400) []
      else
        let c' := endCall c now in
        mkResult (<[callId := c']> store)
                 (sendSuccessResponse "Call ended successfully" NoData)
                 [mkEmit (Call.channelName c')
                         (CallEnded callId (Some admin) (Some "Administrative action"))]
  end.

(** [kickUserFromCall] (lines 811-841): [removeParticipant] and a notice
    to the user; neither the host transfer nor the auto-end of [leaveCall]. *)
Definition kickUserFromCall (store : gmap string Call.t) (callId u : string) (now : Z)
  : CallController.Outcome :=
  match store !! callId with
  | None => CallController.mkOutcome store (sendErrorResponse "Call not found" 404) []
  | Some c =>
      CallController.mkOutcome (<[callId := removeParticipant c u now]> store)
        (sendSuccessResponse "User kicked from call successfully" NoData)
        [CallController.mkSent (userRoom u)
           (CallController.KickedFromCall callId "Administrative action")]
  end.

End AdminController.

(** ** The socket.io connection handler (server entry file, lines 82-280) *)

Module Relay.

Record ConnectionInfo := mkConnectionInfo {
  socketId : string;
  connStatus : string;
  connectedAt : Z
}.

Record Socket := mkSocket { id : string; userId : string }.

(** [connectedUsers] and [activeRooms] are the two module-level Maps; a JS
    Set keeps insertion order, so a room's Set is a duplicate-free list.
    [rooms] is socket.io's own table of which sockets joined which room. *)
Record State := mkState {
  connectedUsers : gmap string ConnectionInfo;
  activeRooms : gmap string (list string);
  rooms : gmap string (gset string)
}.

(** The server: the session store next to the relay's state.  No socket
    handler takes or returns the store. *)
Record Server := mkServer {
  store : gmap string Call.t;
  relay : State
}.

Inductive Payload :=
  | UserOnline (user : string)
  | UserJoined (user roomId : string)
  | UserLeft (user roomId : string)
  | RoomParticipants (roomId : string)
      (participants : list (string * option ConnectionInfo)).

(** One [emit]: the sockets that receive it and what they receive. *)
Record Delivery := mkDelivery { recipients : gset string; payload : Payload }.

(** [Set.prototype.add] *)
Definition setAdd (x : string) (s : list string) : list string :=
  if bool_decide (x ∈ s) then s else s ++ [x].

Definition socketsIn (st : State) (roomId : string) : gset string :=
  default ∅ (rooms st !! roomId).

(** [socket.join(roomId)] *)
Definition socketJoin (sock : Socket) (roomId : string) (st : State) : State :=
  mkState (connectedUsers st) (activeRooms st)
          (<[roomId := {[id sock]} ∪ socketsIn st roomId]> (rooms st)).

(** [socket.to(roomId)]: every socket in the room but the sender. *)
Definition socketTo (sock : Socket) (roomId : string) (st : State) : gset string :=
  socketsIn st roomId ∖ {[id sock]}.

(** The [join-room] handler (lines 108-140). *)
Definition joinRoomState (st : State) (sock : Socket) (roomId : string)
  : State * list Delivery :=
  let st1 := socketJoin sock roomId st in
  let rooms1 :=
    match activeRooms st1 !! roomId with
    | Some _ => activeRooms st1
    | None => <[roomId := []]> (activeRooms st1)
    end in
  let rooms2 :=
    <[roomId := setAdd (userId sock) (default [] (rooms1 !! roomId))]> rooms1 in
  let st2 := mkState (connectedUsers st1) rooms2 (rooms st1) in
  let joined := mkDelivery (socketTo sock roomId st2)
                           (UserJoined (userId sock) roomId) in
  let participants :=
    (λ u, (u, connectedUsers st2 !! u))
      <$> filter (λ u, u ≠ userId sock) (default [] (rooms2 !! roomId)) in
  let roster := mkDelivery {[id sock]} (RoomParticipants roomId participants) in
  (st2, [joined; roster]).

Definition joinRoom (srv : Server) (sock : Socket) (roomId : string)
  : Server * list Delivery :=
  let '(st, out) := joinRoomState (relay srv) sock roomId in
  (mkServer (store srv) st, out).

(** Whether the user is in the room's Set of [activeRooms]. *)
Definition subscribed (srv : Server) (roomId user : string) : Prop :=
  user ∈ default [] (activeRooms (relay srv) !! roomId).

(** *** The other handlers of the connection *)

(** Whom an [emit] reaches: the sockets of a room as they are when it is
    sent ([socket.to(room)], [io.to(room)], [socket.emit]), or every
    connected socket but the sender's ([socket.broadcast]). *)
Inductive Target :=
  | Sockets (s : gset string)
  | EveryoneBut (sid : string).

Inductive Signal :=
  | Presence (p : Payload)
  | UserOffline (user : string)
  | CallInvitation (from : string).

Record Dispatch := mkDispatch { target : Target; signal : Signal }.

(** The body of [io.on('connection')] before the handlers are registered
    (lines 88-105). *)
Definition connection (st : State) (sock : Socket) (now : Z) : State * list Dispatch :=
  let st1 := mkState (<[userId sock := mkConnectionInfo (id sock) "online" now]>
                        (connectedUsers st))
                     (activeRooms st) (rooms st) in
  (socketJoin sock (userRoom (userId sock)) st1,
   [mkDispatch (EveryoneBut (id sock)) (Presence (UserOnline (userId sock)))]).

(** [socket.leave(roomId)]: socket.io forgets a room that has no socket
    left. *)
Definition socketLeave (sock : Socket) (roomId : string) (st : State) : State :=
  let s := socketsIn st roomId ∖ {[id sock]} in
  mkState (connectedUsers st) (activeRooms st)
          (if decide (s = ∅) then delete roomId (rooms st)
           else <[roomId := s]> (rooms st)).

(** [Set.prototype.delete] *)
Definition setDelete (x : string) (s : list string) : list string :=
  filter (λ y, y ≠ x) s.

(** The [leave-room] handler (lines 143-165). *)
Definition leaveRoomState (st : State) (sock : Socket) (roomId : string)
  : State * list Dispatch :=
  let st1 := socketLeave sock roomId st in
  let rooms1 :=
    match activeRooms st1 !! roomId with
    | Some participants =>
        let participants' := setDelete (userId sock) participants in
        if Z.of_nat (length participants') =? 0
        then delete roomId (activeRooms st1)
        else <[roomId := participants']> (activeRooms st1)
    | None => activeRooms st1
    end in
  let st2 := mkState (connectedUsers st1) rooms1 (rooms st1) in
  (st2, [mkDispatch (Sockets (socketTo sock roomId st2))
                    (Presence (UserLeft (userId sock) roomId))]).

(** The [send-call-invitation] handler (lines 168-179). *)
Definition sendCallInvitation (st : State) (sock : Socket) (targetUserId : string)
  : State * list Dispatch :=
  (st, [mkDispatch (Sockets (socketsIn st (userRoom targetUserId)))
                   (CallInvitation (userId sock))]).

(** What the [disconnect] handler does to one room of [activeRooms]:
    [None] is the room deleted. *)
Definition dropUser (u : string) (participants : list string) : option (list string) :=
  if bool_decide (u ∈ participants)
  then
    let participants' := setDelete u participants in
    if Z.of_nat (length participants') =? 0 then None else Some participants'
  else Some participants.

(** The [disconnect] handler (lines 250-279).  When it runs socket.io has
    taken the socket out of its rooms.  A Map is walked in insertion
    order, which the [gmap] does not keep: the user-left notices are in the
    order of the [gmap]. *)
Definition disconnect (st : State) (sock : Socket) : State * list Dispatch :=
  let st1 :=
    mkState (connectedUsers st) (activeRooms st)
            (omap (λ s, let s' := s ∖ {[id sock]} in
                        if decide (s' = ∅) then None else Some s')
                  (rooms st)) in
  let hit := (map_to_list
                (filter (λ kv : string * list string, userId sock ∈ kv.2)
                        (activeRooms st1))).*1 in
  let left := (λ roomId, mkDispatch (Sockets (socketTo sock roomId st1))
                                    (Presence (UserLeft (userId sock) roomId)))
                <$> hit in
  (mkState (delete (userId sock) (connectedUsers st1))
           (omap (dropUser (userId sock)) (activeRooms st1))
           (rooms st1),
   left ++ [mkDispatch (EveryoneBut (id sock)) (UserOffline (userId sock))]).

End Relay.

(** * Vocabulary of the statements, and sample sessions *)

(** The users of the participant entries, in list order. *)
Definition userIds (c : Call.t) : list string :=
  Participant.userId <$> Call.participants c.

(** The users the invitations of a call are for. *)
Definition invitees (c : Call.t) : list string :=
  Invitation.userId <$> Call.invitations c.

(** The entry [find] returns for the user, if there is one, is inactive. *)
Definition settled (u : string) (c : Call.t) : Prop :=
  ∀ i p, list_find (sameUser u) (Call.participants c) = Some (i, p) →
         Participant.isActive p = false.

(** What the handlers read besides the store: the token builder of
    agora-access-token, the credentials of the environment, the ids of the
    User documents that exist, and the ObjectId cast of Mongoose. *)
Record Env := mkEnv {
  tokenBuilder : string → string → string → Z → Agora.RtcRole → Z → string;
  credentials : Agora.Config;
  users : gset string;
  castObjectId : string → option string
}.

(** Every user an entry of the call refers to exists. *)
Definition entriesResolve (users : gset string) (c : Call.t) : Prop :=
  Forall (λ p, Participant.userId p ∈ users) (Call.participants c).

Global Instance entriesResolve_dec users c : Decision (entriesResolve users c).
Proof. unfold entriesResolve. apply _. Defined.

(** The operations on the participant list: [Add] is the method
    [addParticipant] on the document as stored, which is how [createCall]
    runs it on the new document; [Join] is [addParticipant] as [joinCall]
    runs it, on the populated document, where a TypeError leaves the
    document as it was; [Leave] is a leave through the controller
    ([leaveCall]); [Remove] is the bare [removeParticipant] (the
    administrators' kick). *)
Inductive Op :=
  | Add (u : string) (r : Role) (perms : Permissions) (now : Z)
  | Join (u : string) (now : Z)
  | Leave (u : string) (tLeave tEnd : Z)
  | Remove (u : string) (now : Z).

(** The document after one operation, and after a sequence of them. *)
Definition step (users : gset string) (callId : string) (c : Call.t) (o : Op) : Call.t :=
  match o with
  | Add u r perms now => addParticipant c u r perms now
  | Join u now =>
      default c (addParticipantOn (Populated users) c u RoleParticipant noPermissions now)
  | Leave u tLeave tEnd => (CallController.leaveCallDoc callId c u tLeave tEnd).1
  | Remove u now => removeParticipant c u now
  end.

Definition run (users : gset string) (callId : string) (c : Call.t) (ops : list Op)
  : Call.t :=
  foldl (step users callId) c ops.

(** How many active entries the user has. *)
Definition activeEntries (u : string) (c : Call.t) : nat :=
  length (filter (activeUser u) (Call.participants c)).

(** A verified user whose plan allows 100 participants, screen sharing
    and recording; a request that leaves every field to its default. *)
Definition demoUser : CallController.User :=
  CallController.mkUser true true 100 true true.

Definition noSettings : CallController.SettingsRequest :=
  CallController.mkSettingsRequest None None None None None None None None None.

Definition demoRequest : CallController.CreateRequest :=
  CallController.mkCreateRequest None None noSettings [].

(** The users of the examples, written by short names in place of their
    hexadecimal ids; the cast of such a name is the name. *)
Definition demoUsers : gset string :=
  list_to_set ["hana"; "ann"; "bob"; "carl"; "dan"].

(** Credentials for the examples, and a builder that returns the channel. *)
Definition demoConfig : Agora.Config := Agora.mkConfig (Some "app") (Some "cert").
Definition noConfig : Agora.Config := Agora.mkConfig None None.
Definition demoBuilder (appId cert channel : string) (uid : Z) (r : Agora.RtcRole)
    (ts : Z) : string := channel.

Definition demoEnv : Env := mkEnv demoBuilder demoConfig demoUsers Some.

(** The same without credentials. *)
Definition bareEnv : Env := mkEnv demoBuilder noConfig demoUsers Some.

(** A call created by hana at time 0. *)
Definition demoCall : Call.t :=
  CallController.createCallDoc "hana" demoUser demoRequest [] "0001" 0.

(** ann joins hana's call at 1000 and bob at 2000. *)
Definition partyCall : Call.t :=
  run demoUsers "c1" demoCall [Join "ann" 1000; Join "bob" 2000].

(** [inv.userId.toString() === userId.toString() && inv.status === 'accepted'] *)
Definition acceptedFor (u : string) (inv : Invitation.t) : Prop :=
  Invitation.userId inv = u ∧ Invitation.status inv = Accepted.

(** The statuses [canUserJoin] admits. *)
Definition joinable (c : Call.t) : Prop :=
  Call.status c = Active ∨ Call.status c = Scheduled.

Global Instance acceptedFor_dec u inv : Decision (acceptedFor u inv).
Proof. unfold acceptedFor. apply _. Defined.

(** A locked call hana creates at time 0, inviting ann. *)
Definition lockedRequest : CallController.CreateRequest :=
  CallController.mkCreateRequest None None
    (CallController.mkSettingsRequest None None None None None None None None (Some true))
    ["ann"].

Definition lockedCall : Call.t :=
  CallController.createCallDoc "hana" demoUser lockedRequest ["ann"] "0001" 0.

(** ann's entry in [partyCall]. *)
Definition annEntry : Participant.t :=
  Participant.mk "ann" (Some 1000) None None RoleParticipant noPermissions
    (mkMediaState true true false) Good true.

(** An administrator has removed hana from her call, which is still
    active with nobody in it. *)
Definition desertedCall : Call.t := run demoUsers "c1" demoCall [Remove "hana" 1000].

(** hana's call, ended at time 1000. *)
Definition endedCall : Call.t := endCall demoCall 1000.

(** How many pending invitations the user has. *)
Definition pendingCount (v : string) (c : Call.t) : nat :=
  length (filter (CallController.pendingFor v) (Call.invitations c)).

(** A target [inviteToCall] does not skip: the string of the request is
    the id of no invitation, of any status, and of no participant entry,
    active or not. *)
Definition unknownTo (c : Call.t) (target : string) : Prop :=
  ¬ Exists (λ inv, Invitation.userId inv = target) (Call.invitations c)
  ∧ ¬ Exists (λ p, Participant.userId p = target) (Call.participants c).

Global Instance unknownTo_dec c target : Decision (unknownTo c target).
Proof. unfold unknownTo. apply _. Defined.

(** hana's entry in the calls she creates at time 0. *)
Definition hanaEntry : Participant.t :=
  Participant.mk "hana" (Some 0) None None RoleHost fullPermissions
    (mkMediaState true true false) Good true.

(** hana creates a call inviting dan, and dan declines. *)
Definition inviteRequest : CallController.CreateRequest :=
  CallController.mkCreateRequest None None noSettings ["dan"].

Definition invitingCall : Call.t :=
  CallController.createCallDoc "hana" demoUser inviteRequest ["dan"] "0001" 0.



(** A cast that puts a name in lower case when it is DAN, dan's id in
    another spelling, and keeps every other name. *)
Definition foldCase (s : string) : option string :=
  if bool_decide (s = "DAN") then Some "dan" else Some s.

(** The text is more than white space. *)
Definition trim_nonempty (text : jsstring) : Prop := CallController.trim text ≠ [].

(** A thousand letters a, a thousand and one, and a thousand followed by a
    space. *)
Definition text1000 : jsstring := replicate 1000 97%N.

Definition text1001 : jsstring := replicate 1001 97%N.

Definition text1000sp : jsstring := replicate 1000 97%N ++ [32%N].

(** The subscriber set of a room, empty when the room has none. *)
Definition activeRooms_of (st : Relay.State) (roomId : string) : list string :=
  default [] (Relay.activeRooms st !! roomId).

(** A server whose only session has ended, and mallory's socket. *)
Definition endedServer : Relay.Server :=
  Relay.mkServer {[ "c1" := endedCall ]} (Relay.mkState ∅ ∅ ∅).

Definition mallory : Relay.Socket := Relay.mkSocket "s9" "mallory".

(** The derived analytics agree with the document, and the high-water
    mark is at least the present number of active participants. *)
Definition analyticsOk (c : Call.t) : Prop :=
  totalParticipants (Call.analytics c) = Z.of_nat (length (Call.participants c))
  ∧ totalMessages (Call.analytics c) = Z.of_nat (length (Call.chatMessages c))
  ∧ activeParticipantsCount c ≤ maxConcurrentParticipants (Call.analytics c).

(** A call that has run for 3725 seconds. *)
Definition longCall : Call.t := Call.set_duration (Some 3725) endedCall.

(** Only the camera is switched off. *)
Definition cameraOff : MediaPatch := mkMediaPatch None (Some false) None.

(** A call that has ended and has nobody in it. *)
Definition closed (c : Call.t) : Prop :=
  Call.status c = Ended ∧ activeParticipantsCount c = 0.

(** The requests on one call, and for each the store afterwards, the
    status of the answer and the number of events sent. *)
Inductive Request :=
  | ReqJoin (blockedUsers : list string) (u : string) (pw : option string) (now : Z)
  | ReqLeave (u : string) (tLeave tEnd : Z)
  | ReqEnd (u : string) (now : Z)
  | ReqInvite (u : string) (userIds : list string) (now : Z)
  | ReqRespond (u : string) (r : InvitationStatus) (now : Z)
  | ReqChat (u : string) (text : jsstring) (messageType : option string) (now : Z)
  | ReqMedia (u : string) (patch : MediaPatch)
  | ReqKick (u : string) (now : Z)
  | ReqAdminEnd (admin : string) (now : Z).

Record Served := mkServed {
  after : gmap string Call.t;
  code : Z;
  announced : nat
}.

Definition ofResult (r : Result) : Served :=
  mkServed (db r) (statusCode (response r)) (length (emitted r)).

Definition ofOutcome (r : CallController.Outcome) : Served :=
  mkServed (CallController.stored r) (statusCode (CallController.reply r))
           (length (CallController.sent r)).

Definition ofToken (r : CallController.TokenResult) : Served :=
  mkServed (CallController.tokenDb r) (statusCode (CallController.tokenResponse r))
           (length (CallController.tokenEmitted r)).

(** [joinCall] and [inviteToCall] in the environment [env]. *)
Definition joinCallIn (env : Env) := CallController.joinCall
  (tokenBuilder env) (credentials env) (users env).

Definition serve (env : Env) (store : gmap string Call.t) (callId : string)
    (req : Request) : Served :=
  match req with
  | ReqJoin blockedUsers u pw now =>
      ofToken (joinCallIn env store blockedUsers callId u pw now)
  | ReqLeave u tLeave tEnd =>
      ofResult (CallController.leaveCall store callId u tLeave tEnd)
  | ReqEnd u now => ofResult (CallController.endCall store callId u now)
  | ReqInvite u userIds now =>
      ofResult (CallController.inviteToCall (castObjectId env) store callId u userIds now)
  | ReqRespond u r now =>
      ofResult (CallController.respondToInvitation store callId u r now)
  | ReqChat u text messageType now =>
      ofResult (CallController.sendChatMessage store callId u text messageType now)
  | ReqMedia u patch => ofOutcome (CallController.updateMediaState store callId u patch)
  | ReqKick u now => ofOutcome (AdminController.kickUserFromCall store callId u now)
  | ReqAdminEnd admin now => ofResult (AdminController.endCall store callId admin now)
  end.

Definition serveAll (env : Env) (store : gmap string Call.t) (callId : string)
    (reqs : list Request) : gmap string Call.t :=
  foldl (λ s req, after (serve env s callId req)) store reqs.

(** The clock does not run backwards between the joins: every join of the
    sequence is made at or after the time [t] and at or after the joins
    before it. *)
Fixpoint joinsInOrder (t : Z) (reqs : list Request) : Prop :=
  match reqs with
  | [] => True
  | ReqJoin _ _ _ now :: rest => t ≤ now ∧ joinsInOrder now rest
  | _ :: rest => joinsInOrder t rest
  end.

(** Every entry has a time of joining, none later than [t], and the
    entries are in the order of these times. *)
Definition inJoinOrder (t : Z) (c : Call.t) : Prop :=
  ∃ ts, Participant.joinedAt <$> Call.participants c = Some <$> ts
        ∧ StronglySorted Z.le ts
        ∧ Forall (λ a, a ≤ t) ts.

(** The two kinds of entry the handlers write: the role [host] with every
    permission, and the role [participant] with none. *)
Definition standardEntry (p : Participant.t) : Prop :=
  (Participant.role p = RoleHost ∧ Participant.permissions p = fullPermissions)
  ∨ (Participant.role p = RoleParticipant ∧ Participant.permissions p = noPermissions).

(** The polynomial hash with multiplier 31 over the code units, without
    the 32-bit wrap-around. *)
Definition poly31 (str : jsstring) : Z :=
  foldl (λ h char, 31 * h + Z.of_N char) 0 str.

(** Both credentials are set and not empty. *)
Definition configured (cfg : Agora.Config) : Prop :=
  Agora.truthy (Agora.AGORA_APP_ID cfg) = true
  ∧ Agora.truthy (Agora.AGORA_APP_CERTIFICATE cfg) = true.

(** What a socket sends to the relay, and the relay's state after it. *)
Inductive SocketEvent :=
  | EvConnection (sock : Relay.Socket) (now : Z)
  | EvJoinRoom (sock : Relay.Socket) (roomId : string)
  | EvLeaveRoom (sock : Relay.Socket) (roomId : string)
  | EvSendCallInvitation (sock : Relay.Socket) (targetUserId : string)
  | EvDisconnect (sock : Relay.Socket).

Definition handle (st : Relay.State) (ev : SocketEvent) : Relay.State :=
  match ev with
  | EvConnection sock now => (Relay.connection st sock now).1
  | EvJoinRoom sock roomId => (Relay.joinRoomState st sock roomId).1
  | EvLeaveRoom sock roomId => (Relay.leaveRoomState st sock roomId).1
  | EvSendCallInvitation sock targetUserId =>
      (Relay.sendCallInvitation st sock targetUserId).1
  | EvDisconnect sock => (Relay.disconnect st sock).1
  end.

Definition handleAll (st : Relay.State) (evs : list SocketEvent) : Relay.State :=
  foldl handle st evs.

(** Every room of [activeRooms] has somebody in it, once. *)
Definition tidy (st : Relay.State) : Prop :=
  ∀ roomId us, Relay.activeRooms st !! roomId = Some us → us ≠ [] ∧ NoDup us.

Definition emptyRelay : Relay.State := Relay.mkState ∅ ∅ ∅.

(** Two sockets of ann, and one of bob. *)
Definition annPhone : Relay.Socket := Relay.mkSocket "s1" "ann".
Definition annLaptop : Relay.Socket := Relay.mkSocket "s2" "ann".
Definition bobPhone : Relay.Socket := Relay.mkSocket "s3" "bob".

(** * Properties *)

Create Rewrite HintDb call.

(** Projections of pairs and of freshly set fields, and what [save] keeps. *)
Ltac call_simpl :=
  cbn [fst snd];
  autorewrite with call;
  cbn [Call.channelName Call.host Call.participants Call.maxParticipants
       Call.status Call.scheduledFor Call.startedAt Call.endedAt Call.duration
       Call.settings Call.chatMessages Call.invitations Call.analytics
       Call.set_participants Call.set_host Call.set_status Call.set_endedAt
       Call.set_duration Call.set_chatMessages Call.set_invitations
       Call.set_analytics].

(** Decidable facts about concrete sessions, settled by evaluation. *)
Ltac prove_by_computation :=
  match goal with
  | |- ?P => apply (bool_decide_unpack P); vm_compute; exact I
  end.

Ltac refute_by_computation :=
  match goal with
  | |- ¬ ?P => apply (proj1 (bool_decide_eq_false P)); vm_compute; reflexivity
  | |- ?P → False => apply (proj1 (bool_decide_eq_false P)); vm_compute; reflexivity
  end.

(** ** What [save] leaves alone *)

Ltac save_field :=
  match goal with
  | c : Call.t |- _ =>
      unfold save, preSave;
      destruct c as [? ? ? ? [] ? [?|] [?|] ? ? ? ? ?]; simpl in *;
      try done
  end.

Section SaveFacts.
Variable c : Call.t.

Lemma save_participants : Call.participants (save c) = Call.participants c.
Proof. save_field. Qed.

Lemma save_host : Call.host (save c) = Call.host c.
Proof. save_field. Qed.

Lemma save_status : Call.status (save c) = Call.status c.
Proof. save_field. Qed.

Lemma save_channelName : Call.channelName (save c) = Call.channelName c.
Proof. save_field. Qed.

Lemma save_maxParticipants : Call.maxParticipants (save c) = Call.maxParticipants c.
Proof. save_field. Qed.

Lemma save_settings : Call.settings (save c) = Call.settings c.
Proof. save_field. Qed.

Lemma save_invitations : Call.invitations (save c) = Call.invitations c.
Proof. save_field. Qed.

Lemma save_chatMessages : Call.chatMessages (save c) = Call.chatMessages c.
Proof. save_field. Qed.

Lemma save_startedAt : Call.startedAt (save c) = Call.startedAt c.
Proof. save_field. Qed.

Lemma save_endedAt : Call.endedAt (save c) = Call.endedAt c.
Proof. save_field. Qed.

Lemma save_activeParticipantsCount :
  activeParticipantsCount (save c) = activeParticipantsCount c.
Proof. unfold activeParticipantsCount. by rewrite save_participants. Qed.

Lemma save_totalMessages :
  totalMessages (Call.analytics (save c)) = Z.of_nat (length (Call.chatMessages c)).
Proof. save_field. Qed.

Lemma save_duration_ended s e :
  Call.status c = Ended → Call.startedAt c = Some s → Call.endedAt c = Some e →
  Call.duration (save c) = Some (elapsedSeconds s e).
Proof. intros Hst Hs He. save_field; congruence. Qed.

(** Saving twice in a row writes nothing new. *)
Lemma save_idempotent : save (save c) = save c.
Proof.
  unfold save, preSave.
  destruct c as [cn h ps mp st sf sa ea du se cm iv [tp mc tm]]; simpl.
  destruct st, ea, sa;
    unfold Call.set_analytics, Call.set_duration, activeParticipantsCount; simpl;
    do 2 f_equal; lia.
Qed.
End SaveFacts.

Global Arguments save : simpl never.
Global Arguments preSave : simpl never.

#[export] Hint Rewrite save_participants save_host save_status save_channelName
  save_maxParticipants save_settings save_invitations save_chatMessages
  save_startedAt save_endedAt save_activeParticipantsCount : call.

(** ** [find] and in-place updates *)

Section FindFacts.
Context {A : Type} (P : A → Prop) `{!∀ x, Decision (P x)}.

(** Replacing the found entry by one that still matches: it is found at
    the same place. *)
Lemma list_find_insert_same (l : list A) i x y :
  list_find P l = Some (i, x) → P y →
  list_find P (<[i := y]> l) = Some (i, y).
Proof.
  intros Hf Hy. apply list_find_Some in Hf as (Hi & Hx & Hleast).
  apply list_find_Some. split_and!; [|done|].
  - apply list_lookup_insert_eq. by eapply lookup_lt_Some.
  - intros j z Hj Hlt. rewrite list_lookup_insert_ne in Hj by lia. eauto.
Qed.

(** Replacing an entry that does not match by one that does not either:
    the search is not affected. *)
Lemma list_find_insert_other (l : list A) i x y :
  l !! i = Some x → ¬ P x → ¬ P y →
  list_find P (<[i := y]> l) = list_find P l.
Proof.
  intros Hi Hx Hy.
  destruct (list_find P l) as [[j z]|] eqn:Hf.
  - apply list_find_Some in Hf as (Hj & Hz & Hleast).
    assert (i ≠ j) by (intros ->; congruence).
    apply list_find_Some. split_and!; [|done|].
    + by rewrite list_lookup_insert_ne.
    + intros k w Hk Hlt. destruct (decide (k = i)) as [->|Hne].
      * rewrite list_lookup_insert_eq in Hk by (by eapply lookup_lt_Some).
        by inversion Hk; subst.
      * rewrite list_lookup_insert_ne in Hk by done. eauto.
  - apply list_find_None. apply list_find_None in Hf.
    apply Forall_insert; done.
Qed.

(** The first entry a filter keeps is the entry [find] returns. *)
Lemma head_filter_list_find (l : list A) :
  head (filter P l) = snd <$> list_find P l.
Proof.
  induction l as [|a l IH]; [done|].
  rewrite filter_cons. simpl. destruct (decide (P a)); [done|].
  rewrite IH. by destruct (list_find P l) as [[? ?]|].
Qed.
End FindFacts.

(** ** The participant list under the model's methods *)

(** After an in-place update that keeps the identity, the identities are
    where they were. *)
Lemma fmap_userId_insert (ps : list Participant.t) i p q :
  ps !! i = Some p → Participant.userId q = Participant.userId p →
  Participant.userId <$> <[i := q]> ps = Participant.userId <$> ps.
Proof.
  intros Hi Hq. rewrite list_fmap_insert, Hq.
  apply list_insert_id. by rewrite list_lookup_fmap, Hi.
Qed.

Lemma list_find_sameUser_None u (ps : list Participant.t) :
  list_find (sameUser u) ps = None ↔ u ∉ Participant.userId <$> ps.
Proof.
  rewrite list_find_None, Forall_forall. unfold sameUser. split.
  - intros H Hin. apply list_elem_of_fmap in Hin as (p & -> & Hp). by apply (H p).
  - intros H p Hp Heq. apply H, list_elem_of_fmap. eauto.
Qed.

Lemma removeParticipant_participants c u t :
  Call.participants (removeParticipant c u t) =
  match list_find (sameUser u) (Call.participants c) with
  | Some (i, p) =>
      if Participant.isActive p
      then <[i := markLeft t p]> (Call.participants c)
      else Call.participants c
  | None => Call.participants c
  end.
Proof.
  unfold removeParticipant.
  destruct (list_find _ _) as [[i p]|]; [destruct (Participant.isActive p)|];
    by autorewrite with call.
Qed.

Lemma addParticipant_participants c u r perms t :
  Call.participants (addParticipant c u r perms t) =
  match list_find (sameUser u) (Call.participants c) with
  | Some (i, p) =>
      if Participant.isActive p
      then Call.participants c
      else <[i := reactivate t p]> (Call.participants c)
  | None => Call.participants c ++ [newParticipant u r perms t]
  end.
Proof.
  unfold addParticipant.
  destruct (list_find _ _) as [[i p]|]; [destruct (Participant.isActive p)|];
    by autorewrite with call.
Qed.

Lemma endCall_participants c t :
  Call.participants (endCall c t) =
  (λ p, if Participant.isActive p then markLeft t p else p) <$> Call.participants c.
Proof. unfold endCall. by autorewrite with call. Qed.

Lemma endCall_status c t : Call.status (endCall c t) = Ended.
Proof. unfold endCall. by autorewrite with call. Qed.

Lemma endCall_endedAt c t : Call.endedAt (endCall c t) = Some t.
Proof. unfold endCall. by autorewrite with call. Qed.

Lemma endCall_startedAt c t : Call.startedAt (endCall c t) = Call.startedAt c.
Proof. unfold endCall. by autorewrite with call. Qed.

Lemma endCall_duration c t s :
  Call.startedAt c = Some s → Call.duration (endCall c t) = Some (elapsedSeconds s t).
Proof. intros Hs. unfold endCall. by apply save_duration_ended. Qed.

(** No entry is active once [endCall] has run. *)
Lemma endCall_all_inactive c t :
  Forall (λ p, Participant.isActive p = false) (Call.participants (endCall c t)).
Proof.
  rewrite endCall_participants. apply Forall_fmap, Forall_forall.
  intros p _. simpl. by destruct (Participant.isActive p) eqn:E.
Qed.

Lemma activeParticipantsCount_0 c :
  activeParticipantsCount c = 0 ↔
  Forall (λ p, Participant.isActive p = false) (Call.participants c).
Proof.
  unfold activeParticipantsCount.
  induction (Call.participants c) as [|p ps IH]; [by split|].
  rewrite filter_cons, Forall_cons. destruct (decide _) as [E|E]; simpl.
  - split; [lia|]. intros [? _]. congruence.
  - rewrite <- IH. apply not_true_is_false in E. tauto.
Qed.

Lemma activeParticipantsCount_nonneg c : 0 ≤ activeParticipantsCount c.
Proof. unfold activeParticipantsCount. lia. Qed.

(** [endCall] writes nothing into the entries of a call nobody is in. *)
Lemma endCall_participants_inactive c t :
  activeParticipantsCount c = 0 →
  Call.participants (endCall c t) = Call.participants c.
Proof.
  rewrite activeParticipantsCount_0, endCall_participants. intros Hall.
  rewrite <- (list_fmap_id (Call.participants c)) at 2.
  apply list_fmap_ext. intros i p Hp.
  rewrite Forall_lookup in Hall. by rewrite (Hall i p Hp).
Qed.

(** The count of active entries only reads the [isActive] flags. *)
Lemma active_length_flags (ps : list Participant.t) :
  length (filter (λ p, Participant.isActive p = true) ps) =
  length (filter (λ b : bool, b = true) (Participant.isActive <$> ps)).
Proof.
  induction ps as [|p ps IH]; [done|].
  rewrite fmap_cons, !filter_cons.
  destruct (decide (Participant.isActive p = true)); simpl; by rewrite IH.
Qed.

Lemma active_length_insert (ps : list Participant.t) i p q :
  ps !! i = Some p → Participant.isActive q = Participant.isActive p →
  length (filter (λ p, Participant.isActive p = true) (<[i := q]> ps)) =
  length (filter (λ p, Participant.isActive p = true) ps).
Proof.
  intros Hi Hq. rewrite !active_length_flags, list_fmap_insert, Hq.
  rewrite list_insert_id; [done|]. by rewrite list_lookup_fmap, Hi.
Qed.

(** ** The host-transfer and auto-end blocks of [leaveCall] *)

Section LeaveBlocks.
Local Abbreviation transferHost := CallController.transferHost.
Local Abbreviation endIfEmpty := CallController.endIfEmpty.
Local Abbreviation leaveCallDoc := CallController.leaveCallDoc.
Variable callId : string.

(** The two ways through [transferHost]. *)
Lemma transferHost_cases c u :
  (∃ i newHost,
      Call.host c = u ∧ 0 < activeParticipantsCount c ∧
      list_find (otherActive u) (Call.participants c) = Some (i, newHost) ∧
      transferHost callId c u =
        (save (Call.set_participants
                 (<[i := promote newHost]> (Call.participants c))
                 (Call.set_host (Participant.userId newHost) c)),
         [mkEmit (Call.channelName c)
                 (HostChanged callId (Participant.userId newHost))]))
  ∨ ((Call.host c ≠ u ∨ activeParticipantsCount c = 0
      ∨ list_find (otherActive u) (Call.participants c) = None)
     ∧ transferHost callId c u = (c, [])).
Proof.
  unfold CallController.transferHost.
  destruct (bool_decide (Call.host c = u)) eqn:Hh; simpl.
  - apply bool_decide_eq_true in Hh.
    destruct (0 <? activeParticipantsCount c) eqn:Hn.
    + apply Z.ltb_lt in Hn.
      destruct (list_find _ _) as [[i nh]|] eqn:Hf; [left|right]; eauto 10.
    + apply Z.ltb_ge in Hn. right. split; [|done]. right; left.
      pose proof (activeParticipantsCount_nonneg c). lia.
  - apply bool_decide_eq_false in Hh. right. eauto.
Qed.

Lemma transferHost_userIds c u :
  userIds (transferHost callId c u).1 = userIds c.
Proof.
  destruct (transferHost_cases c u) as [(i & nh & _ & _ & Hf & ->)|[_ ->]]; [|done].
  unfold userIds. call_simpl.
  apply list_find_Some in Hf as (Hi & _ & _).
  by eapply fmap_userId_insert.
Qed.

Lemma transferHost_activeParticipantsCount c u :
  activeParticipantsCount (transferHost callId c u).1 = activeParticipantsCount c.
Proof.
  destruct (transferHost_cases c u) as [(i & nh & _ & _ & Hf & ->)|[_ ->]]; [|done].
  call_simpl. unfold activeParticipantsCount. call_simpl.
  apply list_find_Some in Hf as (Hi & _ & _).
  f_equal. by eapply active_length_insert.
Qed.

(** [transferHost] does not touch the entry of the user who leaves. *)
Lemma transferHost_find_sameUser c u :
  list_find (sameUser u) (Call.participants (transferHost callId c u).1) =
  list_find (sameUser u) (Call.participants c).
Proof.
  destruct (transferHost_cases c u) as [(i & nh & _ & _ & Hf & ->)|[_ ->]]; [|done].
  call_simpl.
  apply list_find_Some in Hf as (Hi & [_ Hne] & _).
  by eapply list_find_insert_other.
Qed.

Lemma endIfEmpty_cases c t :
  (activeParticipantsCount c = 0
   ∧ endIfEmpty callId c t =
       (endCall c t,
        [mkEmit (Call.channelName c)
                (CallEnded callId None (Some "No active participants"))]))
  ∨ (activeParticipantsCount c ≠ 0 ∧ endIfEmpty callId c t = (c, [])).
Proof.
  unfold CallController.endIfEmpty. destruct (activeParticipantsCount c =? 0) eqn:E.
  - apply Z.eqb_eq in E. by left.
  - apply Z.eqb_neq in E. by right.
Qed.

(** [endIfEmpty] changes no participant entry: when it ends the call,
    there is no active entry left to mark. *)
Lemma endIfEmpty_participants c t :
  Call.participants (endIfEmpty callId c t).1 = Call.participants c.
Proof.
  destruct (endIfEmpty_cases c t) as [[H0 ->]|[_ ->]]; [|done].
  by apply endCall_participants_inactive.
Qed.

Lemma endIfEmpty_host c t : Call.host (endIfEmpty callId c t).1 = Call.host c.
Proof.
  destruct (endIfEmpty_cases c t) as [[H0 ->]|[_ ->]]; [|done].
  unfold endCall. by call_simpl.
Qed.

(** [leaveCallDoc], block by block. *)
Lemma leaveCallDoc_fst c u tLeave tEnd :
  (leaveCallDoc callId c u tLeave tEnd).1 =
  (endIfEmpty callId (transferHost callId (removeParticipant c u tLeave) u).1 tEnd).1.
Proof.
  unfold CallController.leaveCallDoc.
  destruct (transferHost _ _ _) as [c2 ev2]. simpl.
  by destruct (endIfEmpty _ _ _) as [c3 ev3].
Qed.

Lemma leaveCallDoc_snd c u tLeave tEnd :
  let c1 := removeParticipant c u tLeave in
  let r2 := transferHost callId c1 u in
  (leaveCallDoc callId c u tLeave tEnd).2 =
  [mkEmit (Call.channelName c1) (UserLeftCall callId u)]
    ++ r2.2 ++ (endIfEmpty callId r2.1 tEnd).2.
Proof.
  simpl. unfold CallController.leaveCallDoc.
  destruct (transferHost _ _ _) as [c2 ev2]. simpl.
  by destruct (endIfEmpty _ _ _) as [c3 ev3].
Qed.
End LeaveBlocks.

(** ** Leaving twice *)

Lemma removeParticipant_settled c u t : settled u (removeParticipant c u t).
Proof.
  intros j q. rewrite removeParticipant_participants.
  destruct (list_find _ (Call.participants c)) as [[i p]|] eqn:Hf.
  - destruct (Participant.isActive p) eqn:Hp.
    + erewrite list_find_insert_same; [|done|].
      * intros [= <- <-]. done.
      * apply list_find_Some in Hf as (_ & Hu & _). exact Hu.
    + rewrite Hf. intros [= <- <-]. done.
  - by rewrite Hf.
Qed.

Lemma removeParticipant_settled_noop c u t :
  settled u c → removeParticipant c u t = save c.
Proof.
  intros Hs. unfold removeParticipant.
  destruct (list_find _ _) as [[i p]|] eqn:Hf; [|done].
  by rewrite (Hs i p Hf).
Qed.

Section LeaveTwice.
Variable callId : string.
Local Abbreviation leaveCallDoc := (CallController.leaveCallDoc callId).

Lemma leaveCallDoc_settled c u t e : settled u (leaveCallDoc c u t e).1.
Proof.
  intros i p. rewrite leaveCallDoc_fst, endIfEmpty_participants,
    transferHost_find_sameUser.
  apply removeParticipant_settled.
Qed.

(** After a leave, the host-transfer block has nothing left to do for the
    same user. *)
Lemma leaveCallDoc_no_transfer_left c u t e :
  let c1 := (leaveCallDoc c u t e).1 in
  Call.host c1 ≠ u ∨ activeParticipantsCount c1 = 0
  ∨ list_find (otherActive u) (Call.participants c1) = None.
Proof.
  simpl. rewrite leaveCallDoc_fst.
  set (r := removeParticipant c u t).
  destruct (transferHost_cases callId r u)
    as [(i & nh & _ & _ & Hf & ->)|[Hno ->]]; cbn [fst].
  - left. rewrite endIfEmpty_host. call_simpl.
    apply list_find_Some in Hf as (_ & [_ Hne] & _). done.
  - destruct Hno as [Hh|[H0|Hn]].
    + left. by rewrite endIfEmpty_host.
    + right; left.
      destruct (endIfEmpty_cases callId r e) as [[_ ->]|[? _]]; [|done].
      cbn [fst]. apply activeParticipantsCount_0, endCall_all_inactive.
    + right; right. by rewrite endIfEmpty_participants.
Qed.

Lemma leaveCallDoc_again c1 u t e :
  settled u c1 →
  (Call.host c1 ≠ u ∨ activeParticipantsCount c1 = 0
   ∨ list_find (otherActive u) (Call.participants c1) = None) →
  Call.participants (leaveCallDoc c1 u t e).1 = Call.participants c1.
Proof.
  intros Hs Hno.
  rewrite leaveCallDoc_fst, endIfEmpty_participants,
    (removeParticipant_settled_noop _ _ _ Hs).
  destruct (transferHost_cases callId (save c1) u)
    as [(i & nh & Hh & Hn & Hf & _)|[_ ->]].
  - exfalso. revert Hh Hn Hf. autorewrite with call. intros Hh Hn Hf.
    destruct Hno as [?|[?|Hnone]]; [done|lia|]. by rewrite Hnone in Hf.
  - cbn [fst]. by autorewrite with call.
Qed.
End LeaveTwice.

(** C8.  Leaving twice in a row: the second [removeParticipant] writes
    nothing at all (the document it saves is the one the first saved), and
    the second [leaveCall] of the controller changes no participant entry
    and leaves the count of active participants where the first left it. *)
Theorem leave_twice_is_noop (callId : string) (c : Call.t) (u : string)
    (t1 e1 t2 e2 : Z) :
  (let once := removeParticipant c u t1 in
   removeParticipant once u t2 = once)
  ∧ (let once := (CallController.leaveCallDoc callId c u t1 e1).1 in
     let twice := (CallController.leaveCallDoc callId once u t2 e2).1 in
     Call.participants twice = Call.participants once
     ∧ activeParticipantsCount twice = activeParticipantsCount once).
Proof.
  split.
  - simpl. rewrite removeParticipant_settled_noop by apply removeParticipant_settled.
    unfold removeParticipant.
    destruct (list_find _ _) as [[i p]|]; [destruct (Participant.isActive p)|];
      apply save_idempotent.
  - simpl.
    assert (Call.participants
              (CallController.leaveCallDoc callId
                 (CallController.leaveCallDoc callId c u t1 e1).1 u t2 e2).1
            = Call.participants (CallController.leaveCallDoc callId c u t1 e1).1) as Hps.
    { apply leaveCallDoc_again;
        [apply leaveCallDoc_settled | apply leaveCallDoc_no_transfer_left]. }
    split; [done|]. unfold activeParticipantsCount. by rewrite Hps.
Qed.

(** ** Issuing a token *)

Lemma issueToken_configured build cfg channel u now :
  configured cfg →
  ∃ tok, CallController.issueToken build cfg channel u now = Some tok
         ∧ Agora.channelName tok = channel
         ∧ Agora.uid tok = Agora.generateUidFromString (Agora.codeUnits u)
         ∧ Agora.role tok = Agora.PUBLISHER
         ∧ Agora.expiryTimestamp tok = now / 1000 + 3600
         ∧ Agora.expiry tok = (now / 1000 + 3600) * 1000.
Proof.
  intros [Hid Hcert].
  unfold CallController.issueToken, Agora.generateAgoraToken.
  rewrite Hid, Hcert. cbn [negb orb]. eexists. split; [done|]. by split_and!.
Qed.

Lemma issueToken_not_configured build cfg channel u now :
  ¬ configured cfg → CallController.issueToken build cfg channel u now = None.
Proof.
  intros Hno. unfold CallController.issueToken, Agora.generateAgoraToken.
  destruct (Agora.truthy (Agora.AGORA_APP_ID cfg)) eqn:Hid; [|done].
  destruct (Agora.truthy (Agora.AGORA_APP_CERTIFICATE cfg)) eqn:Hcert; [|done].
  by destruct Hno.
Qed.

Lemma configured_dec cfg : configured cfg ∨ ¬ configured cfg.
Proof.
  unfold configured.
  destruct (Agora.truthy (Agora.AGORA_APP_ID cfg)),
           (Agora.truthy (Agora.AGORA_APP_CERTIFICATE cfg));
    (by left) || (right; by intros [? ?]).
Qed.

(** ** The methods on a populated document *)

(** On the document as stored, [findUser] is [find] on the ids. *)
Lemma findUser_Plain u ps : findUser Plain u ps = Some (list_find (sameUser u) ps).
Proof.
  induction ps as [|p ps IH]; [done|].
  cbn [findUser printedUserId]. rewrite IH. unfold sameUser. cbn.
  case_bool_decide as Hp; destruct (decide (Participant.userId p = u)) as [Hu|Hu];
    try done; congruence.
Qed.

(** On a populated document nothing is found, and the search fails when
    the user of an entry does not exist. *)
Lemma findUser_Populated users u ps :
  findUser (Populated users) u ps =
  if bool_decide (Forall (λ p, Participant.userId p ∈ users) ps) then Some None else None.
Proof.
  induction ps as [|p ps IH]; [done|].
  cbn [findUser printedUserId]. rewrite IH.
  destruct (bool_decide (Participant.userId p ∈ users)) eqn:Hp.
  - apply bool_decide_eq_true in Hp. rewrite bool_decide_eq_false_2 by done.
    case_bool_decide as Hall.
    + by rewrite bool_decide_eq_true_2 by (by constructor).
    + rewrite bool_decide_eq_false_2; [done|]. by intros [_ ?]%Forall_cons.
  - apply bool_decide_eq_false in Hp.
    rewrite bool_decide_eq_false_2; [done|]. by intros [? _]%Forall_cons.
Qed.

Lemma addParticipantOn_Plain c u r perms now :
  addParticipantOn Plain c u r perms now = Some (addParticipant c u r perms now).
Proof.
  unfold addParticipantOn, addParticipant. rewrite findUser_Plain.
  destruct (list_find _ _) as [[i p]|]; [|done]. by destruct (Participant.isActive p).
Qed.

Lemma canUserJoinOn_Plain c u : canUserJoinOn Plain c u = Some (canUserJoin c u).
Proof.
  unfold canUserJoinOn, canUserJoin. rewrite findUser_Plain.
  destruct (_ && _); [done|]. destruct (bool_decide (_ ≤ _)); [done|].
  destruct (lockRoom _); [|done].
  assert (bool_decide (is_Some (list_find (sameUser u) (Call.participants c)))
          = bool_decide (Exists (sameUser u) (Call.participants c))) as ->.
  { apply bool_decide_ext. rewrite Exists_exists. split.
    - intros [[i p] (Hi & Hp & _)%list_find_Some]. exists p. split; [|done].
      by eapply list_elem_of_lookup_2.
    - intros (p & Hin & Hp). destruct (list_find _ _) as [ip|] eqn:Hf; [by eexists|].
      apply list_find_None in Hf. rewrite Forall_forall in Hf. by destruct (Hf p Hin). }
  by destruct (_ && _).
Qed.

(** What [joinCall] stores for a user it admits: one more entry, with the
    role participant and no permissions. *)
Lemma addParticipantOn_Populated users c u r perms now :
  addParticipantOn (Populated users) c u r perms now =
  if bool_decide (entriesResolve users c)
  then Some (save (Call.set_participants
                     (Call.participants c ++ [newParticipant u r perms now]) c))
  else None.
Proof.
  unfold addParticipantOn. rewrite findUser_Populated.
  destruct (bool_decide (entriesResolve users c)) eqn:E.
  - apply bool_decide_eq_true in E. by rewrite bool_decide_eq_true_2.
  - apply bool_decide_eq_false in E. by rewrite bool_decide_eq_false_2.
Qed.

(** The lock of a room, as [joinCall] tests it, opens for an accepted
    invitation alone. *)
Lemma canUserJoinOn_Populated users c u :
  canUserJoinOn (Populated users) c u =
  if negb (bool_decide (Call.status c = Active)) && negb (bool_decide (Call.status c = Scheduled))
  then Some (mkJoinCheck false (Some "Call is not active"))
  else if bool_decide (Call.maxParticipants c ≤ activeParticipantsCount c)
  then Some (mkJoinCheck false (Some "Call is full"))
  else if lockRoom (Call.settings c)
  then if bool_decide (entriesResolve users c)
       then if bool_decide (Exists (λ inv, Invitation.userId inv = u
                                           ∧ Invitation.status inv = Accepted)
                                   (Call.invitations c))
            then Some (mkJoinCheck true None)
            else Some (mkJoinCheck false (Some "Room is locked"))
       else None
  else Some (mkJoinCheck true None).
Proof.
  unfold canUserJoinOn. rewrite findUser_Populated.
  destruct (_ && _); [done|]. destruct (bool_decide (_ ≤ _)); [done|].
  destruct (lockRoom _); [|done].
  destruct (bool_decide (entriesResolve users c)) eqn:E.
  - apply bool_decide_eq_true in E. rewrite bool_decide_eq_true_2 by done.
    rewrite (bool_decide_eq_false_2 (is_Some None)) by (by intros [? ?]).
    cbn [negb andb]. by destruct (bool_decide (Exists _ _)).
  - apply bool_decide_eq_false in E. by rewrite bool_decide_eq_false_2.
Qed.

(** ** One entry per user *)

Lemma removeParticipant_userIds c u t : userIds (removeParticipant c u t) = userIds c.
Proof.
  unfold userIds. rewrite removeParticipant_participants.
  destruct (list_find _ _) as [[i p]|] eqn:Hf; [|done].
  destruct (Participant.isActive p); [|done].
  apply list_find_Some in Hf as (Hi & _ & _). by eapply fmap_userId_insert.
Qed.

Lemma leaveCallDoc_userIds callId c u t e :
  userIds (CallController.leaveCallDoc callId c u t e).1 = userIds c.
Proof.
  rewrite leaveCallDoc_fst. unfold userIds at 1.
  rewrite endIfEmpty_participants. fold (userIds (CallController.transferHost
    callId (removeParticipant c u t) u).1).
  by rewrite transferHost_userIds, removeParticipant_userIds.
Qed.


Lemma canUserJoinOn_true v c u why :
  canUserJoinOn v c u = Some (mkJoinCheck true why) → why = None.
Proof.
  unfold canUserJoinOn.
  destruct (_ && _); [done|]. destruct (bool_decide (_ ≤ _)); [done|].
  destruct (lockRoom _); [|by intros [= <-]].
  destruct (findUser _ _ _) as [found|]; [|done].
  destruct (_ && _); [done|]. by intros [= <-].
Qed.

(** The outcomes of [joinCall] on a call that exists: the store is left
    alone, with no event, or the call is stored with one more entry, with
    the event on 200 and without it on 500. *)
Lemma joinCall_cases env store blockedUsers callId u pw now c :
  store !! callId = Some c →
  let r := joinCallIn env store blockedUsers callId u pw now in
  let c' := save (Call.set_participants
                    (Call.participants c
                     ++ [newParticipant u RoleParticipant noPermissions now]) c) in
  (statusCode (CallController.tokenResponse r) ≠ 200
   ∧ CallController.tokenDb r = store ∧ CallController.tokenEmitted r = []
   ∧ CallController.issued r = None)
  ∨ (canUserJoinOn (Populated (users env)) c u = Some (mkJoinCheck true None)
     ∧ (requirePassword (Call.settings c) = true → password (Call.settings c) = pw)
     ∧ Call.host c ∈ users env
     ∧ (u ∉ blockedUsers)
     ∧ entriesResolve (users env) c
     ∧ CallController.tokenDb r = <[callId := c']> store
     ∧ ((configured (credentials env)
         ∧ statusCode (CallController.tokenResponse r) = 200
         ∧ CallController.tokenEmitted r =
             [mkEmit (Call.channelName c) (UserJoinedCall callId u)]
         ∧ ∃ tok, CallController.issued r = Some tok
                  ∧ Agora.channelName tok = Call.channelName c)
        ∨ (¬ configured (credentials env)
           ∧ CallController.tokenResponse r = sendErrorResponse "Failed to join call" 500
           ∧ CallController.tokenEmitted r = []
           ∧ CallController.issued r = None))).
Proof.
  intros Hc. cbn zeta. unfold joinCallIn, CallController.joinCall. rewrite Hc.
  destruct (canUserJoinOn _ c u) as [[can why]|] eqn:Hcan.
  2: { left. by cbn. }
  destruct can; cbn [negb canJoin].
  2: { left. by cbn. }
  apply canUserJoinOn_true in Hcan as Hwhy. subst why.
  destruct (requirePassword (Call.settings c) && _) eqn:Hpw.
  { left. by cbn. }
  destruct (bool_decide (Call.host c ∈ users env)) eqn:Hhost; cbn [negb].
  2: { left. by cbn. }
  destruct (bool_decide (u ∈ blockedUsers)) eqn:Hb.
  { left. by cbn. }
  rewrite addParticipantOn_Populated.
  destruct (bool_decide (entriesResolve (users env) c)) eqn:Hres.
  2: { left. by cbn. }
  right.
  apply bool_decide_eq_true in Hhost, Hres. apply bool_decide_eq_false in Hb.
  assert (requirePassword (Call.settings c) = true → password (Call.settings c) = pw)
    as Hpass.
  { intros Hreq. rewrite Hreq in Hpw. cbn in Hpw.
    by apply negb_false_iff, bool_decide_eq_true in Hpw. }
  set (c' := save _).
  assert (Call.channelName c' = Call.channelName c) as Hch
    by (unfold c'; by call_simpl).
  destruct (configured_dec (credentials env)) as [Hcfg|Hcfg].
  - destruct (issueToken_configured (tokenBuilder env) (credentials env)
                (Call.channelName c') u now Hcfg) as (tok & Htok & Htch & _).
    rewrite Htok. cbn [CallController.tokenDb CallController.tokenResponse
                       CallController.tokenEmitted CallController.issued].
    split_and!; [done|done|done|done|done|done|].
    left. split_and!; [done|done|by rewrite Hch|].
    exists tok. split; [done|]. by rewrite Htch.
  - rewrite (issueToken_not_configured _ _ (Call.channelName c') u now Hcfg).
    cbn [CallController.tokenDb CallController.tokenResponse
         CallController.tokenEmitted CallController.issued].
    split_and!; [done|done|done|done|done|done|].
    by right.
Qed.

(** C6 at its failing inputs.  ann joins hana's call at 1000 and, still in
    it, joins again at 2000: both requests are answered 200 and the second
    appends a second entry, so ann is twice among the active participants.
    ann joins at 1000, leaves at 1500 and joins again at 2000: the entry
    she left stays as it was, inactive, and a new one is appended. *)
Lemma join_appends_second_entry :
  let twice := [ReqJoin [] "ann" None 1000; ReqJoin [] "ann" None 2000] in
  let back := [ReqJoin [] "ann" None 1000; ReqLeave "ann" 1500 1500;
               ReqJoin [] "ann" None 2000] in
  code (serve demoEnv {[ "c1" := demoCall ]} "c1" (ReqJoin [] "ann" None 1000)) = 200
  ∧ code (serve demoEnv
            (serveAll demoEnv {[ "c1" := demoCall ]} "c1" [ReqJoin [] "ann" None 1000])
            "c1" (ReqJoin [] "ann" None 2000)) = 200
  ∧ (∃ c, serveAll demoEnv {[ "c1" := demoCall ]} "c1" twice !! "c1" = Some c
          ∧ userIds c = ["hana"; "ann"; "ann"]
          ∧ activeEntries "ann" c = 2%nat)
  ∧ (∃ c, serveAll demoEnv {[ "c1" := demoCall ]} "c1" back !! "c1" = Some c
          ∧ userIds c = ["hana"; "ann"; "ann"]
          ∧ Participant.isActive <$> Call.participants c = [true; false; true]
          ∧ Participant.joinedAt <$> Call.participants c
            = [Some 0; Some 1000; Some 2000]).
Proof.
  cbn zeta. split_and!; [by vm_compute|by vm_compute| |].
  - eexists. split; [by vm_compute|]. split; by vm_compute.
  - eexists. split; [by vm_compute|]. split_and!; by vm_compute.
Qed.

(** ** Leaving through the controller *)

Lemma leaveCall_found store callId c u t e :
  store !! callId = Some c →
  CallController.leaveCall store callId u t e =
  mkResult (<[callId := (CallController.leaveCallDoc callId c u t e).1]> store)
           (sendSuccessResponse "Left call successfully" NoData)
           (CallController.leaveCallDoc callId c u t e).2.
Proof.
  intros Hc. unfold CallController.leaveCall. rewrite Hc.
  by destruct (CallController.leaveCallDoc callId c u t e).
Qed.

Lemma removeParticipant_fields c u t :
  Call.host (removeParticipant c u t) = Call.host c
  ∧ Call.status (removeParticipant c u t) = Call.status c
  ∧ Call.startedAt (removeParticipant c u t) = Call.startedAt c
  ∧ Call.channelName (removeParticipant c u t) = Call.channelName c.
Proof.
  unfold removeParticipant.
  destruct (list_find _ _) as [[i p]|]; [destruct (Participant.isActive p)|];
    by call_simpl.
Qed.

(** The other users' entries are where they were after the user has been
    removed. *)
Lemma removeParticipant_find_otherActive c u t :
  list_find (otherActive u) (Call.participants (removeParticipant c u t)) =
  list_find (otherActive u) (Call.participants c).
Proof.
  rewrite removeParticipant_participants.
  destruct (list_find (sameUser u) _) as [[i p]|] eqn:Hf; [|done].
  destruct (Participant.isActive p); [|done].
  apply list_find_Some in Hf as (Hi & Hu & _).
  eapply list_find_insert_other; [done| |]; intros [_ Hne]; by apply Hne.
Qed.

Lemma otherActive_counted u (ps : list Participant.t) i p :
  list_find (otherActive u) ps = Some (i, p) →
  (0 < length (filter (λ p, Participant.isActive p = true) ps))%nat.
Proof.
  intros Hf. apply list_find_Some in Hf as (Hi & [Ha _] & _).
  assert (p ∈ filter (λ p, Participant.isActive p = true) ps) as Hin.
  { apply list_elem_of_filter. split; [done|]. by eapply list_elem_of_lookup_2. }
  destruct (filter _ ps); [by apply not_elem_of_nil in Hin|simpl; lia].
Qed.

(** C10.  A leave request on a call that nobody is in ends the call,
    whoever sends it: [removeParticipant] finds nothing to change, the host
    transfer does not run, and the auto-end check that follows every leave
    ends the call and announces it. *)
Theorem leave_on_empty_call_ends_it (store : gmap string Call.t)
    (callId : string) (c : Call.t) (u : string) (tLeave tEnd : Z) :
  store !! callId = Some c →
  Call.status c = Active ∨ Call.status c = Scheduled →
  activeParticipantsCount c = 0 →
  let r := CallController.leaveCall store callId u tLeave tEnd in
  ∃ c', db r !! callId = Some c'
        ∧ Call.status c' = Ended
        ∧ Call.endedAt c' = Some tEnd
        ∧ Call.participants c' = Call.participants c
        ∧ statusCode (response r) = 200
        ∧ emitted r = [mkEmit (Call.channelName c) (UserLeftCall callId u);
                       mkEmit (Call.channelName c)
                              (CallEnded callId None (Some "No active participants"))].
Proof.
  intros Hc _ H0. simpl. rewrite (leaveCall_found _ _ _ _ _ _ Hc). cbn [db response emitted].
  rewrite lookup_insert_eq. eexists. split; [done|].
  assert (settled u c) as Hs.
  { intros i p Hf. apply list_find_Some in Hf as (Hi & _ & _).
    apply activeParticipantsCount_0 in H0. rewrite Forall_lookup in H0. eauto. }
  rewrite leaveCallDoc_snd, leaveCallDoc_fst. cbn zeta.
  rewrite (removeParticipant_settled_noop _ _ _ Hs).
  destruct (transferHost_cases callId (save c) u)
    as [(i & nh & _ & Hn & _)|[_ ->]].
  { revert Hn. autorewrite with call. lia. }
  cbn [fst snd].
  destruct (endIfEmpty_cases callId (save c) tEnd) as [[_ ->]|[Hne _]].
  2: { revert Hne. autorewrite with call. done. }
  cbn [fst snd]. rewrite endCall_status, endCall_endedAt.
  rewrite endCall_participants_inactive by (by autorewrite with call).
  by autorewrite with call.
Qed.

(** C5.  When no active participant remains after a leave, the stored call
    is ended: status [ended], [endedAt] the time of the end, and [duration]
    the whole seconds from [startedAt] to [endedAt]. *)
Theorem last_leave_ends_call (store : gmap string Call.t)
    (callId : string) (c : Call.t) (u : string) (tLeave tEnd s : Z) :
  store !! callId = Some c →
  Call.startedAt c = Some s →
  activeParticipantsCount (removeParticipant c u tLeave) = 0 →
  let r := CallController.leaveCall store callId u tLeave tEnd in
  ∃ c', db r !! callId = Some c'
        ∧ Call.status c' = Ended
        ∧ Call.endedAt c' = Some tEnd
        ∧ Call.duration c' = Some ((tEnd - s) / 1000)
        ∧ activeParticipantsCount c' = 0.
Proof.
  intros Hc Hs H0. simpl. rewrite (leaveCall_found _ _ _ _ _ _ Hc). cbn [db].
  rewrite lookup_insert_eq. eexists. split; [done|].
  rewrite leaveCallDoc_fst.
  destruct (transferHost_cases callId (removeParticipant c u tLeave) u)
    as [(i & nh & _ & Hn & _)|[_ ->]]; [lia|].
  cbn [fst].
  destruct (endIfEmpty_cases callId (removeParticipant c u tLeave) tEnd)
    as [[_ ->]|[Hne _]]; [|done].
  cbn [fst]. rewrite endCall_status, endCall_endedAt.
  split_and!; [done|done| |].
  - apply endCall_duration.
    by destruct (removeParticipant_fields c u tLeave) as (_ & _ & -> & _).
  - apply activeParticipantsCount_0, endCall_all_inactive.
Qed.

Lemma Exists_list_find {A} (P : A → Prop) `{!∀ x, Decision (P x)} (l : list A) :
  Exists P l ↔ ∃ i x, list_find P l = Some (i, x).
Proof.
  split.
  - intros (x & Hx & HP)%Exists_exists.
    destruct (list_find_elem_of P l x Hx HP) as [[i y] Hf]. eauto.
  - intros (i & x & Hf). apply list_find_Some in Hf as (Hi & HP & _).
    apply Exists_exists. exists x. split; [by eapply list_elem_of_lookup_2|done].
Qed.

(** ** Host transfer *)

(** When the host leaves and another active participant remains, the
    stored call has exactly one entry rewritten by the transfer: the first
    remaining active participant in the order of the participant list (the
    code takes element 0 of the filtered list).  That entry gets the role
    [host] and all four permissions, the call's [host] becomes that user,
    the call does not end, and one host-changed event naming that user
    follows the user-left event. *)
Lemma leaveCall_promotes_first_in_list (store : gmap string Call.t)
    (callId : string) (c : Call.t) (u : string) (tLeave tEnd : Z)
    (newHost : Participant.t) :
  store !! callId = Some c →
  Call.host c = u →
  head (filter (otherActive u) (Call.participants c)) = Some newHost →
  let r := CallController.leaveCall store callId u tLeave tEnd in
  let left := Call.participants (removeParticipant c u tLeave) in
  ∃ c' i,
    db r !! callId = Some c'
    ∧ left !! i = Some newHost
    ∧ list_find (otherActive u) left = Some (i, newHost)
    ∧ Call.participants c' = <[i := promote newHost]> left
    ∧ Call.host c' = Participant.userId newHost
    ∧ Participant.userId newHost ≠ u
    ∧ Participant.isActive (promote newHost) = true
    ∧ Participant.role (promote newHost) = RoleHost
    ∧ Participant.permissions (promote newHost) = mkPermissions true true true true
    ∧ Call.status c' = Call.status c
    ∧ emitted r = [mkEmit (Call.channelName c) (UserLeftCall callId u);
                   mkEmit (Call.channelName c)
                          (HostChanged callId (Participant.userId newHost))].
Proof.
  intros Hc Hh Hhead. simpl.
  rewrite head_filter_list_find in Hhead.
  destruct (list_find (otherActive u) (Call.participants c)) as [[i nh]|] eqn:Hf;
    [|done].
  injection Hhead as ->.
  rewrite (leaveCall_found _ _ _ _ _ _ Hc). cbn [db emitted].
  rewrite lookup_insert_eq. eexists _, i. split; [done|].
  rewrite leaveCallDoc_snd, leaveCallDoc_fst. cbn zeta.
  destruct (removeParticipant_fields c u tLeave) as (Hhost & Hstat & _ & Hchan).
  pose proof (removeParticipant_find_otherActive c u tLeave) as Hfind.
  rewrite Hf in Hfind.
  destruct (transferHost_cases callId (removeParticipant c u tLeave) u)
    as [(j & nh & _ & Hn & Hf' & Heq)|[[Hno|[Hno|Hno]] _]].
  2: { congruence. }
  2: { pose proof (otherActive_counted _ _ _ _ Hfind) as Hpos.
       unfold activeParticipantsCount in Hno. lia. }
  2: { congruence. }
  rewrite Hfind in Hf'. injection Hf' as <- <-.
  pose proof (transferHost_activeParticipantsCount callId
                (removeParticipant c u tLeave) u) as Hcount.
  rewrite Heq in *. cbn [fst snd] in *.
  destruct (endIfEmpty_cases callId
              (save (Call.set_participants
                       (<[i := promote newHost]>
                          (Call.participants (removeParticipant c u tLeave)))
                       (Call.set_host (Participant.userId newHost)
                          (removeParticipant c u tLeave)))) tEnd)
    as [[H0 _]|[_ ->]]; [lia|].
  pose proof Hfind as Hfind'.
  apply list_find_Some in Hfind as (Hi & [Hact Hne] & _).
  call_simpl. rewrite Hchan, Hstat. by split_and!.
Qed.

(** *** The order of the entries

    A projection of the entries that [markLeft], [promote] and [setMedia]
    keep is only ever extended at the end, by a join. *)
Section EntryProjection.
Context {A : Type} (f : Participant.t → A).
Hypothesis f_markLeft : ∀ t p, f (markLeft t p) = f p.
Hypothesis f_promote : ∀ p, f (promote p) = f p.
Hypothesis f_setMedia : ∀ patch p, f (setMedia patch p) = f p.

Lemma fmap_insert_same (ps : list Participant.t) i p q :
  ps !! i = Some p → f q = f p → f <$> <[i := q]> ps = f <$> ps.
Proof.
  intros Hi Hq. rewrite list_fmap_insert, Hq.
  apply list_insert_id. by rewrite list_lookup_fmap, Hi.
Qed.

Lemma removeParticipant_proj c u t :
  f <$> Call.participants (removeParticipant c u t) = f <$> Call.participants c.
Proof.
  rewrite removeParticipant_participants.
  destruct (list_find _ _) as [[i p]|] eqn:Hf; [|done].
  destruct (Participant.isActive p); [|done].
  apply list_find_Some in Hf as (Hi & _ & _). by apply (fmap_insert_same _ _ p).
Qed.

Lemma endCall_proj c t :
  f <$> Call.participants (endCall c t) = f <$> Call.participants c.
Proof.
  rewrite endCall_participants, <- list_fmap_compose.
  apply list_fmap_ext. intros i p _. cbn. by destruct (Participant.isActive p).
Qed.

Lemma leaveCallDoc_proj callId c u tLeave tEnd :
  f <$> Call.participants (CallController.leaveCallDoc callId c u tLeave tEnd).1
  = f <$> Call.participants c.
Proof.
  rewrite leaveCallDoc_fst, <- (removeParticipant_proj c u tLeave).
  set (c1 := removeParticipant c u tLeave).
  assert (f <$> Call.participants (CallController.transferHost callId c1 u).1
          = f <$> Call.participants c1) as H2.
  { destruct (transferHost_cases callId c1 u)
      as [(i & nh & _ & _ & Hf & ->)|[_ ->]]; [|done].
    call_simpl. apply list_find_Some in Hf as (Hi & _ & _).
    by apply (fmap_insert_same _ _ nh). }
  rewrite <- H2.
  set (c2 := (CallController.transferHost callId c1 u).1).
  destruct (endIfEmpty_cases callId c2 tEnd) as [[_ ->]|[_ ->]]; [|done].
  apply endCall_proj.
Qed.

Lemma serve_proj env store callId c req :
  store !! callId = Some c →
  ∃ c', after (serve env store callId req) !! callId = Some c'
        ∧ (f <$> Call.participants c' = f <$> Call.participants c
           ∨ ∃ blocked u pw now,
               req = ReqJoin blocked u pw now
               ∧ f <$> Call.participants c' =
                 (f <$> Call.participants c)
                 ++ [f (newParticipant u RoleParticipant noPermissions now)]).
Proof.
  intros Hc.
  assert (∃ c', store !! callId = Some c'
                ∧ (f <$> Call.participants c' = f <$> Call.participants c
                   ∨ ∃ blocked u pw now,
                       req = ReqJoin blocked u pw now
                       ∧ f <$> Call.participants c' =
                         (f <$> Call.participants c)
                         ++ [f (newParticipant u RoleParticipant noPermissions now)]))
    as Hsame by (exists c; split; [done|by left]).
  assert (∀ d, f <$> Call.participants d = f <$> Call.participants c →
               ∃ c', <[callId := d]> store !! callId = Some c'
                 ∧ (f <$> Call.participants c' = f <$> Call.participants c
                    ∨ ∃ blocked u pw now,
                        req = ReqJoin blocked u pw now
                        ∧ f <$> Call.participants c' =
                          (f <$> Call.participants c)
                          ++ [f (newParticipant u RoleParticipant noPermissions now)]))
    as Hkeep.
  { intros d Hd. exists d. rewrite lookup_insert_eq. split; [done|by left]. }
  destruct req as [blocked u pw now|u t e|u now|u ids now|u r now|u text mt now
                   |u patch|u now|admin now];
    cbn [serve ofResult ofOutcome ofToken after].
  - pose proof (joinCall_cases env store blocked callId u pw now c Hc) as Hj.
    cbv zeta in Hj.
    destruct Hj as [(_ & -> & _)|(_ & _ & _ & _ & _ & -> & _)]; [done|].
    eexists. rewrite lookup_insert_eq. split; [done|]. right.
    exists blocked, u, pw, now. split; [done|]. call_simpl. by rewrite fmap_app.
  - rewrite (leaveCall_found _ _ _ _ _ _ Hc). cbn [db].
    apply Hkeep, leaveCallDoc_proj.
  - unfold CallController.endCall. rewrite Hc.
    destruct (_ && _); [done|]. cbn [db]. apply Hkeep, endCall_proj.
  - unfold CallController.inviteToCall. destruct (_ =? 0); [done|].
    rewrite Hc. destruct (list_find _ _) as [[i p]|]; [|done].
    destruct (canInvite _); [|done]. destruct (0 <? _); [|done].
    destruct (mapM _ _); [|done].
    cbn [db]. apply Hkeep. by call_simpl.
  - unfold CallController.respondToInvitation. destruct (negb _); [done|].
    rewrite Hc. destruct (list_find _ _) as [[i inv]|]; [|done].
    cbn [db]. apply Hkeep. by call_simpl.
  - unfold CallController.sendChatMessage. destruct (_ || _); [done|].
    rewrite Hc. destruct (list_find _ _) as [[i p]|]; [|done].
    destruct (negb _); [done|]. unfold addChatMessage.
    destruct (validChatMessage _); [|done].
    cbn [db]. apply Hkeep. by call_simpl.
  - unfold CallController.updateMediaState. rewrite Hc. cbn [CallController.stored].
    apply Hkeep. unfold updateParticipantMedia.
    destruct (list_find _ _) as [[i p]|] eqn:Hf; [|done].
    call_simpl. apply list_find_Some in Hf as (Hi & _ & _).
    by apply (fmap_insert_same _ _ p).
  - unfold AdminController.kickUserFromCall. rewrite Hc. cbn [CallController.stored].
    apply Hkeep, removeParticipant_proj.
  - unfold AdminController.endCall. rewrite Hc.
    destruct (bool_decide _); [done|]. cbn [db]. apply Hkeep, endCall_proj.
Qed.

End EntryProjection.

Lemma StronglySorted_lookup_le (ts : list Z) i j a b :
  StronglySorted Z.le ts → (i ≤ j)%nat → ts !! i = Some a → ts !! j = Some b → a ≤ b.
Proof.
  intros Hs Hij Hi Hj.
  destruct (decide (i = j)) as [->|Hne]; [assert (a = b) by congruence; lia|].
  rewrite <- (take_drop j ts) in Hs.
  apply (StronglySorted_app_1_elem_of _ _ _ a b Hs).
  - apply list_elem_of_lookup. exists i. rewrite lookup_take_lt by lia. done.
  - apply list_elem_of_lookup. exists 0%nat. rewrite lookup_drop, Nat.add_0_r. done.
Qed.

Lemma inJoinOrder_later t t' c : t ≤ t' → inJoinOrder t c → inJoinOrder t' c.
Proof.
  intros Ht (ts & Heq & Hs & Hb). exists ts. split_and!; [done|done|].
  eapply Forall_impl; [done|]. intros a ?. cbn in *. lia.
Qed.

(** The joins of a sequence of requests made in the order of the clock
    keep the entries in the order of their times of joining. *)
Lemma serveAll_inJoinOrder env callId reqs : ∀ store c t,
  store !! callId = Some c → inJoinOrder t c → joinsInOrder t reqs →
  ∃ c' t', serveAll env store callId reqs !! callId = Some c' ∧ inJoinOrder t' c'.
Proof.
  induction reqs as [|req reqs IH]; intros store c t Hc Hord Hclock; [by exists c, t|].
  destruct (serve_proj Participant.joinedAt (λ _ _, eq_refl) (λ _, eq_refl)
              (λ _ _, eq_refl) env store callId c req Hc) as (c1 & Hc1 & Hshape).
  cbn [serveAll foldl]. fold (serveAll env (after (serve env store callId req)) callId reqs).
  destruct Hshape as [Hsame|(blocked & u & pw & now & -> & Happ)].
  - assert (inJoinOrder t c1) as Hord1.
    { destruct Hord as (ts & Heq & Hs & Hb). exists ts. by rewrite Hsame. }
    destruct req; cbn [joinsInOrder] in Hclock;
      try (by apply (IH _ c1 t)).
    destruct Hclock as [Hle Hrest].
    apply (IH _ c1 now); [done| |done]. by apply (inJoinOrder_later t).
  - cbn [joinsInOrder] in Hclock. destruct Hclock as [Hle Hrest].
    apply (IH _ c1 now); [done| |done].
    destruct Hord as (ts & Heq & Hs & Hb). exists (ts ++ [now]). split_and!.
    + rewrite Happ, Heq, fmap_app. done.
    + apply StronglySorted_app_2; [|done|by repeat constructor].
      intros x1 x2 Hx1 ->%list_elem_of_singleton.
      rewrite Forall_forall in Hb. specialize (Hb x1 Hx1). cbn in Hb. lia.
    + apply Forall_app. split; [|by apply Forall_singleton].
      eapply Forall_impl; [done|]. intros a ?. cbn in *. lia.
Qed.

Lemma createCallDoc_participants u user req invitees uuid now :
  Call.participants (CallController.createCallDoc u user req invitees uuid now) =
  [Participant.mk u (Some now) None None RoleHost fullPermissions
     (mkMediaState true true false) Good true].
Proof.
  unfold CallController.createCallDoc, CallController.hostedCall.
  destruct (0 <? _); call_simpl; rewrite addParticipant_participants;
    cbn [CallController.newCall Call.participants list_find app newParticipant
         canInvite canMute canKick canRecord];
    unfold fullPermissions, newParticipant;
    by destruct (CallController.recordingEnabled user).
Qed.

Lemma createCallDoc_inJoinOrder u user req invitees uuid now :
  inJoinOrder now (CallController.createCallDoc u user req invitees uuid now).
Proof.
  exists [now]. rewrite createCallDoc_participants. split_and!; [done| |].
  - by repeat constructor.
  - by apply Forall_singleton.
Qed.

(** In a list in the order of joining, the first entry with a property
    joined no later than any other entry with it. *)
Lemma first_found_joined_earliest t c (P : Participant.t → Prop)
    `{!∀ p, Decision (P p)} i p q :
  inJoinOrder t c →
  list_find P (Call.participants c) = Some (i, p) →
  q ∈ Call.participants c → P q →
  ∃ a b, Participant.joinedAt p = Some a ∧ Participant.joinedAt q = Some b ∧ a ≤ b.
Proof.
  intros (ts & Heq & Hs & _) Hf Hin Hq.
  apply list_find_Some in Hf as (Hi & _ & Hfirst).
  apply list_elem_of_lookup in Hin as [j Hj].
  assert (i ≤ j)%nat as Hij.
  { destruct (decide (i ≤ j)%nat) as [|Hlt]; [done|].
    exfalso. apply (Hfirst j q Hj); [lia|done]. }
  assert ((Participant.joinedAt <$> Call.participants c) !! i
          = Some (Participant.joinedAt p)) as Hpi by (by rewrite list_lookup_fmap, Hi).
  assert ((Participant.joinedAt <$> Call.participants c) !! j
          = Some (Participant.joinedAt q)) as Hqj by (by rewrite list_lookup_fmap, Hj).
  rewrite Heq, list_lookup_fmap in Hpi, Hqj.
  destruct (ts !! i) as [a|] eqn:Ha; [|done].
  destruct (ts !! j) as [b|] eqn:Hb; [|done].
  cbn in Hpi, Hqj. exists a, b. split_and!; [congruence|congruence|].
  by apply (StronglySorted_lookup_le ts i j).
Qed.

(** C1.  Take a call as [createCall] stores it and let any requests
    follow, the joins among them in the order of the clock.  When the host
    then leaves and another user has an active entry, exactly one entry is
    rewritten by the transfer.  It is an active entry of another user, and
    it joined no later than any other active entry of another user: the
    handlers only ever append entries, so the first remaining entry of the
    list, which the code takes, is the earliest.  That entry gets the role
    [host] and all four permissions, the call's [host] becomes its user,
    the call does not end, and one host-changed event naming that user
    follows the user-left event. *)
Theorem host_leave_promotes_earliest_joined (env : Env) (store : gmap string Call.t)
    (callId host : string) (user : CallController.User)
    (req : CallController.CreateRequest) (invited : list string) (uuid : string)
    (t0 : Z) (reqs : list Request) (c : Call.t) (u : string) (tLeave tEnd : Z) :
  store !! callId = Some (CallController.createCallDoc host user req invited uuid t0) →
  joinsInOrder t0 reqs →
  serveAll env store callId reqs !! callId = Some c →
  Call.host c = u →
  Exists (otherActive u) (Call.participants c) →
  let r := CallController.leaveCall (serveAll env store callId reqs) callId u tLeave tEnd in
  let left := Call.participants (removeParticipant c u tLeave) in
  ∃ c' i newHost,
    db r !! callId = Some c'
    ∧ left !! i = Some newHost
    ∧ Participant.isActive newHost = true
    ∧ Participant.userId newHost ≠ u
    ∧ (∀ q, q ∈ left → Participant.isActive q = true → Participant.userId q ≠ u →
            ∃ a b, Participant.joinedAt newHost = Some a
                   ∧ Participant.joinedAt q = Some b ∧ a ≤ b)
    ∧ Call.participants c' = <[i := promote newHost]> left
    ∧ (∀ k, k ≠ i → Call.participants c' !! k = left !! k)
    ∧ (∃ p', Call.participants c' !! i = Some p'
             ∧ Participant.userId p' = Participant.userId newHost
             ∧ Participant.isActive p' = true
             ∧ Participant.role p' = RoleHost
             ∧ Participant.permissions p' = mkPermissions true true true true)
    ∧ Call.host c' = Participant.userId newHost
    ∧ Call.status c' = Call.status c
    ∧ emitted r = [mkEmit (Call.channelName c) (UserLeftCall callId u);
                   mkEmit (Call.channelName c)
                          (HostChanged callId (Participant.userId newHost))].
Proof.
  intros Hc0 Hclock Hc Hh Hex. cbn zeta.
  destruct (serveAll_inJoinOrder env callId reqs store _ t0 Hc0
              (createCallDoc_inJoinOrder _ _ _ _ _ _) Hclock) as (c1 & t1 & Hc1 & Hord).
  rewrite Hc in Hc1. injection Hc1 as <-.
  apply (proj1 (Exists_list_find (otherActive u) _)) in Hex as (i0 & nh & Hf).
  assert (head (filter (otherActive u) (Call.participants c)) = Some nh) as Hhead
    by (by rewrite head_filter_list_find, Hf).
  destruct (leaveCall_promotes_first_in_list _ callId c u tLeave tEnd nh Hc Hh Hhead)
    as (c' & i & Hdb & Hi & Hfind & Hps & Hhost & Hne & Hact & Hrole & Hperm & Hst & Hev).
  assert (inJoinOrder t1 (removeParticipant c u tLeave)) as Hord'.
  { destruct Hord as (ts & Heq & Hs & Hb). exists ts.
    by rewrite (removeParticipant_proj Participant.joinedAt (λ _ _, eq_refl)). }
  pose proof Hfind as Hfound. apply list_find_Some in Hfound as (_ & [Hnact _] & _).
  exists c', i, nh.
  split; [done|]. split; [done|]. split; [done|]. split; [done|].
  split.
  { intros q Hq Hqa Hqu.
    by apply (first_found_joined_earliest t1 _ (otherActive u) i nh q Hord' Hfind Hq). }
  split; [done|]. split.
  { intros k Hk. rewrite Hps. by apply list_lookup_insert_ne. }
  split; [|done].
  exists (promote nh). split; [|done].
  rewrite Hps. apply list_lookup_insert_eq. by eapply lookup_lt_Some.
Qed.

(** ** Admission *)

(** The tests of the status and of the room come before the lock and read
    no participant entry. *)
Lemma canUserJoinOn_not_joinable v c u :
  ¬ joinable c →
  canUserJoinOn v c u = Some (mkJoinCheck false (Some "Call is not active")).
Proof.
  intros Hn. unfold canUserJoinOn, joinable in *.
  repeat case_bool_decide; simpl; tauto.
Qed.

Lemma canUserJoinOn_full v c u :
  joinable c → Call.maxParticipants c ≤ activeParticipantsCount c →
  canUserJoinOn v c u = Some (mkJoinCheck false (Some "Call is full")).
Proof.
  intros Hj Hfull. unfold canUserJoinOn, joinable in *.
  destruct Hj; repeat case_bool_decide; simpl; try done; congruence.
Qed.

Lemma canUserJoinOn_locked users c u :
  entriesResolve users c →
  joinable c → activeParticipantsCount c < Call.maxParticipants c →
  lockRoom (Call.settings c) = true →
  ¬ Exists (acceptedFor u) (Call.invitations c) →
  canUserJoinOn (Populated users) c u = Some (mkJoinCheck false (Some "Room is locked")).
Proof.
  intros Hres Hj Hroom Hlock Hi. rewrite canUserJoinOn_Populated, Hlock.
  rewrite (bool_decide_eq_true_2 (entriesResolve users c)) by done.
  unfold joinable, acceptedFor in *.
  destruct Hj; repeat case_bool_decide; simpl; try done; try lia; congruence.
Qed.

Lemma canUserJoinOn_allowed users c u :
  entriesResolve users c →
  joinable c → activeParticipantsCount c < Call.maxParticipants c →
  (lockRoom (Call.settings c) = true → Exists (acceptedFor u) (Call.invitations c)) →
  canUserJoinOn (Populated users) c u = Some (mkJoinCheck true None).
Proof.
  intros Hres Hj Hroom Hlock. rewrite canUserJoinOn_Populated.
  rewrite (bool_decide_eq_true_2 (entriesResolve users c)) by done.
  unfold joinable, acceptedFor in *.
  destruct (lockRoom (Call.settings c)) eqn:Hl.
  - specialize (Hlock eq_refl). rewrite (bool_decide_eq_true_2 _ Hlock).
    destruct Hj; repeat case_bool_decide; simpl; try done; try lia; congruence.
  - destruct Hj; repeat case_bool_decide; simpl; try done; try lia; congruence.
Qed.

(** The four outcomes are the only ones. *)
Lemma canUserJoinOn_allowed_iff users c u :
  entriesResolve users c →
  canUserJoinOn (Populated users) c u = Some (mkJoinCheck true None) ↔
  joinable c ∧ activeParticipantsCount c < Call.maxParticipants c
  ∧ (lockRoom (Call.settings c) = true → Exists (acceptedFor u) (Call.invitations c)).
Proof.
  intros Hres. split.
  - intros Hcan.
    destruct (decide (joinable c)) as [Hj|Hj].
    2: { by rewrite canUserJoinOn_not_joinable in Hcan. }
    destruct (decide (activeParticipantsCount c < Call.maxParticipants c)) as [Hr|Hr].
    2: { rewrite canUserJoinOn_full in Hcan; [done|done|lia]. }
    split_and!; [done|done|]. intros Hlock.
    destruct (decide (Exists (acceptedFor u) (Call.invitations c))) as [?|Hi]; [done|].
    by rewrite canUserJoinOn_locked in Hcan.
  - intros (Hj & Hr & Hlock). by rewrite canUserJoinOn_allowed.
Qed.





(** ** Worked cases of the leave and join theorems *)

(** ann joins hana's call at 1000 and bob at 2000; hana leaves at 5000 and
    ann, who joined first, becomes the host. *)
Lemma host_leave_promotes_earliest_joined_witness :
  let joins := [ReqJoin [] "ann" None 1000; ReqJoin [] "bob" None 2000] in
  let served := serveAll demoEnv {[ "c1" := demoCall ]} "c1" joins in
  served !! "c1" = Some partyCall
  ∧ Call.host <$> db (CallController.leaveCall served "c1" "hana" 5000 5000) !! "c1"
    = Some "ann"
  ∧ ∃ c' i newHost,
      db (CallController.leaveCall served "c1" "hana" 5000 5000) !! "c1" = Some c'
      ∧ Call.participants (removeParticipant partyCall "hana" 5000) !! i = Some newHost
      ∧ Call.participants c' =
          <[i := promote newHost]>
            (Call.participants (removeParticipant partyCall "hana" 5000))
      ∧ Call.host c' = Participant.userId newHost.
Proof.
  cbn zeta. split; [by vm_compute|]. split; [by vm_compute|].
  destruct (host_leave_promotes_earliest_joined demoEnv {[ "c1" := demoCall ]} "c1"
              "hana" demoUser demoRequest [] "0001" 0
              [ReqJoin [] "ann" None 1000; ReqJoin [] "bob" None 2000]
              partyCall "hana" 5000 5000)
    as (c' & i & newHost & Hdb & Hi & _ & _ & _ & Hps & _ & _ & Hhost & _).
  - by vm_compute.
  - cbn. lia.
  - by vm_compute.
  - by vm_compute.
  - prove_by_computation.
  - exists c', i, newHost. by split_and!.
Defined.

(** hana leaves the call she is alone in, 7.5 seconds after its start. *)
Lemma last_leave_ends_call_witness :
  ∃ c', db (CallController.leaveCall {[ "c1" := demoCall ]} "c1" "hana" 7000 7500)
          !! "c1" = Some c'
        ∧ Call.status c' = Ended
        ∧ Call.endedAt c' = Some 7500
        ∧ Call.duration c' = Some 7.
Proof.
  destruct (last_leave_ends_call {[ "c1" := demoCall ]} "c1" demoCall "hana" 7000 7500 0)
    as (c' & Hdb & Hst & He & Hd & _).
  - by vm_compute.
  - by vm_compute.
  - by vm_compute.
  - exists c'. by split_and!.
Defined.

Lemma leave_on_empty_call_ends_it_witness :
  Call.status desertedCall = Active
  ∧ ¬ Exists (sameUser "zed") (Call.participants desertedCall)
  ∧ ∃ c', db (CallController.leaveCall {[ "c1" := desertedCall ]} "c1" "zed" 2000 2000)
            !! "c1" = Some c'
          ∧ Call.status c' = Ended
          ∧ Call.endedAt c' = Some 2000.
Proof.
  split; [by vm_compute|]. split; [refute_by_computation|].
  destruct (leave_on_empty_call_ends_it {[ "c1" := desertedCall ]} "c1"
              desertedCall "zed" 2000 2000)
    as (c' & Hdb & Hst & He & _).
  - by vm_compute.
  - left. by vm_compute.
  - by vm_compute.
  - exists c'. by split_and!.
Defined.

(** ** Ending a call *)

(** The controller's [endCall] never reads the status: the host's request
    ends the call again. *)
Lemma endCall_by_host_ignores_status store callId c now :
  store !! callId = Some c →
  let r := CallController.endCall store callId (Call.host c) now in
  statusCode (response r) = 200
  ∧ ∃ c', db r !! callId = Some c'
          ∧ Call.status c' = Ended ∧ Call.endedAt c' = Some now.
Proof.
  intros Hc. simpl. unfold CallController.endCall. rewrite Hc.
  rewrite bool_decide_eq_true_2 by done. cbn [negb andb statusCode response db].
  split; [done|]. rewrite lookup_insert_eq. eexists. split; [done|].
  by rewrite endCall_status, endCall_endedAt.
Qed.

(** A user who is neither the host nor a moderator is refused, and nothing
    is written. *)
Lemma endCall_forbidden store callId c u now :
  store !! callId = Some c →
  Call.host c ≠ u →
  (∀ i p, list_find (sameUser u) (Call.participants c) = Some (i, p) →
          Participant.role p ≠ RoleModerator) →
  CallController.endCall store callId u now =
  mkResult store (sendErrorResponse "Only the host or moderator can end the call" 403) [].
Proof.
  intros Hc Hh Hrole. unfold CallController.endCall. rewrite Hc.
  rewrite bool_decide_eq_false_2 by done. cbn [negb andb].
  destruct (list_find _ _) as [[i p]|] eqn:Hf; [|done].
  by rewrite bool_decide_eq_false_2 by eauto.
Qed.

(** C2 at its failing input.  hana ends her call a second time: the request
    succeeds, [endedAt] moves from 1000 to 9000 and the duration from 1 to
    9 seconds.  The administrators' [endCall] refuses the same call with
    "Call already ended" and writes nothing. *)
Lemma endCall_on_ended_call_succeeds :
  let store : gmap string Call.t := {[ "c1" := endedCall ]} in
  let r := CallController.endCall store "c1" "hana" 9000 in
  (Call.status endedCall, Call.host endedCall,
   Call.endedAt endedCall, Call.duration endedCall)
    = (Ended, "hana", Some 1000, Some 1)
  ∧ response r = sendSuccessResponse "Call ended successfully" NoData
  ∧ ((λ c, (Call.status c, Call.endedAt c, Call.duration c)) <$> db r !! "c1")
    = Some (Ended, Some 9000, Some 9)
  ∧ db r ≠ store
  ∧ AdminController.endCall store "c1" "root" 9000
    = mkResult store (sendErrorResponse "Call already ended" 400) [].
Proof.
  split_and!; by vm_compute.
Qed.

(** ** Invitations *)









Lemma createCallDoc_invitations host user req invitees uuid t0 :
  Call.invitations (CallController.createCallDoc host user req invitees uuid t0) =
  CallController.pendingInvitation host t0 <$> invitees.
Proof.
  unfold CallController.createCallDoc, CallController.hostedCall.
  assert (Call.invitations
            (addParticipant (CallController.newCall host user req uuid t0) host RoleHost
               (mkPermissions true true true (CallController.recordingEnabled user)) t0)
          = []) as Hnone.
  { unfold addParticipant. cbn [CallController.newCall Call.participants list_find].
    by call_simpl. }
  set (c1 := addParticipant _ _ _ _ _) in *.
  destruct invitees as [|x ids].
  - change (0 <? Z.of_nat (length (@nil string))) with false. by call_simpl.
  - replace (0 <? Z.of_nat (length (x :: ids))) with true
      by (symmetry; apply Z.ltb_lt; simpl; lia).
    call_simpl. by rewrite Hnone.
Qed.




(** The loop tests each target against the invitations stored before the
    request, not against those it has just collected: a target listed twice
    gets two pending invitations. *)
Example invite_same_target_twice :
  let r := CallController.inviteToCall Some {[ "c1" := demoCall ]} "c1" "hana"
             ["bob"; "bob"] 900 in
  pendingCount "bob" demoCall = 0%nat
  ∧ response r = sendSuccessResponse "Invitations sent successfully" (InvitationsSent 2)
  ∧ (pendingCount "bob" <$> db r !! "c1") = Some 2%nat.
Proof. by vm_compute. Qed.

(** The loop compares the string of the request, the document stores its
    cast: dan, who has a pending invitation, is invited again under another
    spelling of his id, and the notification goes to the room the spelling
    names. *)
Example invite_other_spelling_twice :
  let r := CallController.inviteToCall foldCase {[ "c1" := invitingCall ]} "c1" "hana"
             ["DAN"] 900 in
  pendingCount "dan" invitingCall = 1%nat
  ∧ response r = sendSuccessResponse "Invitations sent successfully" (InvitationsSent 1)
  ∧ (pendingCount "dan" <$> db r !! "c1") = Some 2%nat
  ∧ emitted r = [mkEmit (userRoom "DAN") (CallInvitation "c1" "hana")].
Proof. by vm_compute. Qed.

(** ** Chat *)

Lemma list_find_activeUser_None u (ps : list Participant.t) :
  ¬ Exists (activeUser u) ps → list_find (activeUser u) ps = None.
Proof.
  intros Hn. apply list_find_None, Forall_forall. intros p Hp Ha.
  apply Hn, Exists_exists. eauto.
Qed.

Lemma list_find_activeUser_Some u (ps : list Participant.t) :
  Exists (activeUser u) ps → ∃ i p, list_find (activeUser u) ps = Some (i, p).
Proof.
  intros (p & Hp & Ha)%Exists_exists.
  destruct (list_find_elem_of (activeUser u) ps p Hp Ha) as [[i q] Hf]. eauto.
Qed.

Lemma sendChatMessage_nonempty store callId u text messageType now :
  trim_nonempty text →
  CallController.sendChatMessage store callId u text messageType now =
  match store !! callId with
  | None => mkResult store (sendErrorResponse "Call not found" 404) []
  | Some c =>
      match list_find (activeUser u) (Call.participants c) with
      | None => mkResult store
                  (sendErrorResponse "You are not a participant in this call" 403) []
      | Some _ =>
          if negb (allowChat (Call.settings c))
          then mkResult store (sendErrorResponse "Chat is disabled for this call" 403) []
          else
            match addChatMessage c u (CallController.trim text)
                    (default "text" messageType) now with
            | Saved c' =>
                mkResult (<[callId := c']> store)
                         (sendSuccessResponse "Message sent successfully" NoData)
                         [mkEmit (Call.channelName c')
                                 (NewChatMessage callId u (CallController.trim text)
                                                 (default "text" messageType))]
            | ValidationError =>
                mkResult store (sendErrorResponse "Failed to send message" 500) []
            end
      end
  end.
Proof.
  unfold trim_nonempty. intros Hne. unfold CallController.sendChatMessage.
  assert ((Z.of_nat (length text) =? 0) = false) as ->.
  { apply Z.eqb_neq. destruct text; [done|simpl; lia]. }
  assert ((Z.of_nat (length (CallController.trim text)) =? 0) = false) as ->; [|done].
  apply Z.eqb_neq. destruct (CallController.trim text); [done|simpl; lia].
Qed.

(** C9, as the code has it.  A text that is empty or only white space is
    answered 400 before anything else is looked at.  Otherwise, on a call
    that exists, a sender who is not an active participant, or any sender
    when chat is off, is answered 403.  Otherwise the trimmed text is what
    is appended: if it is longer than 1000 code units the schema rejects the
    save (a ValidationError, which the handler reports as a 500) and the
    stored call is unchanged; if it is at most 1000 code units long and the
    message type is one of the schema's, the message is appended,
    [totalMessages] becomes the previous number of messages plus one, and
    the message is announced. *)
Theorem chat_message_checks (store : gmap string Call.t) (callId u : string)
    (text : jsstring) (messageType : option string) (now : Z) :
  let r := CallController.sendChatMessage store callId u text messageType now in
  (CallController.trim text = [] →
   r = mkResult store (sendErrorResponse "Message cannot be empty" 400) [])
  ∧ (∀ c, CallController.trim text ≠ [] →
          store !! callId = Some c →
          ¬ Exists (λ p, Participant.userId p = u ∧ Participant.isActive p = true)
                   (Call.participants c)
          ∨ allowChat (Call.settings c) = false →
          statusCode (response r) = 403 ∧ db r = store ∧ emitted r = [])
  ∧ (∀ c, CallController.trim text ≠ [] →
          store !! callId = Some c →
          Exists (λ p, Participant.userId p = u ∧ Participant.isActive p = true)
                 (Call.participants c) →
          allowChat (Call.settings c) = true →
          1000 < Z.of_nat (length (CallController.trim text)) →
          addChatMessage c u (CallController.trim text) (default "text" messageType) now
            = ValidationError
          ∧ r = mkResult store (sendErrorResponse "Failed to send message" 500) [])
  ∧ (∀ c, CallController.trim text ≠ [] →
          store !! callId = Some c →
          Exists (λ p, Participant.userId p = u ∧ Participant.isActive p = true)
                 (Call.participants c) →
          allowChat (Call.settings c) = true →
          Z.of_nat (length (CallController.trim text)) ≤ 1000 →
          default "text" messageType ∈ messageTypes →
          ∃ c', r = mkResult (<[callId := c']> store)
                      (sendSuccessResponse "Message sent successfully" NoData)
                      [mkEmit (Call.channelName c)
                              (NewChatMessage callId u (CallController.trim text)
                                              (default "text" messageType))]
                ∧ Call.chatMessages c' =
                    Call.chatMessages c
                    ++ [ChatMessage.mk u (CallController.trim text) now
                                       (default "text" messageType)]
                ∧ totalMessages (Call.analytics c')
                  = Z.of_nat (length (Call.chatMessages c)) + 1
                ∧ (totalMessages (Call.analytics c) = Z.of_nat (length (Call.chatMessages c)) →
                   totalMessages (Call.analytics c') = totalMessages (Call.analytics c) + 1)).
Proof.
  simpl. split_and!.
  - intros Hempty. unfold CallController.sendChatMessage. rewrite Hempty.
    change (Z.of_nat (length (@nil N)) =? 0) with true. by rewrite orb_true_r.
  - intros c Hne Hc Hbad. rewrite sendChatMessage_nonempty, Hc by done.
    destruct Hbad as [Hout|Hoff].
    + by rewrite (list_find_activeUser_None _ _ Hout).
    + destruct (list_find _ _) as [[i p]|]; [|done]. by rewrite Hoff.
  - intros c Hne Hc Hin Hon Hlong. rewrite sendChatMessage_nonempty, Hc by done.
    destruct (list_find_activeUser_Some _ _ Hin) as (i & p & ->).
    rewrite Hon. cbn [negb].
    assert (addChatMessage c u (CallController.trim text) (default "text" messageType) now
            = ValidationError) as ->; [|done].
    unfold addChatMessage, validChatMessage. cbn [ChatMessage.message].
    replace (Z.of_nat (length (CallController.trim text)) <=? 1000) with false
      by (symmetry; apply Z.leb_gt; lia).
    by rewrite andb_false_r.
  - intros c Hne Hc Hin Hon Hshort Htype. rewrite sendChatMessage_nonempty, Hc by done.
    destruct (list_find_activeUser_Some _ _ Hin) as (i & p & ->).
    rewrite Hon. cbn [negb].
    unfold addChatMessage, validChatMessage.
    cbn [ChatMessage.message ChatMessage.messageType].
    replace (Z.of_nat (length (CallController.trim text)) =? 0) with false.
    2: { symmetry. apply Z.eqb_neq. destruct (CallController.trim text); [done|simpl; lia]. }
    replace (Z.of_nat (length (CallController.trim text)) <=? 1000) with true
      by (symmetry; apply Z.leb_le; lia).
    rewrite bool_decide_eq_true_2 by done. cbn [negb andb].
    eexists. split; [by call_simpl|].
    rewrite save_totalMessages. call_simpl.
    rewrite length_app. simpl. split_and!; [done|lia|lia].
Qed.

Lemma chat_message_checks_witness :
  (∃ c', db (CallController.sendChatMessage {[ "c1" := demoCall ]} "c1" "hana"
               text1000 None 600) !! "c1" = Some c'
         ∧ totalMessages (Call.analytics c')
           = totalMessages (Call.analytics demoCall) + 1)
  ∧ CallController.sendChatMessage {[ "c1" := demoCall ]} "c1" "hana" text1001 None 600
    = mkResult {[ "c1" := demoCall ]} (sendErrorResponse "Failed to send message" 500) []
  ∧ statusCode (response (CallController.sendChatMessage {[ "c1" := demoCall ]} "c1" "zed"
                            text1000 None 600)) = 403
  ∧ statusCode (response (CallController.sendChatMessage {[ "c1" := demoCall ]} "c1" "hana"
                            [32%N; 9%N] None 600)) = 400.
Proof.
  split_and!.
  - destruct (chat_message_checks {[ "c1" := demoCall ]} "c1" "hana" text1000 None 600)
      as (_ & _ & _ & Hok).
    destruct (Hok demoCall) as (c' & Hr & _ & _ & Hplus).
    + by vm_compute.
    + by vm_compute.
    + prove_by_computation.
    + by vm_compute.
    + by vm_compute.
    + prove_by_computation.
    + exists c'. split; [|apply Hplus; by vm_compute].
      cbn zeta in Hr. rewrite Hr. cbn [db]. apply lookup_insert_eq.
  - destruct (chat_message_checks {[ "c1" := demoCall ]} "c1" "hana" text1001 None 600)
      as (_ & _ & Hlong & _).
    apply (Hlong demoCall).
    + by vm_compute.
    + by vm_compute.
    + prove_by_computation.
    + by vm_compute.
    + by vm_compute.
  - destruct (chat_message_checks {[ "c1" := demoCall ]} "c1" "zed" text1000 None 600)
      as (_ & Hforbidden & _).
    apply (Hforbidden demoCall).
    + by vm_compute.
    + by vm_compute.
    + left. refute_by_computation.
  - destruct (chat_message_checks {[ "c1" := demoCall ]} "c1" "hana" [32%N; 9%N] None 600)
      as (Hempty & _).
    cbn zeta in Hempty. rewrite Hempty; [done|by vm_compute].
Defined.

(** C9 as stated fails: a text of more than 1000 characters is accepted
    when what remains after trimming has at most 1000. *)
Lemma chat_text_over_1000_accepted :
  ¬ (∀ (store : gmap string Call.t) (callId u : string) (text : jsstring)
       (messageType : option string) (now : Z),
       1000 < Z.of_nat (length text) →
       statusCode (response (CallController.sendChatMessage store callId u text
                               messageType now)) ≠ 200).
Proof.
  intros claim.
  apply (claim {[ "c1" := demoCall ]} "c1" "hana" text1000sp None 600); by vm_compute.
Qed.

(** ** The join-room handler *)

Lemma filter_setAdd_others (u : string) (l : list string) :
  filter (λ v, v ≠ u) (Relay.setAdd u l) = filter (λ v, v ≠ u) l.
Proof.
  unfold Relay.setAdd. case_bool_decide; [done|].
  rewrite filter_app, filter_cons, filter_nil.
  destruct (decide (u ≠ u)); [done|]. by rewrite app_nil_r.
Qed.

Lemma elem_of_setAdd (u : string) (l : list string) : u ∈ Relay.setAdd u l.
Proof. unfold Relay.setAdd. case_bool_decide; [done|]. set_solver. Qed.

Lemma joinRoomState_activeRooms st sock roomId :
  activeRooms_of (Relay.joinRoomState st sock roomId).1 roomId =
  Relay.setAdd (Relay.userId sock) (activeRooms_of st roomId).
Proof.
  unfold activeRooms_of, Relay.joinRoomState. cbn [fst Relay.activeRooms Relay.socketJoin].
  rewrite lookup_insert_eq. cbn [default].
  destruct (Relay.activeRooms st !! roomId) as [s|] eqn:E.
  - by rewrite E.
  - by rewrite lookup_insert_eq.
Qed.

(** C3, as the code has it.  The join-room handler neither reads nor
    writes the session store: whatever the session, it puts the socket in
    the room and the user in the room's subscriber set, sends user-joined to
    every other socket of the room and not to the joiner's, and sends the
    joiner the roster of the other subscribers, each with the connection
    record of that user. *)
Theorem join_room_subscribes_unconditionally (srv : Relay.Server)
    (sock : Relay.Socket) (roomId : string) :
  let srv' := (Relay.joinRoom srv sock roomId).1 in
  let out := (Relay.joinRoom srv sock roomId).2 in
  let before := Relay.relay srv in
  Relay.store srv' = Relay.store srv
  ∧ Relay.subscribed srv' roomId (Relay.userId sock)
  ∧ activeRooms_of (Relay.relay srv') roomId
    = Relay.setAdd (Relay.userId sock) (activeRooms_of before roomId)
  ∧ Relay.socketsIn (Relay.relay srv') roomId
    = {[Relay.id sock]} ∪ Relay.socketsIn before roomId
  ∧ Relay.connectedUsers (Relay.relay srv') = Relay.connectedUsers before
  ∧ out = [Relay.mkDelivery (Relay.socketsIn before roomId ∖ {[Relay.id sock]})
                            (Relay.UserJoined (Relay.userId sock) roomId);
           Relay.mkDelivery {[Relay.id sock]}
             (Relay.RoomParticipants roomId
                ((λ u, (u, Relay.connectedUsers before !! u))
                   <$> filter (λ u, u ≠ Relay.userId sock)
                              (activeRooms_of before roomId)))]
  ∧ Relay.id sock ∉ Relay.socketsIn before roomId ∖ {[Relay.id sock]}.
Proof.
  cbn zeta.
  assert ((Relay.joinRoom srv sock roomId).1 =
          Relay.mkServer (Relay.store srv)
            (Relay.joinRoomState (Relay.relay srv) sock roomId).1) as Hsrv.
  { unfold Relay.joinRoom. by destruct (Relay.joinRoomState _ _ _). }
  assert ((Relay.joinRoom srv sock roomId).2 =
          (Relay.joinRoomState (Relay.relay srv) sock roomId).2) as Hout.
  { unfold Relay.joinRoom. by destruct (Relay.joinRoomState _ _ _). }
  rewrite Hsrv, Hout. cbn [Relay.store Relay.relay].
  pose proof (joinRoomState_activeRooms (Relay.relay srv) sock roomId) as Hrooms.
  split_and!.
  - done.
  - unfold Relay.subscribed. cbn [Relay.relay].
    fold (activeRooms_of (Relay.joinRoomState (Relay.relay srv) sock roomId).1 roomId).
    rewrite Hrooms. apply elem_of_setAdd.
  - done.
  - unfold Relay.joinRoomState, Relay.socketsIn, Relay.socketJoin.
    cbn [fst Relay.rooms]. by rewrite lookup_insert_eq.
  - done.
  - unfold activeRooms_of in Hrooms.
    unfold Relay.joinRoomState in *. cbn [fst snd Relay.activeRooms] in *.
    rewrite Hrooms, filter_setAdd_others.
    unfold Relay.socketTo, Relay.socketsIn, Relay.socketJoin, activeRooms_of.
    cbn [Relay.rooms Relay.connectedUsers]. rewrite lookup_insert_eq. cbn [default].
    do 2 f_equal. apply set_eq. intros x. unfold Relay.socketsIn. simpl.
    rewrite !elem_of_difference, elem_of_union. tauto.
  - rewrite elem_of_difference, elem_of_singleton. tauto.
Qed.

(** C3 as stated fails: a user is subscribed to a room whose session would
    refuse them and never carries them as a participant. *)
Lemma join_room_ignores_session :
  ¬ (∀ (srv : Relay.Server) (sock : Relay.Socket) (roomId : string),
       let srv' := (Relay.joinRoom srv sock roomId).1 in
       Relay.subscribed srv' roomId (Relay.userId sock) →
       ∃ c c', Relay.store srv !! roomId = Some c
               ∧ canJoin (canUserJoin c (Relay.userId sock)) = true
               ∧ Relay.store srv' !! roomId = Some c'
               ∧ Exists (activeUser (Relay.userId sock)) (Call.participants c')).
Proof.
  intros claim.
  destruct (claim endedServer mallory "c1") as (c & c' & Hc & Hcan & _).
  - unfold Relay.subscribed. prove_by_computation.
  - vm_compute in Hc. inversion Hc as [Hc']. subst c. by vm_compute in Hcan.
Qed.


(** * Further properties of the same code *)

(** ** Counting under an in-place update *)

Section CountFacts.
Context {A : Type} (P : A → Prop) `{!∀ x, Decision (P x)}.

Lemma length_filter_insert (l : list A) i x y :
  l !! i = Some x →
  (length (filter P (<[i := y]> l)) + (if decide (P x) then 1 else 0)
   = length (filter P l) + (if decide (P y) then 1 else 0))%nat.
Proof.
  revert i. induction l as [|a l IH]; intros [|i] Hi; simplify_eq/=.
  - rewrite !filter_cons. repeat case_decide; simpl; lia.
  - rewrite !filter_cons. specialize (IH i Hi).
    repeat case_decide; simpl in *; lia.
Qed.
End CountFacts.

(** ** The model's methods, entry by entry *)

(** X1.  Removing a user whose entry is active rewrites that entry alone:
    it becomes inactive, [leftAt] is the time of the removal, [duration] the
    whole seconds since [joinedAt], everything else in it stays; the other
    entries are untouched and the number of active participants goes down
    by exactly one. *)
Theorem removeParticipant_marks_one_entry (c : Call.t) (u : string) (now : Z)
    (i : nat) (p : Participant.t) :
  list_find (sameUser u) (Call.participants c) = Some (i, p) →
  Participant.isActive p = true →
  let c' := removeParticipant c u now in
  (∃ q, Call.participants c' !! i = Some q
        ∧ Participant.userId q = u
        ∧ Participant.isActive q = false
        ∧ Participant.leftAt q = Some now
        ∧ (∀ j, Participant.joinedAt p = Some j →
                Participant.duration q = Some ((now - j) / 1000))
        ∧ Participant.joinedAt q = Participant.joinedAt p
        ∧ Participant.role q = Participant.role p
        ∧ Participant.permissions q = Participant.permissions p
        ∧ Participant.mediaState q = Participant.mediaState p)
  ∧ (∀ k, k ≠ i → Call.participants c' !! k = Call.participants c !! k)
  ∧ length (Call.participants c') = length (Call.participants c)
  ∧ activeParticipantsCount c' = activeParticipantsCount c - 1.
Proof.
  intros Hf Hp. cbn zeta. unfold activeParticipantsCount.
  rewrite removeParticipant_participants, Hf, Hp.
  apply list_find_Some in Hf as (Hi & Hu & _).
  split_and!.
  - exists (markLeft now p). split_and!; try done.
    + apply list_lookup_insert_eq. by eapply lookup_lt_Some.
    + intros j Hj. cbn. by rewrite Hj.
  - intros k Hk. by apply list_lookup_insert_ne.
  - by rewrite length_insert.
  - pose proof (length_filter_insert (λ p, Participant.isActive p = true)
                  (Call.participants c) i p (markLeft now p) Hi) as Hlen.
    rewrite decide_True in Hlen by done.
    rewrite decide_False in Hlen by done. lia.
Qed.

Lemma removeParticipant_marks_one_entry_witness :
  ∃ q, Call.participants (removeParticipant demoCall "hana" 7300) !! 0%nat = Some q
       ∧ Participant.isActive q = false
       ∧ Participant.leftAt q = Some 7300
       ∧ Participant.duration q = Some 7
       ∧ activeParticipantsCount (removeParticipant demoCall "hana" 7300) = 0.
Proof.
  destruct (removeParticipant_marks_one_entry demoCall "hana" 7300 0%nat hanaEntry)
    as ((q & Hq & _ & Ha & Hl & Hd & _) & _ & _ & Hcount).
  - by vm_compute.
  - by vm_compute.
  - exists q. split_and!; [done|done|done|by apply (Hd 0)|].
    rewrite Hcount. by vm_compute.
Defined.

(** X2.  [endCall] leaves nobody active: the status is [ended], [endedAt]
    is the time of the call, every entry that was active is inactive with
    [leftAt] equal to [endedAt] and its duration counted from [joinedAt],
    every entry that was inactive is as it was, and neither the host nor
    the order of the entries changes. *)
Theorem endCall_closes_every_entry (c : Call.t) (now : Z) :
  let c' := endCall c now in
  Call.status c' = Ended
  ∧ Call.endedAt c' = Some now
  ∧ activeParticipantsCount c' = 0
  ∧ Call.host c' = Call.host c
  ∧ userIds c' = userIds c
  ∧ ∀ i p, Call.participants c !! i = Some p →
      ∃ q, Call.participants c' !! i = Some q
           ∧ Participant.isActive q = false
           ∧ (Participant.isActive p = false → q = p)
           ∧ (Participant.isActive p = true →
              Participant.leftAt q = Some now
              ∧ ∀ j, Participant.joinedAt p = Some j →
                     Participant.duration q = Some ((now - j) / 1000)).
Proof.
  cbn zeta. split_and!.
  - apply endCall_status.
  - apply endCall_endedAt.
  - apply activeParticipantsCount_0, endCall_all_inactive.
  - unfold endCall. by call_simpl.
  - unfold userIds. rewrite endCall_participants, <- list_fmap_compose.
    apply list_fmap_ext. intros i p _. simpl. by destruct (Participant.isActive p).
  - intros i p Hi. rewrite endCall_participants, list_lookup_fmap, Hi. simpl.
    eexists. split; [done|].
    destruct (Participant.isActive p) eqn:Hp; split_and!; try done.
    intros _. split; [done|]. intros j Hj. cbn. by rewrite Hj.
Qed.

(** ** Derived analytics and history *)

Lemma save_analyticsOk c : analyticsOk (save c).
Proof.
  unfold analyticsOk, activeParticipantsCount, save, preSave.
  destruct c as [? ? ? ? [] ? [?|] [?|] ? ? ? ? [? ? ?]]; simpl;
    unfold activeParticipantsCount; simpl; lia.
Qed.

Lemma save_maxConcurrent c :
  maxConcurrentParticipants (Call.analytics (save c)) =
  Z.max (maxConcurrentParticipants (Call.analytics c)) (activeParticipantsCount c).
Proof.
  unfold save, preSave.
  by destruct c as [? ? ? ? [] ? [?|] [?|] ? ? ? ? [? ? ?]].
Qed.

Lemma transferHost_saved_or_same callId c u :
  (∃ c0, (CallController.transferHost callId c u).1 = save c0
         ∧ Call.analytics c0 = Call.analytics c)
  ∨ (CallController.transferHost callId c u).1 = c.
Proof.
  destruct (transferHost_cases callId c u) as [(i & nh & _ & _ & _ & ->)|[_ ->]];
    [left|by right].
  eexists. split; [done|]. done.
Qed.

Lemma step_analytics users callId c o :
  (analyticsOk (step users callId c o)
   ∨ ∃ u now, o = Join u now ∧ ¬ entriesResolve users c ∧ step users callId c o = c)
  ∧ maxConcurrentParticipants (Call.analytics c)
    ≤ maxConcurrentParticipants (Call.analytics (step users callId c o)).
Proof.
  assert (∀ c0, Call.analytics c0 = Call.analytics c →
                analyticsOk (save c0)
                ∧ maxConcurrentParticipants (Call.analytics c)
                  ≤ maxConcurrentParticipants (Call.analytics (save c0))) as Hsave.
  { intros c0 H0. split; [apply save_analyticsOk|].
    rewrite save_maxConcurrent, H0. lia. }
  assert (∀ (P : Prop) d, analyticsOk d ∧ maxConcurrentParticipants (Call.analytics c)
                           ≤ maxConcurrentParticipants (Call.analytics d) →
                (analyticsOk d ∨ P)
                ∧ maxConcurrentParticipants (Call.analytics c)
                  ≤ maxConcurrentParticipants (Call.analytics d)) as Hleft.
  { intros P d [? ?]. split; [by left|done]. }
  destruct o as [u r perms now|u now|u t e|u now]; cbn [step].
  - apply Hleft. unfold addParticipant.
    destruct (list_find _ _) as [[i p]|]; [destruct (Participant.isActive p)|];
      by apply Hsave.
  - rewrite addParticipantOn_Populated.
    destruct (bool_decide (entriesResolve users c)) eqn:E; cbn [default from_option id].
    + apply Hleft. by apply Hsave.
    + apply bool_decide_eq_false in E. split; [|lia]. right. by exists u, now.
  - apply Hleft. rewrite leaveCallDoc_fst.
    assert (analyticsOk (removeParticipant c u t)
            ∧ maxConcurrentParticipants (Call.analytics c)
              ≤ maxConcurrentParticipants (Call.analytics (removeParticipant c u t)))
      as [Hok1 Hle1].
    { unfold removeParticipant.
      destruct (list_find _ _) as [[i p]|]; [destruct (Participant.isActive p)|];
        by apply Hsave. }
    set (c1 := removeParticipant c u t) in *.
    assert (analyticsOk (CallController.transferHost callId c1 u).1
            ∧ maxConcurrentParticipants (Call.analytics c)
              ≤ maxConcurrentParticipants
                  (Call.analytics (CallController.transferHost callId c1 u).1))
      as [Hok2 Hle2].
    { destruct (transferHost_saved_or_same callId c1 u) as [(c0 & -> & H0)| ->];
        [|done].
      split; [apply save_analyticsOk|]. rewrite save_maxConcurrent, H0. lia. }
    set (c2 := (CallController.transferHost callId c1 u).1) in *.
    destruct (endIfEmpty_cases callId c2 e) as [[_ ->]|[_ ->]]; [|done].
    cbn [fst]. unfold endCall. split; [apply save_analyticsOk|].
    rewrite save_maxConcurrent. cbn. lia.
  - apply Hleft. unfold removeParticipant.
    destruct (list_find _ _) as [[i p]|]; [destruct (Participant.isActive p)|];
      by apply Hsave.
Qed.

(** X3.  After every operation on the participant list that writes the
    document (the model's [addParticipant], a join through [joinCall], a
    leave, a removal) the derived analytics agree with the document
    ([totalParticipants] is the number of entries, [totalMessages] the
    number of chat messages) and [maxConcurrentParticipants] is at least
    the number of active participants; the one operation that may write
    nothing is a join on a call with an entry whose user is gone, which
    leaves the document as it was.  Along any sequence of these operations
    [maxConcurrentParticipants] never goes down. *)
Theorem analytics_follow_document (users : gset string) (callId : string) (c : Call.t) :
  (∀ o, analyticsOk (step users callId c o)
        ∨ ∃ u now, o = Join u now ∧ ¬ entriesResolve users c
                   ∧ step users callId c o = c)
  ∧ (∀ ops, maxConcurrentParticipants (Call.analytics c)
            ≤ maxConcurrentParticipants (Call.analytics (run users callId c ops)))
  ∧ (∀ ops, analyticsOk c → analyticsOk (run users callId c ops)).
Proof.
  split_and!.
  - intros o. apply step_analytics.
  - intros ops. revert c. induction ops as [|o ops IH]; intros c; [simpl; lia|].
    simpl. etrans; [apply (step_analytics users callId c o)|apply IH].
  - intros ops. revert c. induction ops as [|o ops IH]; intros c Hok; [done|].
    simpl. apply IH.
    destruct (step_analytics users callId c o) as [[?|(u & now & _ & _ & ->)] _]; done.
Qed.

(** ann and bob join hana's call, ann leaves and joins again: four
    entries, three of them active at most at one time. *)
Lemma analytics_follow_document_witness :
  let c := run demoUsers "c1" demoCall
             [Join "ann" 1000; Join "bob" 2000; Leave "ann" 3000 3000; Join "ann" 4000] in
  analyticsOk c
  ∧ totalParticipants (Call.analytics c) = 4
  ∧ maxConcurrentParticipants (Call.analytics c) = 3.
Proof.
  destruct (analytics_follow_document demoUsers "c1" demoCall) as (_ & _ & Hrun).
  cbn zeta. split; [|by vm_compute].
  apply (Hrun [Join "ann" 1000; Join "bob" 2000; Leave "ann" 3000 3000; Join "ann" 4000]).
  unfold analyticsOk. by vm_compute.
Defined.

Lemma step_userIds users callId c o :
  userIds (step users callId c o) = userIds c
  ∨ ∃ u, userIds (step users callId c o) = userIds c ++ [u].
Proof.
  destruct o as [u r perms now|u now|u t e|u now]; cbn [step].
  - unfold userIds. rewrite addParticipant_participants.
    destruct (list_find _ _) as [[i p]|] eqn:Hf.
    + left. destruct (Participant.isActive p); [done|].
      apply list_find_Some in Hf as (Hi & _ & _). by eapply fmap_userId_insert.
    + right. exists u. by rewrite fmap_app.
  - rewrite addParticipantOn_Populated.
    destruct (bool_decide _); cbn [default from_option id]; [|by left].
    right. exists u. unfold userIds. call_simpl. by rewrite fmap_app.
  - left. apply leaveCallDoc_userIds.
  - left. apply removeParticipant_userIds.
Qed.

(** X4.  No operation on the participant list (the model's
    [addParticipant], a join through [joinCall], a leave, a removal) ever
    deletes or moves a participant entry: the users of the entries before a
    sequence of operations are a prefix of the users after it. *)
Theorem entries_are_never_deleted (users : gset string) (callId : string)
    (c : Call.t) (ops : list Op) :
  userIds c `prefix_of` userIds (run users callId c ops)
  ∧ (length (Call.participants c)
     ≤ length (Call.participants (run users callId c ops)))%nat.
Proof.
  assert (userIds c `prefix_of` userIds (run users callId c ops)) as Hpre.
  { revert c. induction ops as [|o ops IH]; intros c; [done|].
    simpl. etrans; [|apply IH].
    destruct (step_userIds users callId c o) as [-> |(u & ->)]; [done|].
    by apply prefix_app_r. }
  split; [done|].
  apply prefix_length in Hpre. unfold userIds in Hpre.
  by rewrite !length_fmap in Hpre.
Qed.

(** ** The formatted duration *)

(** X5.  [formattedDuration] is null exactly for a call without duration
    or with duration 0.  For a positive duration it prints hours, minutes
    and seconds that add up to the duration, with minutes and seconds below
    60, and leaves out the hours when there are none and the minutes when
    there are neither hours nor minutes. *)
Theorem formattedDuration_parts (c : Call.t) :
  (formattedDuration c = None ↔
   Call.duration c = None ∨ Call.duration c = Some 0)
  ∧ (∀ d, Call.duration c = Some d → 0 < d →
       ∃ h m s,
         d = 3600 * h + 60 * m + s
         ∧ 0 ≤ h ∧ 0 ≤ m < 60 ∧ 0 ≤ s < 60
         ∧ formattedDuration c =
           Some (if 0 <? h
                 then pretty h +:+ "h " +:+ pretty m +:+ "m " +:+ pretty s +:+ "s"
                 else if 0 <? m
                 then pretty m +:+ "m " +:+ pretty s +:+ "s"
                 else pretty s +:+ "s")).
Proof.
  unfold formattedDuration. split.
  - destruct (Call.duration c) as [d|]; [|by split; [left|]].
    destruct (d =? 0) eqn:E.
    + apply Z.eqb_eq in E as ->. by split; [right|].
    + apply Z.eqb_neq in E. split.
      * repeat case_match; done.
      * intros [?|[= ?]]; done.
  - intros d -> Hd.
    replace (d =? 0) with false by (symmetry; apply Z.eqb_neq; lia).
    rewrite !Z.rem_mod_nonneg by lia.
    exists (d / 3600), (d mod 3600 / 60), (d mod 60).
    pose proof (Z.div_mod d 3600 ltac:(lia)) as H1.
    pose proof (Z.mod_pos_bound d 3600 ltac:(lia)) as H2.
    pose proof (Z.div_mod (d mod 3600) 60 ltac:(lia)) as H3.
    pose proof (Z.mod_pos_bound (d mod 3600) 60 ltac:(lia)) as H4.
    pose proof (Z.mod_pos_bound d 60 ltac:(lia)) as H5.
    assert ((d mod 3600) mod 60 = d mod 60) as H6.
    { apply Z.mod_mod_divide. by exists 60. }
    assert (0 ≤ d / 3600) by (apply Z.div_pos; lia).
    assert (0 ≤ d mod 3600 / 60 < 60).
    { split; [apply Z.div_pos; lia|].
      apply Z.div_lt_upper_bound; lia. }
    split_and!; try lia.
    by destruct (0 <? d / 3600), (0 <? d mod 3600 / 60).
Qed.

Lemma formattedDuration_parts_witness :
  formattedDuration longCall = Some "1h 2m 5s"
  ∧ ∃ h m s, 3725 = 3600 * h + 60 * m + s ∧ 0 ≤ m < 60 ∧ 0 ≤ s < 60.
Proof.
  split; [by vm_compute|].
  destruct (formattedDuration_parts longCall) as [_ Hparts].
  destruct (Hparts 3725) as (h & m & s & Hd & _ & Hm & Hs & _);
    [by vm_compute|lia|].
  by exists h, m, s.
Defined.

(** ** Media state *)

Lemma updateParticipantMedia_outsider c u patch :
  ¬ Exists (activeUser u) (Call.participants c) →
  updateParticipantMedia c u patch = c.
Proof.
  intros Hn. unfold updateParticipantMedia.
  by rewrite (list_find_activeUser_None _ _ Hn).
Qed.

(** X6.  [updateParticipantMedia] returns the document untouched when the
    user has no active entry.  Otherwise it rewrites the media state of the
    user's active entry only: a field the patch has takes the patch's
    value, a field it lacks keeps its own; nothing else of the entry, no
    other entry and no count changes, and the same patch a second time
    changes nothing more. *)
Theorem updateParticipantMedia_merges (c : Call.t) (u : string) (patch : MediaPatch) :
  (¬ Exists (λ p, Participant.userId p = u ∧ Participant.isActive p = true)
            (Call.participants c) →
   updateParticipantMedia c u patch = c)
  ∧ (∀ i p, list_find (activeUser u) (Call.participants c) = Some (i, p) →
       let c' := updateParticipantMedia c u patch in
       (∃ q, Call.participants c' !! i = Some q
             ∧ audioEnabled (Participant.mediaState q)
               = default (audioEnabled (Participant.mediaState p)) (patchAudio patch)
             ∧ videoEnabled (Participant.mediaState q)
               = default (videoEnabled (Participant.mediaState p)) (patchVideo patch)
             ∧ screenSharing (Participant.mediaState q)
               = default (screenSharing (Participant.mediaState p)) (patchScreen patch)
             ∧ Participant.userId q = Participant.userId p
             ∧ Participant.isActive q = Participant.isActive p
             ∧ Participant.role q = Participant.role p
             ∧ Participant.permissions q = Participant.permissions p
             ∧ Participant.joinedAt q = Participant.joinedAt p
             ∧ Participant.leftAt q = Participant.leftAt p)
       ∧ (∀ k, k ≠ i → Call.participants c' !! k = Call.participants c !! k)
       ∧ activeParticipantsCount c' = activeParticipantsCount c
       ∧ Call.participants (updateParticipantMedia c' u patch) = Call.participants c').
Proof.
  split.
  - apply updateParticipantMedia_outsider.
  - intros i p Hf. cbn zeta.
    assert (Call.participants (updateParticipantMedia c u patch)
            = <[i := setMedia patch p]> (Call.participants c)) as Hps.
    { unfold updateParticipantMedia. rewrite Hf. by call_simpl. }
    pose proof Hf as Hf0.
    apply list_find_Some in Hf as (Hi & Hu & _).
    split_and!.
    + exists (setMedia patch p). split_and!; try done.
      rewrite Hps. apply list_lookup_insert_eq. by eapply lookup_lt_Some.
    + intros k Hk. rewrite Hps. by apply list_lookup_insert_ne.
    + unfold activeParticipantsCount. rewrite Hps. f_equal.
      by eapply active_length_insert.
    + assert (list_find (activeUser u) (Call.participants (updateParticipantMedia c u patch))
              = Some (i, setMedia patch p)) as Hf'.
      { rewrite Hps. by eapply list_find_insert_same. }
      unfold updateParticipantMedia at 1. rewrite Hf'. call_simpl.
      rewrite Hps, list_insert_insert_eq. f_equal.
      unfold setMedia, assignMedia. cbn.
      destruct patch as [[a|] [v|] [sc|]]; done.
Qed.

Lemma updateParticipantMedia_merges_witness :
  ∃ q, Call.participants (updateParticipantMedia demoCall "hana" cameraOff) !! 0%nat
       = Some q
       ∧ Participant.mediaState q = mkMediaState true false false.
Proof.
  destruct (updateParticipantMedia_merges demoCall "hana" cameraOff) as [_ Hin].
  destruct (Hin 0%nat hanaEntry) as ((q & Hq & Ha & Hv & Hs & _) & _);
    [by vm_compute|].
  exists q. split; [done|].
  destruct (Participant.mediaState q). simpl in *. by subst.
Defined.

(** X7.  A media update by a user who is not in the call (or in no call
    entry that is active) changes no stored call, and is answered 200 and
    announced to the call's room all the same. *)
Theorem updateMediaState_of_outsider (store : gmap string Call.t) (callId u : string)
    (c : Call.t) (patch : MediaPatch) :
  store !! callId = Some c →
  ¬ Exists (λ p, Participant.userId p = u ∧ Participant.isActive p = true)
           (Call.participants c) →
  let r := CallController.updateMediaState store callId u patch in
  CallController.stored r = store
  ∧ CallController.reply r = sendSuccessResponse "Media state updated successfully" NoData
  ∧ CallController.sent r =
      [CallController.mkSent (Call.channelName c)
         (CallController.ParticipantMediaUpdated callId u patch)].
Proof.
  intros Hc Hn. cbn zeta. unfold CallController.updateMediaState. rewrite Hc.
  rewrite (updateParticipantMedia_outsider c u patch Hn).
  cbn. split_and!; [|done|done]. by apply insert_id.
Qed.

Lemma updateMediaState_of_outsider_witness :
  let r := CallController.updateMediaState {[ "c1" := demoCall ]} "c1" "zed" cameraOff in
  CallController.stored r = {[ "c1" := demoCall ]}
  ∧ statusCode (CallController.reply r) = 200
  ∧ length (CallController.sent r) = 1%nat.
Proof.
  destruct (updateMediaState_of_outsider {[ "c1" := demoCall ]} "c1" "zed" demoCall cameraOff)
    as (Hs & Hr & He).
  - by vm_compute.
  - refute_by_computation.
  - cbn zeta in *. rewrite Hs, Hr, He. done.
Defined.

(** ** Joining through the controller *)

Lemma addParticipant_count c u r perms t :
  activeParticipantsCount c ≤ activeParticipantsCount (addParticipant c u r perms t)
  ≤ activeParticipantsCount c + 1.
Proof.
  unfold activeParticipantsCount. rewrite addParticipant_participants.
  destruct (list_find _ _) as [[i p]|] eqn:Hf.
  - destruct (Participant.isActive p) eqn:Hp; [lia|].
    apply list_find_Some in Hf as (Hi & _ & _).
    pose proof (length_filter_insert (λ p, Participant.isActive p = true)
                  (Call.participants c) i p (reactivate t p) Hi) as Hlen.
    rewrite decide_False in Hlen by (rewrite Hp; done).
    rewrite decide_True in Hlen by done. lia.
  - rewrite filter_app, length_app, filter_cons, filter_nil.
    rewrite decide_True by done. simpl. lia.
Qed.

Lemma addParticipant_active c u r perms t :
  Exists (activeUser u) (Call.participants (addParticipant c u r perms t)).
Proof.
  rewrite addParticipant_participants. apply Exists_exists.
  destruct (list_find _ _) as [[i p]|] eqn:Hf.
  - apply list_find_Some in Hf as (Hi & Hu & _).
    destruct (Participant.isActive p) eqn:Hp.
    + exists p. split; [by eapply list_elem_of_lookup_2|by split].
    + exists (reactivate t p). split; [|by split].
      apply list_elem_of_lookup. exists i.
      apply list_lookup_insert_eq. by eapply lookup_lt_Some.
  - exists (newParticipant u r perms t). split; [|by split].
    apply elem_of_app. right. by apply list_elem_of_singleton.
Qed.

Lemma addParticipant_fields c u r perms t :
  Call.host (addParticipant c u r perms t) = Call.host c
  ∧ Call.status (addParticipant c u r perms t) = Call.status c
  ∧ Call.maxParticipants (addParticipant c u r perms t) = Call.maxParticipants c
  ∧ Call.channelName (addParticipant c u r perms t) = Call.channelName c
  ∧ Call.settings (addParticipant c u r perms t) = Call.settings c
  ∧ Call.invitations (addParticipant c u r perms t) = Call.invitations c
  ∧ Call.chatMessages (addParticipant c u r perms t) = Call.chatMessages c.
Proof.
  unfold addParticipant.
  destruct (list_find _ _) as [[i p]|]; [destruct (Participant.isActive p)|];
    by call_simpl.
Qed.

(** X8.  Whenever [joinCall] answers 200, the call it stored has the user
    among its active participants and no more active participants than
    [maxParticipants]; the join added at most one, and in fact one. *)
Theorem joinCall_respects_capacity (env : Env) (store : gmap string Call.t)
    (blockedUsers : list string) (callId u : string) (pw : option string) (now : Z) :
  let r := joinCallIn env store blockedUsers callId u pw now in
  statusCode (CallController.tokenResponse r) = 200 →
  ∃ c c', store !! callId = Some c
          ∧ CallController.tokenDb r !! callId = Some c'
          ∧ Exists (λ p, Participant.userId p = u ∧ Participant.isActive p = true)
                   (Call.participants c')
          ∧ activeParticipantsCount c' ≤ Call.maxParticipants c'
          ∧ activeParticipantsCount c ≤ activeParticipantsCount c'
            ≤ activeParticipantsCount c + 1
          ∧ activeParticipantsCount c' = activeParticipantsCount c + 1.
Proof.
  cbn zeta. intros H200.
  destruct (store !! callId) as [c|] eqn:Hc.
  2: { unfold joinCallIn, CallController.joinCall in H200. by rewrite Hc in H200. }
  destruct (joinCall_cases env store blockedUsers callId u pw now c Hc)
    as [(Hno & _)|(Hcan & _ & _ & _ & Hres & Hdb & _)].
  { cbn zeta in Hno. done. }
  cbn zeta in Hdb. rewrite Hdb, lookup_insert_eq.
  eexists c, _. split; [done|]. split; [done|].
  apply canUserJoinOn_allowed_iff in Hcan as (_ & Hroom & _); [|done].
  assert (activeParticipantsCount
            (save (Call.set_participants
                     (Call.participants c
                      ++ [newParticipant u RoleParticipant noPermissions now]) c))
          = activeParticipantsCount c + 1) as Hcount.
  { unfold activeParticipantsCount. call_simpl.
    rewrite filter_app, length_app, filter_cons, filter_nil.
    rewrite decide_True by done. simpl. lia. }
  split.
  { call_simpl. apply Exists_app. right. by apply Exists_cons_hd. }
  rewrite Hcount. split; [call_simpl; lia|]. split; [lia|done].
Qed.

Lemma joinCall_respects_capacity_witness :
  ∃ c', CallController.tokenDb
          (joinCallIn demoEnv {[ "c1" := demoCall ]} [] "c1" "ann" None 1000)
          !! "c1" = Some c'
        ∧ activeParticipantsCount c' = 2
        ∧ activeParticipantsCount c' ≤ Call.maxParticipants c'.
Proof.
  destruct (joinCall_respects_capacity demoEnv {[ "c1" := demoCall ]} [] "c1" "ann"
              None 1000)
    as (c & c' & Hc & Hc' & _ & Hmax & _ & Hcount); [by vm_compute|].
  exists c'. split_and!; [done| |done].
  rewrite Hcount. vm_compute in Hc. inversion Hc as [H]. by vm_compute.
Defined.

(** ** Requests that are turned down *)

(** X9.  A request that is not answered 200 sends no event, and has no
    effect on the store but in one case: a join that passed every check
    stores the call with the new entry before the token is made, and is
    answered 500 when the credentials are not configured.  This holds for
    join, leave, end, invite, respond, chat and media requests and for the
    administrators' kick and end.  [createCall] (answered 201 when it
    succeeds) sends no event and gives no token otherwise, and stores
    nothing but in one case: when a listed id cannot be cast, the call has
    been stored with its host and without invitations, and the answer is
    500. *)
Theorem refused_request_has_no_effect (env : Env) (store : gmap string Call.t)
    (callId : string) :
  (∀ req, code (serve env store callId req) ≠ 200 →
          announced (serve env store callId req) = 0%nat
          ∧ (after (serve env store callId req) = store
             ∨ ∃ blockedUsers u pw now c,
                 req = ReqJoin blockedUsers u pw now
                 ∧ store !! callId = Some c
                 ∧ ¬ configured (credentials env)
                 ∧ code (serve env store callId req) = 500
                 ∧ after (serve env store callId req) =
                   <[callId := save (Call.set_participants
                                       (Call.participants c
                                        ++ [newParticipant u RoleParticipant
                                              noPermissions now]) c)]> store))
  ∧ (∀ isMongoId u user creq uuid now,
       let r := CallController.createCall (tokenBuilder env) (credentials env)
                  (castObjectId env) isMongoId store callId u user creq uuid now in
       statusCode (CallController.tokenResponse r) ≠ 201 →
       CallController.tokenEmitted r = []
       ∧ CallController.issued r = None
       ∧ (CallController.tokenDb r = store
          ∨ (statusCode (CallController.tokenResponse r) = 500
             ∧ mapM (castObjectId env) (CallController.inviteUserIds creq) = None
             ∧ CallController.tokenDb r =
               <[callId := CallController.hostedCall u user creq uuid now]> store))).
Proof.
  split.
  - intros req Hcode.
    destruct req as [blocked u pw now|u t e|u now|u ids now|u r now|u text mt now
                     |u patch|u now|admin now].
    { cbn [serve ofToken after code announced] in *.
      destruct (store !! callId) as [c|] eqn:Hc.
      2: { unfold joinCallIn, CallController.joinCall. rewrite Hc. cbn. by split; [|left]. }
      pose proof (joinCall_cases env store blocked callId u pw now c Hc) as Hj.
      cbv zeta in Hj.
      destruct Hj as [(_ & -> & -> & _)|(_ & _ & _ & _ & _ & Hdb & Hout)];
        [by split; [|left]|].
      destruct Hout as [(_ & H200 & _)|(Hcfg & Hresp & -> & _)]; [done|].
      split; [done|]. right. exists blocked, u, pw, now, c.
      cbn [serve ofToken after code]. rewrite Hresp, Hdb. by split_and!. }
    all: cbn [serve] in *;
      unfold ofResult, ofOutcome,
        CallController.leaveCall, CallController.endCall,
        CallController.inviteToCall, CallController.respondToInvitation,
        CallController.sendChatMessage, CallController.updateMediaState,
        AdminController.kickUserFromCall, AdminController.endCall,
        addChatMessage in *;
      repeat case_match; simpl in *; (split; [done|by left]) || done.
  - intros isMongoId u user creq uuid now. cbn zeta. unfold CallController.createCall.
    assert (∀ resp, statusCode resp ≠ 201 →
              @nil Emit = [] ∧ @None Agora.TokenInfo = None
              ∧ (store = store
                 ∨ statusCode resp = 500
                   ∧ mapM (castObjectId env) (CallController.inviteUserIds creq) = None
                   ∧ store = <[callId := CallController.hostedCall u user creq uuid now]>
                               store)) as Hsame.
    { intros resp _. split; [done|]. split; [done|]. by left. }
    destruct (CallController.validationErrors _ _); [apply Hsame|].
    destruct (negb (CallController.canMakeCall _)); [apply Hsame|].
    destruct (CallController.issueToken _ _ _ _ _) as [tok|]; [|apply Hsame].
    destruct (negb (CallController.schemaValid _)); [apply Hsame|].
    destruct (mapM _ _) as [invitees|] eqn:Hcast; [done|].
    intros _. cbn. split; [done|]. split; [done|]. by right.
Qed.

(** ann's join of an ended call is answered 403 and changes nothing; her
    join of hana's call on a server without credentials is answered 500 and
    leaves her entry in the call. *)
Lemma refused_request_has_no_effect_witness :
  after (serve demoEnv {[ "c1" := endedCall ]} "c1" (ReqJoin [] "ann" None 2000))
  = {[ "c1" := endedCall ]}
  ∧ code (serve demoEnv {[ "c1" := endedCall ]} "c1" (ReqJoin [] "ann" None 2000)) = 403
  ∧ code (serve bareEnv {[ "c1" := demoCall ]} "c1" (ReqJoin [] "ann" None 2000)) = 500
  ∧ (userIds <$> after (serve bareEnv {[ "c1" := demoCall ]} "c1"
                         (ReqJoin [] "ann" None 2000)) !! "c1")
    = Some ["hana"; "ann"].
Proof.
  destruct (refused_request_has_no_effect demoEnv {[ "c1" := endedCall ]} "c1")
    as [Hno _].
  destruct (Hno (ReqJoin [] "ann" None 2000)) as [_ [Hs|Hs]]; [by vm_compute| |].
  - split; [exact Hs|]. split_and!; by vm_compute.
  - exfalso. destruct Hs as (? & ? & ? & ? & ? & _ & _ & _ & H500 & _).
    by vm_compute in H500.
Defined.

(** ** The three kinds of leave *)


(** X10.  A leave on a call that exists is of one of three kinds, which
    exclude one another.  If the leaving user is the host and another
    participant is active, the host is transferred and the call goes on.
    If nobody is active once the user is removed, the call is ended.
    Otherwise the leave is [removeParticipant] and nothing more: the one
    event is user-left-call.  The call is never both handed over and
    ended. *)
Theorem leaveCall_transfers_or_ends (store : gmap string Call.t) (callId : string)
    (c : Call.t) (u : string) (tLeave tEnd : Z) :
  store !! callId = Some c →
  let r := CallController.leaveCall store callId u tLeave tEnd in
  let left := mkEmit (Call.channelName c) (UserLeftCall callId u) in
  let handover :=
    Call.host c = u
    ∧ Exists (λ p, Participant.isActive p = true ∧ Participant.userId p ≠ u)
             (Call.participants c) in
  let deserted := activeParticipantsCount (removeParticipant c u tLeave) = 0 in
  ¬ (handover ∧ deserted)
  ∧ (handover →
     ∃ c' h, db r !! callId = Some c' ∧ Call.host c' = h ∧ h ≠ u
             ∧ Call.status c' = Call.status c
             ∧ emitted r = [left; mkEmit (Call.channelName c) (HostChanged callId h)])
  ∧ (deserted →
     ∃ c', db r !! callId = Some c' ∧ Call.status c' = Ended
           ∧ Call.host c' = Call.host c
           ∧ emitted r = [left; mkEmit (Call.channelName c)
                                  (CallEnded callId None (Some "No active participants"))])
  ∧ (¬ handover → ¬ deserted →
     db r !! callId = Some (removeParticipant c u tLeave) ∧ emitted r = [left]).
Proof.
  intros Hc. cbn zeta.
  rewrite (leaveCall_found _ _ _ _ _ _ Hc). cbn [db emitted].
  rewrite lookup_insert_eq, leaveCallDoc_snd, leaveCallDoc_fst. cbn zeta.
  destruct (removeParticipant_fields c u tLeave) as (Hhost & Hstat & _ & Hchan).
  pose proof (removeParticipant_find_otherActive c u tLeave) as Hfind.
  set (c1 := removeParticipant c u tLeave) in *.
  assert (Exists (otherActive u) (Call.participants c) → activeParticipantsCount c1 ≠ 0)
    as Hpos.
  { intros Hex. apply (proj1 (Exists_list_find _ _)) in Hex as (i & p & Hf).
    rewrite <- Hfind in Hf.
    pose proof (otherActive_counted _ _ _ _ Hf). unfold activeParticipantsCount. lia. }
  split_and!.
  - intros [[_ Hex] H0]. by apply Hpos.
  - intros [Hh Hex]. change (Exists (otherActive u) (Call.participants c)) in Hex.
    destruct (transferHost_cases callId c1 u)
      as [(i & nh & _ & _ & Hf & Heq)|[[Hno|[Hno|Hno]] _]].
    2: { congruence. }
    2: { by apply Hpos in Hex. }
    2: { apply (proj1 (Exists_list_find _ _)) in Hex as (i & p & Hf). congruence. }
    pose proof (transferHost_activeParticipantsCount callId c1 u) as Hcount.
    rewrite Heq in *. cbn [fst snd] in *.
    destruct (endIfEmpty_cases callId
                (save (Call.set_participants
                         (<[i := promote nh]> (Call.participants c1))
                         (Call.set_host (Participant.userId nh) c1))) tEnd)
      as [[H0 _]|[_ ->]].
    { apply Hpos in Hex. lia. }
    apply list_find_Some in Hf as (_ & [_ Hne] & _).
    exists (save (Call.set_participants
                    (<[i := promote nh]> (Call.participants c1))
                    (Call.set_host (Participant.userId nh) c1))),
           (Participant.userId nh).
    call_simpl. rewrite Hchan, Hstat. by split_and!.
  - intros H0.
    destruct (transferHost_cases callId c1 u)
      as [(i & nh & _ & Hn & _)|[_ ->]]; [lia|].
    cbn [fst snd].
    destruct (endIfEmpty_cases callId c1 tEnd) as [[_ ->]|[? _]]; [|done].
    exists (endCall c1 tEnd). cbn [fst snd]. rewrite endCall_status, Hchan.
    split_and!; try done. unfold endCall. call_simpl. done.
  - intros Hnh H0.
    destruct (transferHost_cases callId c1 u)
      as [(i & nh & Hh & _ & Hf & _)|[_ ->]].
    { exfalso. apply Hnh. split; [congruence|].
      rewrite Hfind in Hf. apply (proj2 (Exists_list_find (otherActive u) _)). eauto. }
    cbn [fst snd].
    destruct (endIfEmpty_cases callId c1 tEnd) as [[? _]|[_ ->]]; [done|].
    cbn [fst snd]. by rewrite Hchan.
Qed.

Lemma leaveCall_transfers_or_ends_witness :
  db (CallController.leaveCall {[ "c1" := partyCall ]} "c1" "bob" 5000 5000) !! "c1"
  = Some (removeParticipant partyCall "bob" 5000)
  ∧ length (emitted (CallController.leaveCall {[ "c1" := partyCall ]} "c1" "bob"
                       5000 5000)) = 1%nat.
Proof.
  destruct (leaveCall_transfers_or_ends {[ "c1" := partyCall ]} "c1" partyCall
              "bob" 5000 5000) as (_ & _ & _ & Hplain); [by vm_compute|].
  destruct Hplain as [Hdb Hev].
  - intros [Hh _]. by vm_compute in Hh.
  - by vm_compute.
  - split; [exact Hdb|]. by rewrite Hev.
Defined.

(** ** The host of a call *)

Lemma NoDup_userIds_index (ps : list Participant.t) i j p q :
  NoDup (Participant.userId <$> ps) →
  ps !! i = Some p → ps !! j = Some q →
  Participant.userId p = Participant.userId q → i = j.
Proof.
  intros Hnd Hi Hj Hu.
  eapply (NoDup_lookup _ i j (Participant.userId p) Hnd).
  - by rewrite list_lookup_fmap, Hi.
  - by rewrite list_lookup_fmap, Hj, Hu.
Qed.

Lemma leaveCallDoc_status callId c u t e :
  Call.status c = Ended → Call.status (CallController.leaveCallDoc callId c u t e).1 = Ended.
Proof.
  intros Hs. rewrite leaveCallDoc_fst.
  destruct (endIfEmpty_cases callId
              (CallController.transferHost callId (removeParticipant c u t) u).1 e)
    as [[_ ->]|[_ ->]]; cbn [fst]; [apply endCall_status|].
  destruct (removeParticipant_fields c u t) as (_ & Hst & _).
  destruct (transferHost_cases callId (removeParticipant c u t) u)
    as [(i & nh & _ & _ & _ & ->)|[_ ->]]; call_simpl; congruence.
Qed.

Lemma createCallDoc_host u user req invitees uuid now :
  Call.host (CallController.createCallDoc u user req invitees uuid now) = u.
Proof.
  unfold CallController.createCallDoc, CallController.hostedCall.
  destruct (0 <? _); call_simpl;
    by destruct (addParticipant_fields (CallController.newCall u user req uuid now) u
                   RoleHost
                   (mkPermissions true true true (CallController.recordingEnabled user))
                   now) as (-> & _).
Qed.






(** ** Answering an invitation *)

Lemma pendingCount_0_find u c :
  pendingCount u c = 0%nat ↔
  list_find (CallController.pendingFor u) (Call.invitations c) = None.
Proof.
  unfold pendingCount. rewrite list_find_None. split.
  - intros H0. apply Forall_forall. intros inv Hin Hp.
    assert (inv ∈ filter (CallController.pendingFor u) (Call.invitations c)) as Hf
      by (by apply list_elem_of_filter).
    destruct (filter _ _); [by apply elem_of_nil in Hf|done].
  - intros Hall. destruct (filter _ _) as [|inv invs] eqn:Hf; [done|].
    assert (inv ∈ filter (CallController.pendingFor u) (Call.invitations c)) as Hin
      by (rewrite Hf; left).
    apply list_elem_of_filter in Hin as [Hp Hin].
    rewrite Forall_forall in Hall. by apply Hall in Hin.
Qed.

(** X12.  An invitation is answered once.  With a response of accepted or
    declined, a user without pending invitation is answered 404 and nothing
    is written.  Otherwise the user's first pending invitation, and only
    it, takes the response and the time: the user has one pending
    invitation fewer, every other user as many as before, the inviter is
    told, and no participant entry changes.  A user with a single pending
    invitation who answers a second time is therefore answered 404. *)
Theorem respondToInvitation_answers_once (store : gmap string Call.t)
    (callId : string) (c : Call.t) (u : string) (r : InvitationStatus) (now : Z) :
  store !! callId = Some c →
  r = Accepted ∨ r = Declined →
  let res := CallController.respondToInvitation store callId u r now in
  (pendingCount u c = 0%nat →
   res = mkResult store (sendErrorResponse "No pending invitation found" 404) [])
  ∧ ((0 < pendingCount u c)%nat →
     ∃ c' i inv,
       db res !! callId = Some c'
       ∧ statusCode (response res) = 200
       ∧ list_find (CallController.pendingFor u) (Call.invitations c) = Some (i, inv)
       ∧ Call.invitations c' =
           <[i := Invitation.mk u (Invitation.invitedBy inv) (Invitation.invitedAt inv)
                    r (Some now)]> (Call.invitations c)
       ∧ emitted res = [mkEmit (userRoom (Invitation.invitedBy inv))
                               (InvitationResponse callId u r)]
       ∧ Call.participants c' = Call.participants c
       ∧ (pendingCount u c' = pendingCount u c - 1)%nat
       ∧ (∀ v, v ≠ u → pendingCount v c' = pendingCount v c)
       ∧ (pendingCount u c = 1%nat → ∀ r' now',
            r' = Accepted ∨ r' = Declined →
            CallController.respondToInvitation (db res) callId u r' now' =
            mkResult (db res) (sendErrorResponse "No pending invitation found" 404) [])).
Proof.
  intros Hc Hr. cbn zeta.
  assert (∀ (s : gmap string Call.t) r' now' d,
            r' = Accepted ∨ r' = Declined → s !! callId = Some d →
            CallController.respondToInvitation s callId u r' now' =
            match list_find (CallController.pendingFor u) (Call.invitations d) with
            | None => mkResult s (sendErrorResponse "No pending invitation found" 404) []
            | Some (i, invitation) =>
                mkResult
                  (<[callId := save (Call.set_invitations
                       (<[i := CallController.answer r' now' invitation]>
                          (Call.invitations d)) d)]> s)
                  (sendSuccessResponse
                     ("Invitation " +:+ CallController.statusName r' +:+ " successfully")
                     NoData)
                  [mkEmit (userRoom (Invitation.invitedBy invitation))
                          (InvitationResponse callId u r')]
            end) as Hunfold.
  { intros s r' now' d Hr' Hd. unfold CallController.respondToInvitation.
    rewrite bool_decide_eq_true_2
      by (destruct Hr' as [-> | ->]; [left|right; left]).
    cbn [negb]. by rewrite Hd. }
  rewrite (Hunfold store r now c Hr Hc). split.
  - intros H0. apply pendingCount_0_find in H0. by rewrite H0.
  - intros Hpos.
    destruct (list_find (CallController.pendingFor u) (Call.invitations c))
      as [[i inv]|] eqn:Hf.
    2: { apply pendingCount_0_find in Hf. lia. }
    pose proof Hf as Hf0.
    apply list_find_Some in Hf0 as (Hi & [Hu Hpend] & _).
    set (c' := save (Call.set_invitations
                       (<[i := CallController.answer r now inv]> (Call.invitations c)) c)).
    assert (Call.invitations c'
            = <[i := CallController.answer r now inv]> (Call.invitations c)) as Hinv
      by (subst c'; by call_simpl).
    assert (pendingCount u c' + 1 = pendingCount u c)%nat as Hless.
    { unfold pendingCount. rewrite Hinv.
      pose proof (length_filter_insert (CallController.pendingFor u)
                    (Call.invitations c) i inv (CallController.answer r now inv) Hi)
        as Hlen.
      rewrite decide_True in Hlen by done.
      rewrite decide_False in Hlen.
      2: { intros [_ Hst]. cbn in Hst. destruct Hr as [-> | ->]; done. }
      lia. }
    exists c', i, inv. cbn [db response emitted]. rewrite lookup_insert_eq.
    split_and!; try done.
    + rewrite Hinv. unfold CallController.answer. by rewrite Hu.
    + subst c'. by call_simpl.
    + lia.
    + intros v Hv. unfold pendingCount. rewrite Hinv.
      pose proof (length_filter_insert (CallController.pendingFor v)
                    (Call.invitations c) i inv (CallController.answer r now inv) Hi)
        as Hlen.
      rewrite decide_False in Hlen by (intros [? _]; congruence).
      rewrite decide_False in Hlen by (intros [? _]; cbn in *; congruence).
      lia.
    + intros H1 r' now' Hr'.
      rewrite (Hunfold _ r' now' c' Hr' (lookup_insert_eq _ _ _)).
      assert (pendingCount u c' = 0%nat) as H0 by lia.
      apply pendingCount_0_find in H0. by rewrite H0.
Qed.

Lemma respondToInvitation_answers_once_witness :
  let res := CallController.respondToInvitation {[ "c1" := lockedCall ]} "c1" "ann"
               Accepted 500 in
  statusCode (response res) = 200
  ∧ statusCode (response (CallController.respondToInvitation (db res) "c1" "ann"
                            Declined 600)) = 404.
Proof.
  destruct (respondToInvitation_answers_once {[ "c1" := lockedCall ]} "c1" lockedCall
              "ann" Accepted 500) as [_ Hsome]; [by vm_compute|by left|].
  destruct Hsome as (c' & i & inv & _ & H200 & _ & _ & _ & _ & _ & _ & Hagain);
    [vm_compute; lia|].
  split; [exact H200|].
  cbn zeta in Hagain. rewrite (Hagain ltac:(by vm_compute) Declined 600); [done|by right].
Defined.

(** ** A call that has ended *)

Lemma closed_no_active c u :
  closed c → ¬ Exists (activeUser u) (Call.participants c).
Proof.
  intros [_ H0] (p & Hin & [_ Ha])%Exists_exists.
  apply activeParticipantsCount_0 in H0. rewrite Forall_forall in H0.
  apply H0 in Hin. congruence.
Qed.

Lemma closed_settled c u : closed c → settled u c.
Proof.
  intros [_ H0] i p Hf. apply list_find_Some in Hf as (Hi & _ & _).
  apply activeParticipantsCount_0 in H0. rewrite Forall_lookup in H0. eauto.
Qed.

Lemma closed_save c : closed c → closed (save c).
Proof. unfold closed. by call_simpl. Qed.

Lemma endCall_chatMessages c t :
  Call.chatMessages (endCall c t) = Call.chatMessages c.
Proof. unfold endCall. by call_simpl. Qed.

Lemma serve_closed env store callId c req :
  store !! callId = Some c → closed c →
  ∃ c', after (serve env store callId req) !! callId = Some c'
        ∧ closed c'
        ∧ Call.participants c' = Call.participants c
        ∧ Call.chatMessages c' = Call.chatMessages c.
Proof.
  intros Hc Hcl.
  assert (∃ c', store !! callId = Some c' ∧ closed c'
                ∧ Call.participants c' = Call.participants c
                ∧ Call.chatMessages c' = Call.chatMessages c) as Hsame by eauto.
  assert (∀ d, closed d → Call.participants d = Call.participants c →
               Call.chatMessages d = Call.chatMessages c →
               ∃ c', <[callId := d]> store !! callId = Some c' ∧ closed c'
                     ∧ Call.participants c' = Call.participants c
                     ∧ Call.chatMessages c' = Call.chatMessages c) as Hput.
  { intros d ? ? ?. exists d. by rewrite lookup_insert_eq. }
  pose proof Hcl as [Hst H0].
  destruct req as [blocked u pw now|u t e|u now|u ids now|u r now|u text mt now
                   |u patch|u now|admin now];
    cbn [serve ofResult ofOutcome ofToken after].
  - unfold joinCallIn, CallController.joinCall.
    rewrite Hc, canUserJoinOn_not_joinable; [done|].
    unfold joinable. rewrite Hst. intros [?|?]; done.
  - rewrite (leaveCall_found _ _ _ _ _ _ Hc). cbn [db].
    rewrite leaveCallDoc_fst, (removeParticipant_settled_noop _ _ _ (closed_settled _ u Hcl)).
    destruct (transferHost_cases callId (save c) u)
      as [(i & nh & _ & Hn & _)|[_ ->]].
    { revert Hn. autorewrite with call. lia. }
    cbn [fst].
    destruct (endIfEmpty_cases callId (save c) e) as [[_ ->]|[Hne _]].
    2: { revert Hne. by autorewrite with call. }
    cbn [fst]. apply Hput.
    + split; [apply endCall_status|]. apply activeParticipantsCount_0, endCall_all_inactive.
    + rewrite endCall_participants_inactive by (by autorewrite with call).
      by autorewrite with call.
    + by rewrite endCall_chatMessages; autorewrite with call.
  - unfold CallController.endCall. rewrite Hc.
    destruct (_ && _); [done|]. cbn [db]. apply Hput.
    + split; [apply endCall_status|]. apply activeParticipantsCount_0, endCall_all_inactive.
    + by apply endCall_participants_inactive.
    + by rewrite endCall_chatMessages.
  - unfold CallController.inviteToCall. destruct (_ =? 0); [done|].
    rewrite Hc, (list_find_activeUser_None _ _ (closed_no_active c u Hcl)). done.
  - unfold CallController.respondToInvitation. destruct (negb _); [done|].
    rewrite Hc. destruct (list_find _ _) as [[i inv]|]; [|done].
    cbn [db]. apply Hput; [|by call_simpl..].
    unfold closed, activeParticipantsCount. by call_simpl.
  - unfold CallController.sendChatMessage. destruct (_ || _); [done|].
    rewrite Hc, (list_find_activeUser_None _ _ (closed_no_active c u Hcl)). done.
  - unfold CallController.updateMediaState. rewrite Hc.
    rewrite (updateParticipantMedia_outsider c u patch (closed_no_active c u Hcl)).
    cbn [CallController.stored]. by apply Hput.
  - unfold AdminController.kickUserFromCall. rewrite Hc. cbn [CallController.stored].
    rewrite (removeParticipant_settled_noop _ _ _ (closed_settled _ u Hcl)).
    apply Hput; [by apply closed_save|by call_simpl..].
  - unfold AdminController.endCall. rewrite Hc.
    by rewrite bool_decide_eq_true_2.
Qed.

(** X13.  Once a call has ended with nobody in it, no sequence of join,
    leave, end, invite, respond, chat and media requests, nor the
    administrators' kick and end, brings it back: the call stays ended, no
    participant becomes active, and no participant entry and no chat
    message is added or changed. *)
Theorem closed_call_stays_closed (env : Env) (callId : string) (reqs : list Request)
    (store : gmap string Call.t) (c : Call.t) :
  store !! callId = Some c →
  Call.status c = Ended → activeParticipantsCount c = 0 →
  ∃ c', serveAll env store callId reqs !! callId = Some c'
        ∧ Call.status c' = Ended
        ∧ activeParticipantsCount c' = 0
        ∧ Call.participants c' = Call.participants c
        ∧ Call.chatMessages c' = Call.chatMessages c.
Proof.
  revert store c. induction reqs as [|req reqs IH]; intros store c Hc Hst H0.
  - by exists c.
  - destruct (serve_closed env store callId c req Hc (conj Hst H0))
      as (c1 & Hc1 & [Hst1 H01] & Hps1 & Hcm1).
    destruct (IH _ c1 Hc1 Hst1 H01) as (c' & Hc' & ? & ? & Hps & Hcm).
    exists c'. simpl. split_and!; [done|done|done|congruence|congruence].
Qed.

Lemma closed_call_stays_closed_witness :
  ∃ c', serveAll demoEnv {[ "c1" := endedCall ]} "c1"
          [ReqJoin [] "ann" None 2000; ReqLeave "hana" 3000 3000;
           ReqInvite "hana" ["bob"] 4000; ReqChat "hana" text1000 None 5000]
          !! "c1" = Some c'
        ∧ Call.status c' = Ended
        ∧ Call.participants c' = Call.participants endedCall.
Proof.
  destruct (closed_call_stays_closed demoEnv "c1"
              [ReqJoin [] "ann" None 2000; ReqLeave "hana" 3000 3000;
               ReqInvite "hana" ["bob"] 4000; ReqChat "hana" text1000 None 5000]
              {[ "c1" := endedCall ]} endedCall)
    as (c' & Hc' & Hst & _ & Hps & _); [by vm_compute..|].
  by exists c'.
Defined.

(** ** Roles and permissions *)

(** A property of entries that the writes of the handlers keep is an
    invariant of the call under every request. *)
Section EntryInvariant.
Variable P : Participant.t → Prop.
Hypothesis P_markLeft : ∀ t p, P p → P (markLeft t p).
Hypothesis P_promote : ∀ p, P p → P (promote p).
Hypothesis P_setMedia : ∀ patch p, P p → P (setMedia patch p).
Hypothesis P_joined : ∀ u t, P (newParticipant u RoleParticipant noPermissions t).

Lemma removeParticipant_entries c u t :
  Forall P (Call.participants c) → Forall P (Call.participants (removeParticipant c u t)).
Proof.
  intros Hall. rewrite removeParticipant_participants.
  destruct (list_find _ _) as [[i p]|] eqn:Hf; [|done].
  destruct (Participant.isActive p); [|done].
  apply list_find_Some in Hf as (Hi & _ & _).
  apply Forall_insert; [done|]. apply P_markLeft.
  rewrite Forall_lookup in Hall. eauto.
Qed.

Lemma endCall_entries c t :
  Forall P (Call.participants c) → Forall P (Call.participants (endCall c t)).
Proof.
  intros Hall. rewrite endCall_participants. apply Forall_fmap.
  eapply Forall_impl; [done|]. intros p Hp. cbn.
  destruct (Participant.isActive p); auto.
Qed.

Lemma leaveCallDoc_entries callId c u tLeave tEnd :
  Forall P (Call.participants c) →
  Forall P (Call.participants (CallController.leaveCallDoc callId c u tLeave tEnd).1).
Proof.
  intros Hall. rewrite leaveCallDoc_fst.
  apply (removeParticipant_entries c u tLeave) in Hall.
  set (c1 := removeParticipant c u tLeave) in *.
  assert (Forall P (Call.participants (CallController.transferHost callId c1 u).1)) as H2.
  { destruct (transferHost_cases callId c1 u)
      as [(i & nh & _ & _ & Hf & ->)|[_ ->]]; [|done].
    call_simpl. apply list_find_Some in Hf as (Hi & _ & _).
    apply Forall_insert; [done|]. apply P_promote.
    rewrite Forall_lookup in Hall. eauto. }
  set (c2 := (CallController.transferHost callId c1 u).1) in *.
  destruct (endIfEmpty_cases callId c2 tEnd) as [[_ ->]|[_ ->]]; [|done].
  by apply endCall_entries.
Qed.

Lemma serve_entries env store callId c req :
  store !! callId = Some c → Forall P (Call.participants c) →
  ∃ c', after (serve env store callId req) !! callId = Some c'
        ∧ Forall P (Call.participants c').
Proof.
  intros Hc Hall.
  assert (∃ c', store !! callId = Some c' ∧ Forall P (Call.participants c'))
    as Hsame by eauto.
  assert (∀ d, Forall P (Call.participants d) →
               ∃ c', <[callId := d]> store !! callId = Some c'
                     ∧ Forall P (Call.participants c')) as Hput.
  { intros d ?. exists d. by rewrite lookup_insert_eq. }
  destruct req as [blocked u pw now|u t e|u now|u ids now|u r now|u text mt now
                   |u patch|u now|admin now];
    cbn [serve ofResult ofOutcome ofToken after].
  - pose proof (joinCall_cases env store blocked callId u pw now c Hc) as Hj.
    cbv zeta in Hj.
    destruct Hj as [(_ & -> & _)|(_ & _ & _ & _ & _ & -> & _)]; [done|].
    apply Hput. call_simpl.
    apply Forall_app. split; [done|]. by apply Forall_singleton.
  - rewrite (leaveCall_found _ _ _ _ _ _ Hc). cbn [db].
    by apply Hput, leaveCallDoc_entries.
  - unfold CallController.endCall. rewrite Hc.
    destruct (_ && _); [done|]. cbn [db]. by apply Hput, endCall_entries.
  - unfold CallController.inviteToCall. destruct (_ =? 0); [done|].
    rewrite Hc. destruct (list_find _ _) as [[i p]|]; [|done].
    destruct (canInvite _); [|done]. destruct (0 <? _); [|done].
    destruct (mapM _ _); [|done].
    cbn [db]. apply Hput. by call_simpl.
  - unfold CallController.respondToInvitation. destruct (negb _); [done|].
    rewrite Hc. destruct (list_find _ _) as [[i inv]|]; [|done].
    cbn [db]. apply Hput. by call_simpl.
  - unfold CallController.sendChatMessage. destruct (_ || _); [done|].
    rewrite Hc. destruct (list_find _ _) as [[i p]|]; [|done].
    destruct (negb _); [done|]. unfold addChatMessage.
    destruct (validChatMessage _); [|done].
    cbn [db]. apply Hput. by call_simpl.
  - unfold CallController.updateMediaState. rewrite Hc. cbn [CallController.stored].
    apply Hput. unfold updateParticipantMedia.
    destruct (list_find _ _) as [[i p]|] eqn:Hf; [|done].
    call_simpl. apply list_find_Some in Hf as (Hi & _ & _).
    apply Forall_insert; [done|]. apply P_setMedia.
    rewrite Forall_lookup in Hall. eauto.
  - unfold AdminController.kickUserFromCall. rewrite Hc. cbn [CallController.stored].
    by apply Hput, removeParticipant_entries.
  - unfold AdminController.endCall. rewrite Hc.
    destruct (bool_decide _); [done|]. cbn [db]. by apply Hput, endCall_entries.
Qed.

Lemma serveAll_entries env store callId c reqs :
  store !! callId = Some c → Forall P (Call.participants c) →
  ∃ c', serveAll env store callId reqs !! callId = Some c'
        ∧ Forall P (Call.participants c').
Proof.
  revert store c. induction reqs as [|req reqs IH]; intros store c Hc Hall.
  - by exists c.
  - destruct (serve_entries env store callId c req Hc Hall) as (c1 & Hc1 & Hall1).
    simpl. eauto.
Qed.

End EntryInvariant.

Lemma standardEntry_markLeft t p : standardEntry p → standardEntry (markLeft t p).
Proof. done. Qed.

Lemma standardEntry_promote p : standardEntry p → standardEntry (promote p).
Proof. intros _. by left. Qed.

Lemma standardEntry_setMedia patch p : standardEntry p → standardEntry (setMedia patch p).
Proof. done. Qed.

Lemma standardEntry_joined u t :
  standardEntry (newParticipant u RoleParticipant noPermissions t).
Proof. by right. Qed.

(** The entries of a call made by [createCall] are standard after any
    requests. *)
Lemma created_entries_standard env store callId host user req invited uuid t0 reqs :
  store !! callId = Some (CallController.createCallDoc host user req invited uuid t0) →
  ∃ c, serveAll env store callId reqs !! callId = Some c
       ∧ Forall standardEntry (Call.participants c).
Proof.
  intros Hc.
  apply (serveAll_entries standardEntry standardEntry_markLeft
           standardEntry_promote standardEntry_setMedia standardEntry_joined)
    with (c := CallController.createCallDoc host user req invited uuid t0); [done|].
  rewrite createCallDoc_participants. apply Forall_singleton. by left.
Qed.

(** X14.  Take the document [createCall] stores and let any requests
    follow.  No entry ever has the role moderator, so the moderator clause
    of [endCall] never applies: a user who is not the call's host is
    refused with 403, and nothing is written or announced. *)
Theorem only_host_ends_call (env : Env) (store : gmap string Call.t)
    (callId host : string)
    (user : CallController.User) (req : CallController.CreateRequest)
    (invited : list string)
    (uuid : string) (t0 : Z) (reqs : list Request) (u : string) (now : Z) :
  store !! callId = Some (CallController.createCallDoc host user req invited uuid t0) →
  let store' := serveAll env store callId reqs in
  ∃ c, store' !! callId = Some c
       ∧ Forall (λ p, Participant.role p ≠ RoleModerator) (Call.participants c)
       ∧ (Call.host c ≠ u →
          CallController.endCall store' callId u now =
          mkResult store'
            (sendErrorResponse "Only the host or moderator can end the call" 403) []).
Proof.
  intros Hc0 store'.
  destruct (created_entries_standard env store callId host user req invited uuid t0
              reqs Hc0)
    as (c & Hc & Hall).
  assert (Forall (λ p, Participant.role p ≠ RoleModerator) (Call.participants c)) as Hno.
  { eapply Forall_impl; [done|]. intros p [[-> _]|[-> _]]; done. }
  exists c. split_and!; [done|done|]. intros Hu.
  apply (endCall_forbidden _ _ c); [done|done|].
  intros i p Hf. apply list_find_Some in Hf as (Hi & _ & _).
  rewrite Forall_lookup in Hno. eauto.
Qed.

Lemma only_host_ends_call_witness :
  let store' := serveAll demoEnv {[ "c1" := demoCall ]} "c1"
                  [ReqJoin [] "ann" None 1000; ReqLeave "hana" 2000 2000;
                   ReqJoin [] "hana" None 3000] in
  ∃ c, store' !! "c1" = Some c
       ∧ Call.host c = "ann"
       ∧ statusCode (response (CallController.endCall store' "c1" "hana" 4000)) = 403.
Proof.
  intros store'.
  destruct (only_host_ends_call demoEnv {[ "c1" := demoCall ]} "c1" "hana" demoUser
              demoRequest [] "0001" 0
              [ReqJoin [] "ann" None 1000; ReqLeave "hana" 2000 2000;
               ReqJoin [] "hana" None 3000] "hana" 4000)
    as (c & Hc & _ & H403); [by vm_compute|].
  exists c. split; [exact Hc|].
  assert (Call.host c = "ann") as Hh.
  { revert Hc. vm_compute. intros [= <-]. reflexivity. }
  split; [exact Hh|]. subst store'. rewrite H403; [reflexivity|].
  rewrite Hh. discriminate.
Defined.

(** X15.  Take the document [createCall] stores and let any requests
    follow.  A user whose entry has the role participant (one who came in
    through [joinCall] and was never made host) cannot invite:
    [inviteToCall] answers 403 and writes and announces nothing. *)
Theorem participant_cannot_invite (env : Env) (store : gmap string Call.t)
    (callId host : string)
    (user : CallController.User) (req : CallController.CreateRequest)
    (invited : list string)
    (uuid : string) (t0 : Z) (reqs : list Request) (u : string)
    (userIds : list string) (now : Z) (c : Call.t) (i : nat) (p : Participant.t) :
  store !! callId = Some (CallController.createCallDoc host user req invited uuid t0) →
  let store' := serveAll env store callId reqs in
  store' !! callId = Some c →
  list_find (activeUser u) (Call.participants c) = Some (i, p) →
  Participant.role p = RoleParticipant →
  userIds ≠ [] →
  CallController.inviteToCall (castObjectId env) store' callId u userIds now =
  mkResult store'
    (sendErrorResponse "You do not have permission to invite users" 403) [].
Proof.
  intros Hc0 store' Hc Hf Hrole Hids.
  destruct (created_entries_standard env store callId host user req invited uuid t0
              reqs Hc0)
    as (c' & Hc' & Hall).
  fold store' in Hc'. rewrite Hc in Hc'. injection Hc' as <-.
  unfold CallController.inviteToCall.
  destruct userIds as [|x userIds]; [done|].
  cbn [length]. destruct (Z.of_nat (S _) =? 0) eqn:E; [apply Z.eqb_eq in E; lia|].
  rewrite Hc, Hf. apply list_find_Some in Hf as (Hi & _ & _).
  rewrite Forall_lookup in Hall.
  destruct (Hall i p Hi) as [[Hr _]|[_ ->]]; [congruence|done].
Qed.

Lemma participant_cannot_invite_witness :
  statusCode (response
    (CallController.inviteToCall (castObjectId demoEnv)
       (serveAll demoEnv {[ "c1" := demoCall ]} "c1" [ReqJoin [] "ann" None 1000])
       "c1" "ann" ["bob"] 2000)) = 403.
Proof.
  rewrite (participant_cannot_invite demoEnv {[ "c1" := demoCall ]} "c1" "hana" demoUser
             demoRequest [] "0001" 0
             [ReqJoin [] "ann" None 1000] "ann" ["bob"] 2000
             (addParticipant demoCall "ann" RoleParticipant noPermissions 1000)
             1%nat (newParticipant "ann" RoleParticipant noPermissions 1000));
    [reflexivity|by vm_compute..].
Defined.

(** The document after a leave that hands the call over. *)
Lemma leaveCallDoc_handover callId c u tLeave tEnd j nh :
  Call.host c = u →
  list_find (otherActive u) (Call.participants c) = Some (j, nh) →
  (CallController.leaveCallDoc callId c u tLeave tEnd).1 =
  save (Call.set_participants
          (<[j := promote nh]> (Call.participants (removeParticipant c u tLeave)))
          (Call.set_host (Participant.userId nh) (removeParticipant c u tLeave))).
Proof.
  intros Hh Hj. rewrite leaveCallDoc_fst.
  destruct (removeParticipant_fields c u tLeave) as (Hhost & _).
  rewrite <- (removeParticipant_find_otherActive c u tLeave) in Hj.
  set (c1 := removeParticipant c u tLeave) in *.
  pose proof (otherActive_counted _ _ _ _ Hj) as Hpos.
  destruct (transferHost_cases callId c1 u)
    as [(i & nh' & _ & _ & Hf & ->)|[[Hno|[Hno|Hno]] _]].
  2: { congruence. }
  2: { unfold activeParticipantsCount in Hno. lia. }
  2: { congruence. }
  assert (i = j ∧ nh' = nh) as [-> ->] by (split; congruence).
  cbn [fst].
  destruct (endIfEmpty_cases callId
              (save (Call.set_participants (<[j := promote nh]> (Call.participants c1))
                       (Call.set_host (Participant.userId nh) c1))) tEnd)
    as [[H0 _]|[_ ->]]; [|done].
  exfalso. revert H0. call_simpl. unfold activeParticipantsCount. call_simpl.
  assert (otherActive u (promote nh)) as Hp.
  { apply list_find_Some in Hj as (_ & Hp & _). exact Hp. }
  pose proof (list_find_insert_same (otherActive u) _ _ _ _ Hj Hp) as Hj'.
  pose proof (otherActive_counted _ _ _ _ Hj'). lia.
Qed.

(** X16.  A host who leaves while somebody else is in the call, and then
    joins again, is no longer the host of the call and comes back as a
    participant.  The entry the user had as host stays where it was, marked
    as left; [joinCall] appends a new entry with the role participant and
    no permission, which is the active entry of the user from then on, and
    with it the user's invite requests are refused with 403. *)
Theorem former_host_returns_as_participant (env : Env) (store : gmap string Call.t)
    (callId : string) (c : Call.t) (u : string) (i : nat) (p : Participant.t)
    (tLeave tEnd : Z) (blockedUsers : list string) (pw : option string) (now : Z) :
  store !! callId = Some c →
  Call.host c = u →
  list_find (sameUser u) (Call.participants c) = Some (i, p) →
  Participant.isActive p = true →
  (∀ k q, Call.participants c !! k = Some q → activeUser u q → k = i) →
  Exists (otherActive u) (Call.participants c) →
  let store1 := db (CallController.leaveCall store callId u tLeave tEnd) in
  let r := joinCallIn env store1 blockedUsers callId u pw now in
  statusCode (CallController.tokenResponse r) = 200 →
  ∃ c1 c2,
    store1 !! callId = Some c1
    ∧ CallController.tokenDb r !! callId = Some c2
    ∧ Call.host c2 ≠ u
    ∧ Call.participants c2 =
        Call.participants c1 ++ [newParticipant u RoleParticipant noPermissions now]
    ∧ Call.participants c2 !! i = Some (markLeft tLeave p)
    ∧ list_find (activeUser u) (Call.participants c2)
      = Some (length (Call.participants c1),
              newParticipant u RoleParticipant noPermissions now)
    ∧ ∀ userIds t, userIds ≠ [] →
        CallController.inviteToCall (castObjectId env) (CallController.tokenDb r)
          callId u userIds t
        = mkResult (CallController.tokenDb r)
            (sendErrorResponse "You do not have permission to invite users" 403) [].
Proof.
  intros Hc Hh Hf Ha Hone Hex. cbn zeta.
  rewrite (leaveCall_found _ _ _ _ _ _ Hc). cbn [db]. intros H200.
  apply (proj1 (Exists_list_find (otherActive u) _)) in Hex as (j & nh & Hj).
  rewrite (leaveCallDoc_handover callId c u tLeave tEnd j nh Hh Hj) in *.
  set (c1 := save _) in *.
  assert (<[callId := c1]> store !! callId = Some c1) as Hc1 by apply lookup_insert_eq.
  pose proof (joinCall_cases env _ blockedUsers callId u pw now c1 Hc1) as Hj1.
  cbv zeta in Hj1.
  destruct Hj1 as [(Hno & _)|(_ & _ & _ & _ & _ & Hdb & _)]; [done|].
  rewrite Hdb. clear Hdb H200.
  pose proof Hj as Hj0. apply list_find_Some in Hj0 as (Hjl & [Hnha Hnhu] & _).
  pose proof Hf as Hf0. apply list_find_Some in Hf0 as (Hil & Hpu & _).
  assert (i ≠ j) as Hij.
  { intros ->. unfold sameUser in Hpu. congruence. }
  assert (Call.participants c1 =
          <[j := promote nh]> (<[i := markLeft tLeave p]> (Call.participants c))) as Hps1.
  { unfold c1. call_simpl. by rewrite removeParticipant_participants, Hf, Ha. }
  assert (Call.participants c1 !! i = Some (markLeft tLeave p)) as Hi1.
  { rewrite Hps1, list_lookup_insert_ne by done.
    apply list_lookup_insert_eq. by eapply lookup_lt_Some. }
  assert (∀ k q, Call.participants c1 !! k = Some q → ¬ activeUser u q) as Hnone.
  { intros k q Hk [Hqu Hqa]. rewrite Hps1 in Hk.
    destruct (decide (k = j)) as [->|Hkj].
    { rewrite list_lookup_insert_eq in Hk
        by (rewrite length_insert; by eapply lookup_lt_Some).
      injection Hk as <-. by apply Hnhu. }
    rewrite list_lookup_insert_ne in Hk by done.
    destruct (decide (k = i)) as [->|Hki].
    { rewrite list_lookup_insert_eq in Hk by (by eapply lookup_lt_Some).
      by injection Hk as <-. }
    rewrite list_lookup_insert_ne in Hk by done.
    apply Hki, (Hone k q Hk). by split. }
  assert (list_find (activeUser u)
            (Call.participants c1
             ++ [newParticipant u RoleParticipant noPermissions now])
          = Some (length (Call.participants c1),
                  newParticipant u RoleParticipant noPermissions now)) as Hfind.
  { apply list_find_Some. split_and!.
    - rewrite lookup_app_r by lia. by rewrite Nat.sub_diag.
    - by split.
    - intros k y Hk Hlt. rewrite lookup_app_l in Hk by done. by apply (Hnone k y). }
  eexists c1, _. rewrite !lookup_insert_eq.
  split; [done|]. split; [done|]. call_simpl.
  split. { unfold c1. call_simpl. congruence. }
  split; [done|].
  split. { rewrite lookup_app_l; [done|]. by eapply lookup_lt_Some. }
  split; [done|].
  intros userIds t Hids. unfold CallController.inviteToCall.
  destruct userIds as [|x userIds]; [done|].
  cbn [length]. destruct (Z.of_nat (S _) =? 0) eqn:E; [apply Z.eqb_eq in E; lia|].
  rewrite lookup_insert_eq. call_simpl. by rewrite Hfind.
Qed.

(** hana leaves the call ann and bob are in and joins again. *)
Lemma former_host_returns_as_participant_witness :
  let store1 := db (CallController.leaveCall {[ "c1" := partyCall ]} "c1" "hana"
                      5000 5000) in
  let r := joinCallIn demoEnv store1 [] "c1" "hana" None 6000 in
  ∃ c2, CallController.tokenDb r !! "c1" = Some c2
        ∧ Call.host c2 = "ann"
        ∧ (λ p, (Participant.userId p, Participant.role p, Participant.isActive p))
            <$> Call.participants c2
          = [("hana", RoleHost, false); ("ann", RoleHost, true);
             ("bob", RoleParticipant, true); ("hana", RoleParticipant, true)]
        ∧ statusCode (response (CallController.inviteToCall Some
                                  (CallController.tokenDb r) "c1" "hana" ["carl"] 7000))
          = 403.
Proof.
  cbn zeta.
  destruct (former_host_returns_as_participant demoEnv {[ "c1" := partyCall ]} "c1"
              partyCall "hana" 0%nat hanaEntry 5000 5000 [] None 6000)
    as (c1 & c2 & _ & Hc2 & _ & _ & _ & _ & Hinv).
  - by vm_compute.
  - by vm_compute.
  - by vm_compute.
  - reflexivity.
  - intros k q Hk [Hu Ha].
    destruct k as [|[|[|k]]]; [done|..]; vm_compute in Hk;
      try (injection Hk as <-; by vm_compute in Hu); done.
  - prove_by_computation.
  - by vm_compute.
  - exists c2. split; [exact Hc2|].
    vm_compute in Hc2. inversion Hc2 as [H]. split; [by vm_compute|].
    split; [by vm_compute|]. by vm_compute.
Defined.

(** ** Creating a call *)

Lemma createCallDoc_fields u user req invitees uuid now :
  let c := CallController.createCallDoc u user req invitees uuid now in
  let c0 := CallController.newCall u user req uuid now in
  Call.maxParticipants c = Call.maxParticipants c0
  ∧ Call.status c = Call.status c0
  ∧ Call.settings c = Call.settings c0
  ∧ Call.channelName c = Call.channelName c0.
Proof.
  cbn zeta. unfold CallController.createCallDoc, CallController.hostedCall.
  destruct (addParticipant_fields (CallController.newCall u user req uuid now) u RoleHost
              (mkPermissions true true true (CallController.recordingEnabled user)) now)
    as (_ & Hs & Hm & Hch & Hset & _).
  destruct (0 <? _); call_simpl; by rewrite Hs, Hm, Hch, Hset.
Qed.

(** The ids the validators of the route accept are ids the document can
    store. *)
Lemma validated_ids_cast (cast : string → option string) (isMongoId : string → bool)
    (req : CallController.CreateRequest) :
  (∀ x, isMongoId x = true → is_Some (cast x)) →
  CallController.validationErrors isMongoId req = false →
  is_Some (mapM cast (CallController.inviteUserIds req)).
Proof.
  intros Hcast Hval. unfold CallController.validationErrors in Hval.
  apply orb_false_iff in Hval as [_ Hids]. apply negb_false_iff in Hids.
  apply mapM_is_Some, Forall_forall. intros x Hx. cbn.
  apply Hcast. rewrite forallb_forall in Hids. apply Hids.
  by apply list_elem_of_In.
Qed.

(** X17.  [createCall] either answers 201 or, when every id that
    [isMongoId] accepts can be cast to an ObjectId, leaves the store alone
    and announces nothing.  On 201 the stored call has the user as host and
    as its one participant, active, with the role host and every
    permission (also the permission to record when the plan has no
    recording); the participant limit is within the schema's 2..1000 and
    within the plan; recording and screen sharing are on only if the plan
    has them; the call is scheduled exactly when the request gives a time,
    and active otherwise; every listed user, repeated or not, gets a
    pending invitation, stored under the cast of the id, and a
    notification. *)
Theorem createCall_document (env : Env) (isMongoId : string → bool)
    (store : gmap string Call.t) (callId u : string)
    (user : CallController.User) (req : CallController.CreateRequest)
    (uuid : string) (now : Z) :
  let r := CallController.createCall (tokenBuilder env) (credentials env)
             (castObjectId env) isMongoId store callId u user req uuid now in
  ((∀ x, isMongoId x = true → is_Some (castObjectId env x)) →
   statusCode (CallController.tokenResponse r) ≠ 201 →
   CallController.tokenDb r = store ∧ CallController.tokenEmitted r = [])
  ∧ (statusCode (CallController.tokenResponse r) = 201 →
     ∃ c invitees,
       CallController.tokenDb r !! callId = Some c
       ∧ Call.host c = u
       ∧ Call.participants c =
           [Participant.mk u (Some now) None None RoleHost fullPermissions
              (mkMediaState true true false) Good true]
       ∧ 2 ≤ Call.maxParticipants c ≤ 1000
       ∧ Call.maxParticipants c ≤ CallController.featMaxParticipants user
       ∧ (allowRecording (Call.settings c) = true →
          CallController.recordingEnabled user = true)
       ∧ (allowScreenShare (Call.settings c) = true →
          CallController.screenSharingEnabled user = true)
       ∧ Call.status c = match CallController.reqScheduledFor req with
                       | Some _ => Scheduled
                       | None => Active
                       end
       ∧ mapM (castObjectId env) (CallController.inviteUserIds req) = Some invitees
       ∧ Call.invitations c = CallController.pendingInvitation u now <$> invitees
       ∧ CallController.tokenEmitted r =
           (λ v, mkEmit (userRoom v) (CallInvitation callId u))
             <$> CallController.inviteUserIds req).
Proof.
  cbn zeta. unfold CallController.createCall.
  destruct (CallController.validationErrors isMongoId req) eqn:Hval; [by split|].
  destruct (negb (CallController.canMakeCall _)); [by split|].
  destruct (CallController.issueToken _ _ _ _ _) as [tok|]; [|by split].
  destruct (negb (CallController.schemaValid _)) eqn:Hschema; [by split|].
  destruct (mapM _ _) as [invitees|] eqn:Hcast.
  2: { split; [|done]. intros Hcoh _.
       destruct (validated_ids_cast _ _ _ Hcoh Hval) as [? Hsome]. congruence. }
  cbn [CallController.tokenDb CallController.tokenEmitted CallController.tokenResponse
       statusCode].
  split; [done|]. intros _.
  exists (CallController.createCallDoc u user req invitees uuid now), invitees.
  destruct (createCallDoc_fields u user req invitees uuid now) as (Hm & Hs & Hset & _).
  rewrite lookup_insert_eq, createCallDoc_host, createCallDoc_participants,
    createCallDoc_invitations, Hm, Hs, Hset.
  apply negb_false_iff in Hschema. unfold CallController.schemaValid in Hschema.
  apply andb_true_iff in Hschema as [H2%Z.leb_le H1000%Z.leb_le].
  split; [done|]. split; [done|]. split; [done|]. split; [done|].
  cbn [CallController.newCall Call.maxParticipants Call.status Call.settings
       allowRecording allowScreenShare].
  split; [lia|].
  split; [by intros [_ ?]%andb_true_iff|].
  split; [by intros [_ ?]%andb_true_iff|].
  done.
Qed.

Lemma createCall_document_witness :
  ∃ c, CallController.tokenDb
         (CallController.createCall demoBuilder demoConfig Some (λ _, true)
            ∅ "c1" "hana" demoUser inviteRequest "0001" 0)
         !! "c1" = Some c
       ∧ Call.host c = "hana"
       ∧ Call.maxParticipants c = 50
       ∧ length (Call.invitations c) = 1%nat.
Proof.
  destruct (createCall_document demoEnv (λ _, true) ∅ "c1" "hana" demoUser inviteRequest
              "0001" 0)
    as [_ H].
  destruct H as (c & invitees & Hc & Hh & _ & _ & _ & _ & _ & _ & Hcast & Hinv & _);
    [by vm_compute|].
  exists c. split_and!; [exact Hc|exact Hh| |].
  - revert Hc. vm_compute. by intros [= <-].
  - rewrite Hinv. vm_compute in Hcast. by injection Hcast as <-.
Defined.

(** ** Media credentials *)

Lemma toInt32_range x : - 2 ^ 31 ≤ Agora.toInt32 x < 2 ^ 31.
Proof.
  unfold Agora.toInt32.
  pose proof (Z.mod_pos_bound (x + 2 ^ 31) (2 ^ 32) ltac:(lia)). lia.
Qed.

Lemma toInt32_congr x y :
  x mod 2 ^ 32 = y mod 2 ^ 32 → Agora.toInt32 x = Agora.toInt32 y.
Proof.
  intros H. unfold Agora.toInt32. f_equal.
  by rewrite (Z.add_mod x), H, <- Z.add_mod.
Qed.

Lemma toInt32_mod x : Agora.toInt32 x mod 2 ^ 32 = x mod 2 ^ 32.
Proof.
  unfold Agora.toInt32.
  rewrite Zminus_mod_idemp_l. f_equal. lia.
Qed.

Lemma hashStep_poly h H char :
  h mod 2 ^ 32 = H mod 2 ^ 32 →
  Agora.hashStep h char = Agora.toInt32 (31 * H + Z.of_N char).
Proof.
  intros Hh. unfold Agora.hashStep. apply toInt32_congr.
  rewrite Z.add_mod, Zminus_mod, toInt32_mod by lia.
  rewrite (Z.mul_mod (Agora.toInt32 h)), toInt32_mod, Hh by lia.
  rewrite <- Z.mul_mod, <- Zminus_mod, <- Z.add_mod by lia.
  f_equal. lia.
Qed.

Lemma hash_poly31 str :
  length str ≠ 0%nat →
  foldl Agora.hashStep 0 str = Agora.toInt32 (poly31 str).
Proof.
  unfold poly31. induction str as [|char str IH] using rev_ind; [done|]. intros _.
  rewrite !foldl_app. cbn [foldl]. apply hashStep_poly.
  destruct str as [|c0 str0]; [done|]. rewrite IH by done. apply toInt32_mod.
Qed.

(** X18.  [generateUidFromString] gives 0 for the empty string and for no
    other; for any other string the uid is one more than the absolute
    value of the 32-bit polynomial hash with multiplier 31 of its code
    units.  The uid never exceeds 2^31 + 1, so the reduction modulo
    2^32 - 1 changes nothing and the upper half of the range the comment
    names is never reached. *)
Theorem generateUidFromString_range (str : jsstring) :
  Agora.generateUidFromString str =
    (if decide (str = []) then 0 else Z.abs (Agora.toInt32 (poly31 str)) + 1)
  ∧ 0 ≤ Agora.generateUidFromString str ≤ 2 ^ 31 + 1
  ∧ (Agora.generateUidFromString str = 0 ↔ str = []).
Proof.
  unfold Agora.generateUidFromString.
  destruct str as [|char str]; [done|].
  destruct (decide _) as [|_]; [done|].
  replace (Z.of_nat (length (char :: str)) =? 0) with false
    by (symmetry; apply Z.eqb_neq; simpl; lia).
  rewrite hash_poly31 by done.
  pose proof (toInt32_range (poly31 (char :: str))).
  rewrite Z.mod_small by lia.
  split_and!; [done|lia|lia|]. split; [lia|done].
Qed.

(** X19.  [getAgoraToken] never writes to the store and announces
    nothing.  It answers 200 exactly when both credentials are configured,
    the call exists and the user has an active entry in it.  The token it
    then issues is a publisher token for the call's channel and the uid
    derived from the user id, it expires 3600 seconds after the request,
    and at the time of the request it is not expired and has 3600 seconds
    left. *)
Theorem getAgoraToken_grants
    (build : string → string → string → Z → Agora.RtcRole → Z → string)
    (cfg : Agora.Config) (store : gmap string Call.t) (callId u : string) (now : Z) :
  let r := CallController.getAgoraToken build cfg store callId u now in
  CallController.tokenDb r = store
  ∧ CallController.tokenEmitted r = []
  ∧ (statusCode (CallController.tokenResponse r) = 200 ↔
     configured cfg
     ∧ ∃ c, store !! callId = Some c ∧ Exists (activeUser u) (Call.participants c))
  ∧ (statusCode (CallController.tokenResponse r) = 200 ↔ is_Some (CallController.issued r))
  ∧ ∀ tok, CallController.issued r = Some tok →
      (∃ c, store !! callId = Some c ∧ Agora.channelName tok = Call.channelName c)
      ∧ Agora.uid tok = Agora.generateUidFromString (Agora.codeUnits u)
      ∧ Agora.role tok = Agora.PUBLISHER
      ∧ Agora.expiryTimestamp tok = now / 1000 + 3600
      ∧ Agora.isTokenExpired (Agora.expiryTimestamp tok) now = false
      ∧ Agora.getTokenTimeRemaining (Agora.expiryTimestamp tok) now = 3600.
Proof.
  cbn zeta. unfold CallController.getAgoraToken.
  destruct (store !! callId) as [c|] eqn:Hc.
  2: { cbn. split_and!; try done; (split; [done|]);
         first [by intros (_ & c & ? & _) | by intros [? ?]]. }
  destruct (list_find (activeUser u) (Call.participants c)) as [[i p]|] eqn:Hf.
  2: { assert (¬ Exists (activeUser u) (Call.participants c)) as Hno.
       { intros Hex.
         apply (proj1 (Exists_list_find (activeUser u) _)) in Hex as (? & ? & ?).
         congruence. }
       cbn. split_and!; try done; (split; [done|]);
         first [by intros (_ & c' & [= <-] & Hex) | by intros [? ?]]. }
  assert (Exists (activeUser u) (Call.participants c)) as Hex.
  { apply (proj2 (Exists_list_find (activeUser u) _)). eauto. }
  destruct (configured_dec cfg) as [Hcfg|Hcfg].
  - destruct (issueToken_configured build cfg (Call.channelName c) u now Hcfg)
      as (tok & -> & Hch & Huid & Hrole & Hts & _).
    cbn. split_and!; [done|done| | |].
    + split; [|done]. intros _. split; [done|]. by exists c.
    + split; [by eexists|done].
    + intros tok' [= <-]. rewrite Hts.
      unfold Agora.isTokenExpired, Agora.getTokenTimeRemaining.
      split_and!; [by exists c|done|done|done|apply Z.leb_gt; lia|lia].
  - rewrite (issueToken_not_configured build cfg _ u now Hcfg).
    cbn. split_and!; try done; (split; [done|]);
      first [by intros [? _] | by intros [? ?]].
Qed.

Lemma getAgoraToken_grants_witness :
  let r := CallController.getAgoraToken demoBuilder demoConfig {[ "c1" := demoCall ]}
             "c1" "hana" 5000 in
  statusCode (CallController.tokenResponse r) = 200
  ∧ ∃ tok, CallController.issued r = Some tok
           ∧ Agora.expiryTimestamp tok = 3605
           ∧ Agora.isTokenExpired (Agora.expiryTimestamp tok) 5000 = false.
Proof.
  intros r.
  destruct (getAgoraToken_grants demoBuilder demoConfig {[ "c1" := demoCall ]}
              "c1" "hana" 5000) as (_ & _ & H200 & Htok & Hprops).
  assert (statusCode (CallController.tokenResponse r) = 200) as Hok.
  { apply H200. split; [by vm_compute|]. exists demoCall. split; [by vm_compute|].
    apply (bool_decide_unpack (Exists (activeUser "hana") (Call.participants demoCall))).
    vm_compute. exact I. }
  split; [exact Hok|].
  destruct (proj1 Htok Hok) as [tok Hissued].
  destruct (Hprops tok Hissued) as (_ & _ & _ & Hts & Hex & _).
  exists tok. split_and!; [exact Hissued|exact Hts|exact Hex].
Defined.

(** X20.  [joinCall] and its token.  A join that passes every check stores
    the call with the new entry whether or not a token can be made.  With
    the credentials configured it is answered 200, announced to the call's
    channel, and carries a token for that channel and the uid of the user.
    Without them it is answered 500 and announced to nobody, although the
    participant has been stored.  A join that fails a check is answered
    something else than 200, stores nothing, announces nothing and carries
    no token. *)
Theorem joinCall_stores_before_token (env : Env) (store : gmap string Call.t)
    (blockedUsers : list string) (callId u : string) (pw : option string) (now : Z)
    (c : Call.t) :
  store !! callId = Some c →
  let r := joinCallIn env store blockedUsers callId u pw now in
  let c' := save (Call.set_participants
                    (Call.participants c
                     ++ [newParticipant u RoleParticipant noPermissions now]) c) in
  let admitted :=
    canUserJoinOn (Populated (users env)) c u = Some (mkJoinCheck true None)
    ∧ (requirePassword (Call.settings c) = true → password (Call.settings c) = pw)
    ∧ Call.host c ∈ users env
    ∧ (u ∉ blockedUsers)
    ∧ entriesResolve (users env) c in
  (admitted → CallController.tokenDb r = <[callId := c']> store)
  ∧ (admitted → configured (credentials env) →
     CallController.tokenResponse r
     = sendSuccessResponse "Joined call successfully" NoData
     ∧ CallController.tokenEmitted r
       = [mkEmit (Call.channelName c) (UserJoinedCall callId u)]
     ∧ ∃ tok, CallController.issued r = Some tok
              ∧ Agora.channelName tok = Call.channelName c
              ∧ Agora.uid tok = Agora.generateUidFromString (Agora.codeUnits u))
  ∧ (admitted → ¬ configured (credentials env) →
     CallController.tokenResponse r = sendErrorResponse "Failed to join call" 500
     ∧ CallController.tokenEmitted r = [] ∧ CallController.issued r = None)
  ∧ (¬ admitted →
     CallController.tokenDb r = store
     ∧ statusCode (CallController.tokenResponse r) ≠ 200
     ∧ CallController.tokenEmitted r = [] ∧ CallController.issued r = None).
Proof.
  intros Hc. cbn zeta.
  assert (canUserJoinOn (Populated (users env)) c u = Some (mkJoinCheck true None)
          ∧ (requirePassword (Call.settings c) = true → password (Call.settings c) = pw)
          ∧ Call.host c ∈ users env ∧ (u ∉ blockedUsers) ∧ entriesResolve (users env) c →
          joinCallIn env store blockedUsers callId u pw now =
          match CallController.issueToken (tokenBuilder env) (credentials env)
                  (Call.channelName c) u now with
          | Some tok =>
              CallController.mkTokenResult
                (<[callId := save (Call.set_participants
                                     (Call.participants c
                                      ++ [newParticipant u RoleParticipant
                                            noPermissions now]) c)]> store)
                (sendSuccessResponse "Joined call successfully" NoData) (Some tok)
                [mkEmit (Call.channelName c) (UserJoinedCall callId u)]
          | None =>
              CallController.mkTokenResult
                (<[callId := save (Call.set_participants
                                     (Call.participants c
                                      ++ [newParticipant u RoleParticipant
                                            noPermissions now]) c)]> store)
                (sendErrorResponse "Failed to join call" 500) None []
          end) as Hadm.
  { intros (Hcan & Hpw & Hhost & Hb & Hres).
    unfold joinCallIn, CallController.joinCall. rewrite Hc, Hcan. cbn [canJoin negb].
    replace (requirePassword (Call.settings c)
             && negb (bool_decide (password (Call.settings c) = pw))) with false.
    2: { destruct (requirePassword (Call.settings c)); [|done].
         by rewrite bool_decide_eq_true_2 by auto. }
    rewrite (bool_decide_eq_true_2 _ Hhost), (bool_decide_eq_false_2 _ Hb).
    cbn [negb]. rewrite addParticipantOn_Populated, (bool_decide_eq_true_2 _ Hres).
    by call_simpl. }
  split; [|split; [|split]].
  - intros Ha. rewrite (Hadm Ha). by destruct (CallController.issueToken _ _ _ _ _).
  - intros Ha Hcfg. rewrite (Hadm Ha).
    destruct (issueToken_configured (tokenBuilder env) (credentials env)
                (Call.channelName c) u now Hcfg) as (tok & -> & Hch & Huid & _).
    cbn. split; [done|]. split; [done|]. by exists tok.
  - intros Ha Hcfg. rewrite (Hadm Ha).
    by rewrite (issueToken_not_configured _ _ _ u now Hcfg).
  - intros Hna.
    pose proof (joinCall_cases env store blockedUsers callId u pw now c Hc) as Hj.
    cbv zeta in Hj.
    destruct Hj as [(? & ? & ? & ?)|(? & ? & ? & ? & ? & _)]; [done|].
    by destruct Hna.
Qed.

(** ann's join of hana's call on a server without credentials. *)
Lemma joinCall_stores_before_token_witness :
  let r := joinCallIn bareEnv {[ "c1" := demoCall ]} [] "c1" "ann" None 1000 in
  statusCode (CallController.tokenResponse r) = 500
  ∧ CallController.tokenEmitted r = []
  ∧ ∃ c', CallController.tokenDb r !! "c1" = Some c'
          ∧ Exists (activeUser "ann") (Call.participants c').
Proof.
  intros r.
  assert (canUserJoinOn (Populated (users bareEnv)) demoCall "ann"
          = Some (mkJoinCheck true None)
          ∧ (requirePassword (Call.settings demoCall) = true →
             password (Call.settings demoCall) = None)
          ∧ Call.host demoCall ∈ users bareEnv
          ∧ ("ann" ∉ @nil string)
          ∧ entriesResolve (users bareEnv) demoCall) as Hadm.
  { split; [by vm_compute|]. split; [by vm_compute|].
    split; [prove_by_computation|]. split; [by apply not_elem_of_nil|].
    prove_by_computation. }
  destruct (joinCall_stores_before_token bareEnv {[ "c1" := demoCall ]} [] "c1" "ann"
              None 1000 demoCall)
    as (Hdb & _ & H500 & _); [by vm_compute|].
  destruct (H500 Hadm) as (Hresp & Hem & _); [by intros [? _]|].
  subst r. split_and!; [by rewrite Hresp|exact Hem|].
  rewrite (Hdb Hadm). eexists. split; [by rewrite lookup_insert_eq|].
  apply (bool_decide_unpack (Exists (activeUser "ann") _)). vm_compute. exact I.
Defined.

(** X21.  [createCall] and its token, which is made before the document.
    A request that passes the validators of the route (a participant limit
    from 2 to 1000, a password of 4 to 20 characters, listed ids that
    [isMongoId] accepts) and comes from an active user with a verified
    email is answered 500 when the credentials are not configured: no call
    is stored, no invitation is announced and there is no token.  An
    answer 201 is given only with the credentials configured, to a request
    that passes the validators, and for a participant limit (the smaller
    of the requested one, or 50, and the plan's) that the schema accepts,
    so for a plan of two participants or more; it carries a token for the
    new channel and the host's uid. *)
Theorem createCall_all_or_nothing (env : Env) (isMongoId : string → bool)
    (store : gmap string Call.t) (callId u : string)
    (user : CallController.User) (req : CallController.CreateRequest)
    (uuid : string) (now : Z) :
  let r := CallController.createCall (tokenBuilder env) (credentials env)
             (castObjectId env) isMongoId store callId u user req uuid now in
  (CallController.validationErrors isMongoId req = true →
   r = CallController.mkTokenResult store
         (sendErrorResponse "Validation failed" 400) None [])
  ∧ (CallController.validationErrors isMongoId req = false →
     CallController.canMakeCall user = true →
     ¬ configured (credentials env) →
     r = CallController.mkTokenResult store
           (sendErrorResponse "Failed to create call" 500) None [])
  ∧ (CallController.validationErrors isMongoId req = false →
     CallController.canMakeCall user = true →
     ¬ (2 ≤ Z.min (default 50 (CallController.reqMaxParticipants req))
                  (CallController.featMaxParticipants user) ≤ 1000) →
     r = CallController.mkTokenResult store
           (sendErrorResponse "Failed to create call" 500) None [])
  ∧ (statusCode (CallController.tokenResponse r) = 201 →
     configured (credentials env)
     ∧ CallController.validationErrors isMongoId req = false
     ∧ CallController.canMakeCall user = true
     ∧ 2 ≤ CallController.featMaxParticipants user
     ∧ (∀ pw, CallController.reqPassword (CallController.reqSettings req) = Some pw →
              4 ≤ Z.of_nat (String.length pw) ≤ 20)
     ∧ ∃ tok, CallController.issued r = Some tok
              ∧ Agora.channelName tok = "call-" +:+ uuid
              ∧ Agora.uid tok = Agora.generateUidFromString (Agora.codeUnits u)).
Proof.
  cbn zeta. unfold CallController.createCall.
  destruct (CallController.validationErrors isMongoId req) eqn:Hval.
  { by cbn. }
  destruct (CallController.canMakeCall user) eqn:Hverified; cbn [negb].
  2: { by cbn. }
  destruct (configured_dec (credentials env)) as [Hcfg|Hcfg].
  2: { rewrite (issueToken_not_configured _ _ _ u now Hcfg). by cbn. }
  destruct (issueToken_configured (tokenBuilder env) (credentials env)
              ("call-" +:+ uuid) u now Hcfg) as (tok & -> & Hch & Huid & _).
  unfold CallController.schemaValid.
  cbn [CallController.newCall Call.maxParticipants].
  destruct ((2 <=? _) && (_ <=? 1000)) eqn:Hschema; cbn [negb].
  2: { by cbn. }
  apply andb_true_iff in Hschema as [H2%Z.leb_le H1000%Z.leb_le].
  split; [done|]. split; [by intros _ _ Hn|]. split; [intros _ _ Hn; lia|].
  destruct (mapM _ _) as [invitees|];
    cbn [CallController.tokenResponse CallController.issued statusCode
         sendErrorResponse]; [|done].
  intros _.
  split; [done|]. split; [done|]. split; [done|]. split; [lia|].
  split; [|by exists tok].
  intros pw Hpw. unfold CallController.validationErrors in Hval. rewrite Hpw in Hval.
  apply orb_false_iff in Hval as [Hval _].
  apply orb_false_iff in Hval as [_ Hval].
  apply negb_false_iff, andb_true_iff in Hval as [?%Z.leb_le ?%Z.leb_le]. lia.
Qed.

(** hana's request on a server without credentials; and, with them, on a
    plan of one participant and with a password of three characters. *)
Lemma createCall_all_or_nothing_witness :
  let create env user req :=
    CallController.createCall (tokenBuilder env) (credentials env) (castObjectId env)
      (λ _, true) ∅ "c1" "hana" user req "0001" 0 in
  create bareEnv demoUser inviteRequest
  = CallController.mkTokenResult ∅ (sendErrorResponse "Failed to create call" 500) None []
  ∧ create demoEnv (CallController.mkUser true true 1 true true) demoRequest
    = CallController.mkTokenResult ∅ (sendErrorResponse "Failed to create call" 500)
        None []
  ∧ create demoEnv demoUser
      (CallController.mkCreateRequest None None
         (CallController.mkSettingsRequest None None None None None None (Some true)
            (Some "abc") None) [])
    = CallController.mkTokenResult ∅ (sendErrorResponse "Validation failed" 400) None [].
Proof.
  cbn zeta. split_and!.
  - destruct (createCall_all_or_nothing bareEnv (λ _, true) ∅ "c1" "hana"
                demoUser inviteRequest "0001" 0) as (_ & H500 & _).
    apply H500; [by vm_compute|by vm_compute|by intros [? _]].
  - destruct (createCall_all_or_nothing demoEnv (λ _, true) ∅ "c1" "hana"
                (CallController.mkUser true true 1 true true) demoRequest "0001" 0)
      as (_ & _ & Hschema & _).
    apply Hschema; [by vm_compute|by vm_compute|]. vm_compute. intros [H _]. by apply H.
  - destruct (createCall_all_or_nothing demoEnv (λ _, true) ∅ "c1" "hana" demoUser
                (CallController.mkCreateRequest None None
                   (CallController.mkSettingsRequest None None None None None None
                      (Some true) (Some "abc") None) []) "0001" 0)
      as (H400 & _).
    apply H400. by vm_compute.
Defined.

(** ** The administrators' handlers *)

(** X22.  The administrators' kick is [removeParticipant] and nothing
    more.  On a call whose users have one entry each it answers 200 and
    sends the notice to the user, also when the user never was in the
    call; afterwards the user has no active entry, and the host and the
    status of the call are what they were: a kicked host remains the
    call's host without being in it, and a call whose last participant is
    kicked is not ended. *)
Theorem kick_neither_transfers_nor_ends (store : gmap string Call.t)
    (callId : string) (c : Call.t) (u : string) (now : Z) :
  store !! callId = Some c →
  NoDup (userIds c) →
  let r := AdminController.kickUserFromCall store callId u now in
  statusCode (CallController.reply r) = 200
  ∧ CallController.sent r =
      [CallController.mkSent (userRoom u)
         (CallController.KickedFromCall callId "Administrative action")]
  ∧ ∃ c', CallController.stored r !! callId = Some c'
          ∧ Call.host c' = Call.host c
          ∧ Call.status c' = Call.status c
          ∧ userIds c' = userIds c
          ∧ ¬ Exists (activeUser u) (Call.participants c').
Proof.
  intros Hc Hnd. cbn zeta. unfold AdminController.kickUserFromCall. rewrite Hc.
  cbn [CallController.reply CallController.sent CallController.stored
       sendSuccessResponse statusCode].
  split_and!; [done|done|].
  exists (removeParticipant c u now). rewrite lookup_insert_eq.
  destruct (removeParticipant_fields c u now) as (Hh & Hs & _).
  assert (userIds (removeParticipant c u now) = userIds c) as Hids.
  { unfold userIds. rewrite removeParticipant_participants.
    destruct (list_find _ _) as [[i p]|] eqn:Hf; [|done].
    destruct (Participant.isActive p); [|done].
    apply list_find_Some in Hf as (Hi & _ & _).
    by apply (fmap_userId_insert _ _ p). }
  split_and!; [done|done|done|done|].
  intros (q & Hin & [Hqu Hqa])%Exists_exists.
  apply list_elem_of_lookup in Hin as [k Hk].
  rewrite removeParticipant_participants in Hk.
  destruct (list_find (sameUser u) (Call.participants c)) as [[i p]|] eqn:Hf.
  - pose proof Hf as Hf0. apply list_find_Some in Hf0 as (Hi & Hpu & _).
    destruct (Participant.isActive p) eqn:Hp.
    + destruct (decide (k = i)) as [->|Hki].
      * rewrite list_lookup_insert_eq in Hk by (by eapply lookup_lt_Some).
        by inversion Hk; subst.
      * rewrite list_lookup_insert_ne in Hk by done.
        apply Hki. eapply NoDup_userIds_index; [exact Hnd|done|done|].
        unfold sameUser in Hpu. congruence.
    + assert (k = i) as ->.
      { eapply NoDup_userIds_index; [exact Hnd|done|done|].
        unfold sameUser in Hpu. congruence. }
      congruence.
  - apply list_find_None in Hf. rewrite Forall_lookup in Hf. by apply (Hf k q Hk).
Qed.

Lemma kick_neither_transfers_nor_ends_witness :
  let r := AdminController.kickUserFromCall {[ "c1" := partyCall ]} "c1" "hana" 5000 in
  ∃ c', CallController.stored r !! "c1" = Some c'
        ∧ Call.host c' = "hana"
        ∧ Call.status c' = Active
        ∧ ¬ Exists (activeUser "hana") (Call.participants c').
Proof.
  intros r.
  destruct (kick_neither_transfers_nor_ends {[ "c1" := partyCall ]} "c1"
              partyCall "hana" 5000) as (_ & _ & c' & Hc' & Hh & Hs & _ & Hno).
  - by vm_compute.
  - apply (bool_decide_unpack (NoDup (userIds partyCall))). vm_compute. exact I.
  - exists c'. split_and!; [exact Hc'|exact Hh|exact Hs|exact Hno].
Defined.

(** X23.  The administrators' [endCall] ends a call once.  On a call that
    has not ended it answers 200, stores the call as ended at the time of
    the request with nobody active in it and every entry kept, and
    announces call-ended with the administrator and the reason to the
    call's channel.  On a call that has ended it answers 400 and writes
    nothing, so a second end straight after the first leaves [endedAt]
    alone. *)
Theorem admin_endCall_once (store : gmap string Call.t) (callId : string)
    (c : Call.t) (admin admin2 : string) (now now2 : Z) :
  store !! callId = Some c →
  let r := AdminController.endCall store callId admin now in
  (Call.status c = Ended →
   r = mkResult store (sendErrorResponse "Call already ended" 400) [])
  ∧ (Call.status c ≠ Ended →
     statusCode (response r) = 200
     ∧ emitted r = [mkEmit (Call.channelName c)
                      (CallEnded callId (Some admin) (Some "Administrative action"))]
     ∧ (∃ c', db r !! callId = Some c'
              ∧ Call.status c' = Ended
              ∧ Call.endedAt c' = Some now
              ∧ activeParticipantsCount c' = 0
              ∧ userIds c' = userIds c)
     ∧ AdminController.endCall (db r) callId admin2 now2 =
       mkResult (db r) (sendErrorResponse "Call already ended" 400) []).
Proof.
  intros Hc. cbn zeta. split.
  - intros Hs. unfold AdminController.endCall. rewrite Hc.
    by rewrite bool_decide_eq_true_2.
  - intros Hs.
    assert (AdminController.endCall store callId admin now =
            mkResult (<[callId := endCall c now]> store)
              (sendSuccessResponse "Call ended successfully" NoData)
              [mkEmit (Call.channelName (endCall c now))
                 (CallEnded callId (Some admin) (Some "Administrative action"))]) as ->.
    { unfold AdminController.endCall. rewrite Hc.
      by rewrite bool_decide_eq_false_2. }
    cbn [response statusCode sendSuccessResponse emitted db].
    split_and!.
    + done.
    + unfold endCall. by call_simpl.
    + exists (endCall c now). rewrite lookup_insert_eq.
      split_and!; [done|apply endCall_status|apply endCall_endedAt| |].
      * apply activeParticipantsCount_0, endCall_all_inactive.
      * unfold userIds. rewrite endCall_participants, <- list_fmap_compose.
        apply list_fmap_ext. intros i p _. cbn.
        by destruct (Participant.isActive p).
    + unfold AdminController.endCall. rewrite lookup_insert_eq.
      by rewrite bool_decide_eq_true_2 by apply endCall_status.
Qed.

Lemma admin_endCall_once_witness :
  let r := AdminController.endCall {[ "c1" := partyCall ]} "c1" "root" 5000 in
  statusCode (response r) = 200
  ∧ statusCode (response (AdminController.endCall (db r) "c1" "root" 6000)) = 400.
Proof.
  intros r.
  destruct (admin_endCall_once {[ "c1" := partyCall ]} "c1" partyCall
              "root" "root" 5000 6000) as [_ H]; [by vm_compute|].
  destruct H as (H200 & _ & _ & H400); [by vm_compute|].
  subst r. split; [exact H200|]. by rewrite H400.
Defined.

(** ** The relay's rooms *)

Lemma setAdd_nonempty u l : Relay.setAdd u l ≠ [].
Proof.
  pose proof (elem_of_setAdd u l) as Hin. intros E. rewrite E in Hin.
  by apply not_elem_of_nil in Hin.
Qed.

Lemma setAdd_NoDup u l : NoDup l → NoDup (Relay.setAdd u l).
Proof.
  intros Hnd. unfold Relay.setAdd. case_bool_decide as Hin; [done|].
  apply NoDup_app. split_and!; [done| |apply NoDup_singleton].
  intros x Hx ->%list_elem_of_singleton. done.
Qed.

Lemma setDelete_setAdd u l : u ∉ l → Relay.setDelete u (Relay.setAdd u l) = l.
Proof.
  intros Hu. unfold Relay.setDelete. rewrite filter_setAdd_others.
  induction l as [|x l IH]; [done|].
  apply not_elem_of_cons in Hu as [Hx Hl].
  rewrite filter_cons. destruct (decide (x ≠ u)) as [_|Hn]; [|by destruct Hn].
  by rewrite IH.
Qed.

Lemma joinRoomState_rooms st sock roomId :
  Relay.activeRooms (Relay.joinRoomState st sock roomId).1 =
  <[roomId := Relay.setAdd (Relay.userId sock) (activeRooms_of st roomId)]>
    (Relay.activeRooms st).
Proof.
  unfold activeRooms_of, Relay.joinRoomState.
  cbn [fst Relay.activeRooms Relay.socketJoin].
  destruct (Relay.activeRooms st !! roomId) as [s|] eqn:E.
  - by rewrite E.
  - rewrite lookup_insert_eq. cbn [default]. by rewrite insert_insert_eq.
Qed.

Lemma leaveRoomState_rooms st sock roomId :
  Relay.activeRooms (Relay.leaveRoomState st sock roomId).1 =
  match Relay.activeRooms st !! roomId with
  | Some us =>
      if Z.of_nat (length (Relay.setDelete (Relay.userId sock) us)) =? 0
      then delete roomId (Relay.activeRooms st)
      else <[roomId := Relay.setDelete (Relay.userId sock) us]> (Relay.activeRooms st)
  | None => Relay.activeRooms st
  end.
Proof. done. Qed.

Lemma disconnect_rooms st sock :
  Relay.activeRooms (Relay.disconnect st sock).1 =
  omap (Relay.dropUser (Relay.userId sock)) (Relay.activeRooms st).
Proof. done. Qed.

Lemma dropUser_Some u us us' :
  Relay.dropUser u us = Some us' →
  us' = Relay.setDelete u us ∧ (u ∉ us') ∧ (us ≠ [] → us' ≠ []).
Proof.
  unfold Relay.dropUser. case_bool_decide as Hin.
  - destruct (_ =? 0) eqn:E; [done|]. intros [= <-].
    split_and!; [done| |].
    + unfold Relay.setDelete. intros [Hne _]%list_elem_of_filter. by apply Hne.
    + intros _ E0. rewrite E0 in E. done.
  - intros [= <-]. split_and!; [|done|done].
    unfold Relay.setDelete. symmetry.
    induction us as [|x us IH]; [done|].
    apply not_elem_of_cons in Hin as [Hx Hl].
    rewrite filter_cons. destruct (decide (x ≠ u)) as [_|Hn]; [|by destruct Hn].
    by rewrite IH.
Qed.

Lemma handle_tidy st ev : tidy st → tidy (handle st ev).
Proof.
  intros Ht. destruct ev as [sock now|sock r|sock r|sock target|sock]; cbn [handle].
  - exact Ht.
  - intros r' us. rewrite joinRoomState_rooms.
    destruct (decide (r' = r)) as [->|Hne].
    + rewrite lookup_insert_eq. intros [= <-].
      split; [apply setAdd_nonempty|]. apply setAdd_NoDup.
      unfold activeRooms_of.
      destruct (Relay.activeRooms st !! r) as [l|] eqn:E; [|apply NoDup_nil_2].
      by apply (Ht r l).
    + rewrite lookup_insert_ne by done. apply Ht.
  - intros r' us. rewrite leaveRoomState_rooms.
    destruct (Relay.activeRooms st !! r) as [l|] eqn:E; [|apply Ht].
    destruct (_ =? 0) eqn:E0.
    + destruct (decide (r' = r)) as [->|Hne].
      * by rewrite lookup_delete_eq.
      * rewrite lookup_delete_ne by done. apply Ht.
    + destruct (decide (r' = r)) as [->|Hne].
      * rewrite lookup_insert_eq. intros [= <-]. split.
        -- intros E1. by rewrite E1 in E0.
        -- apply NoDup_filter. by apply (Ht r l).
      * rewrite lookup_insert_ne by done. apply Ht.
  - exact Ht.
  - intros r' us. rewrite disconnect_rooms, lookup_omap.
    destruct (Relay.activeRooms st !! r') as [l|] eqn:E; [|done].
    cbn. intros Hd. destruct (Ht r' l E) as [Hne Hnd].
    apply dropUser_Some in Hd as (-> & _ & Hne'). split; [by apply Hne'|].
    by apply NoDup_filter.
Qed.

Lemma handleAll_tidy st evs : tidy st → tidy (handleAll st evs).
Proof.
  revert st. induction evs as [|ev evs' IH]; intros st Ht; [done|].
  simpl. by apply IH, handle_tidy.
Qed.

Lemma tidy_empty : tidy emptyRelay.
Proof. intros r l Hl. cbn in Hl. by rewrite lookup_empty in Hl. Qed.

(** X24.  However sockets connect, join and leave rooms, send invitations
    and disconnect, [activeRooms] never keeps a room that nobody is in, and
    never lists a user twice in a room. *)
Theorem activeRooms_keeps_no_empty_room (evs : list SocketEvent)
    (roomId : string) (us : list string) :
  Relay.activeRooms (handleAll emptyRelay evs) !! roomId = Some us →
  us ≠ [] ∧ NoDup us.
Proof.
  apply (handleAll_tidy emptyRelay evs tidy_empty).
Qed.

Lemma activeRooms_keeps_no_empty_room_witness :
  Relay.activeRooms
    (handleAll emptyRelay
       [EvConnection annPhone 0; EvJoinRoom annPhone "r1"; EvJoinRoom bobPhone "r1";
        EvJoinRoom annLaptop "r1"; EvLeaveRoom bobPhone "r1"]) !! "r1" = Some ["ann"]
  ∧ ["ann"] ≠ [] ∧ NoDup ["ann"].
Proof.
  split; [by vm_compute|].
  apply (activeRooms_keeps_no_empty_room
           [EvConnection annPhone 0; EvJoinRoom annPhone "r1"; EvJoinRoom bobPhone "r1";
            EvJoinRoom annLaptop "r1"; EvLeaveRoom bobPhone "r1"] "r1").
  by vm_compute.
Defined.

(** X25.  Joining a room and leaving it again puts [activeRooms] back as
    it was, for a user who was not in the room: a room that did not exist
    is gone again, a room that others are in has its list as before. *)
Theorem join_then_leave_restores_rooms (st : Relay.State) (sock : Relay.Socket)
    (roomId : string) :
  tidy st →
  Relay.userId sock ∉ activeRooms_of st roomId →
  Relay.activeRooms
    (Relay.leaveRoomState (Relay.joinRoomState st sock roomId).1 sock roomId).1
  = Relay.activeRooms st.
Proof.
  intros Ht Hu. rewrite leaveRoomState_rooms, joinRoomState_rooms.
  rewrite lookup_insert_eq, setDelete_setAdd by done.
  unfold activeRooms_of in *.
  destruct (Relay.activeRooms st !! roomId) as [l|] eqn:E; cbn [default] in *.
  - destruct (Ht roomId l E) as [Hne _].
    destruct l as [|x l]; [done|].
    replace (Z.of_nat (length (x :: l)) =? 0) with false
      by (symmetry; apply Z.eqb_neq; simpl; lia).
    rewrite insert_insert_eq. by apply insert_id.
  - cbn. rewrite delete_insert_eq. by apply delete_id.
Qed.

Lemma join_then_leave_restores_rooms_witness :
  let st := handleAll emptyRelay [EvConnection annPhone 0; EvJoinRoom annPhone "r1"] in
  Relay.activeRooms
    (Relay.leaveRoomState (Relay.joinRoomState st bobPhone "r1").1 bobPhone "r1").1
  = Relay.activeRooms st.
Proof.
  apply (join_then_leave_restores_rooms
           (handleAll emptyRelay [EvConnection annPhone 0; EvJoinRoom annPhone "r1"])
           bobPhone "r1").
  - apply handleAll_tidy, tidy_empty.
  - apply (proj1 (bool_decide_eq_false _)). by vm_compute.
Defined.

Lemma dropUser_None u us : Relay.dropUser u us = None → Relay.setDelete u us = [].
Proof.
  unfold Relay.dropUser. case_bool_decide; [|done].
  destruct (_ =? 0) eqn:E; [|done]. intros _.
  apply Z.eqb_eq in E. apply nil_length_inv. lia.
Qed.

Lemma elem_of_setDelete v u us : v ∈ Relay.setDelete u us ↔ v ≠ u ∧ v ∈ us.
Proof. unfold Relay.setDelete. by rewrite list_elem_of_filter. Qed.

(** X26.  When a socket disconnects, its user is taken out of
    [connectedUsers] and out of every room of [activeRooms], whether or not
    the user has another socket that stays connected; the other users stay
    where they are.  Each room the user was in, and no other, gets a
    user-left notice, and the last thing sent is the user-offline
    broadcast. *)
Theorem disconnect_removes_user (st : Relay.State) (sock : Relay.Socket) :
  let u := Relay.userId sock in
  let r := Relay.disconnect st sock in
  Relay.connectedUsers r.1 !! u = None
  ∧ (∀ v, v ≠ u → Relay.connectedUsers r.1 !! v = Relay.connectedUsers st !! v)
  ∧ (∀ roomId, u ∉ activeRooms_of r.1 roomId)
  ∧ (∀ roomId v, v ≠ u →
       v ∈ activeRooms_of r.1 roomId ↔ v ∈ activeRooms_of st roomId)
  ∧ (∀ roomId,
       (∃ t, Relay.mkDispatch t (Relay.Presence (Relay.UserLeft u roomId)) ∈ r.2)
       ↔ u ∈ activeRooms_of st roomId)
  ∧ last r.2 = Some (Relay.mkDispatch (Relay.EveryoneBut (Relay.id sock))
                                      (Relay.UserOffline u)).
Proof.
  cbn zeta. split_and!.
  - cbn. apply lookup_delete_eq.
  - intros v Hv. cbn. by apply lookup_delete_ne.
  - intros roomId. unfold activeRooms_of. rewrite disconnect_rooms, lookup_omap.
    destruct (Relay.activeRooms st !! roomId) as [l|]; cbn; [|apply not_elem_of_nil].
    destruct (Relay.dropUser _ l) as [l'|] eqn:Hd; cbn; [|apply not_elem_of_nil].
    by apply dropUser_Some in Hd as (_ & ? & _).
  - intros roomId v Hv. unfold activeRooms_of. rewrite disconnect_rooms, lookup_omap.
    destruct (Relay.activeRooms st !! roomId) as [l|]; cbn; [|done].
    destruct (Relay.dropUser _ l) as [l'|] eqn:Hd; cbn.
    + apply dropUser_Some in Hd as (-> & _ & _). rewrite elem_of_setDelete. tauto.
    + apply dropUser_None in Hd.
      pose proof (elem_of_setDelete v (Relay.userId sock) l) as Hiff.
      rewrite Hd in Hiff. split.
      * by intros ?%not_elem_of_nil.
      * intros Hin. apply Hiff. done.
  - intros roomId. unfold Relay.disconnect. cbn [snd fst Relay.activeRooms].
    unfold activeRooms_of. split.
    + intros [t Hin]. apply elem_of_app in Hin as [Hin|Hin].
      2: { by apply list_elem_of_singleton in Hin. }
      apply list_elem_of_fmap in Hin as (r' & Heq & Hin).
      injection Heq as _ <-.
      apply list_elem_of_fmap in Hin as ([r'' l] & -> & Hin).
      apply elem_of_map_to_list in Hin.
      apply map_lookup_filter_Some in Hin as [Hl Hu]. cbn in *.
      by rewrite Hl.
    + intros Hu.
      destruct (Relay.activeRooms st !! roomId) as [l|] eqn:Hl; cbn in Hu;
        [|by apply not_elem_of_nil in Hu].
      eexists. apply elem_of_app. left.
      apply list_elem_of_fmap. exists roomId. split; [reflexivity|].
      apply list_elem_of_fmap. exists (roomId, l). split; [done|].
      apply elem_of_map_to_list, map_lookup_filter_Some. done.
  - unfold Relay.disconnect. cbn [snd]. apply last_snoc.
Qed.

Lemma disconnect_removes_user_witness :
  let st := handleAll emptyRelay
              [EvConnection annPhone 0; EvConnection annLaptop 1;
               EvJoinRoom annPhone "r1"; EvJoinRoom annLaptop "r1"] in
  let r := Relay.disconnect st annPhone in
  "s2" ∈ Relay.socketsIn r.1 "r1"
  ∧ Relay.connectedUsers r.1 !! "ann" = None
  ∧ "ann" ∉ activeRooms_of r.1 "r1".
Proof.
  intros st r.
  destruct (disconnect_removes_user st annPhone) as (Hc & _ & Hr & _).
  split_and!; [|exact Hc|exact (Hr "r1")].
  apply (bool_decide_unpack ("s2" ∈ Relay.socketsIn r.1 "r1")). vm_compute. exact I.
Defined.

(** X27.  Every connection joins the room of its user, and
    [connectedUsers] keeps only the latest connection of a user.  So when
    a user has connected from two sockets, an invitation sent to the user
    goes to both, while [connectedUsers] names the second alone; sending
    the invitation changes nothing in the relay's state. *)
Theorem invitation_reaches_every_socket (st : Relay.State)
    (s1 s2 sender : Relay.Socket) (t1 t2 : Z) :
  Relay.userId s1 = Relay.userId s2 →
  let st2 := (Relay.connection (Relay.connection st s1 t1).1 s2 t2).1 in
  let r := Relay.sendCallInvitation st2 sender (Relay.userId s1) in
  r.1 = st2
  ∧ (∃ S, r.2 = [Relay.mkDispatch (Relay.Sockets S)
                   (Relay.CallInvitation (Relay.userId sender))]
          ∧ Relay.id s1 ∈ S ∧ Relay.id s2 ∈ S)
  ∧ Relay.socketId <$> Relay.connectedUsers st2 !! Relay.userId s1 = Some (Relay.id s2).
Proof.
  intros Hu. cbn zeta. split_and!; [done| |].
  - eexists. split; [reflexivity|].
    unfold Relay.connection, Relay.socketJoin, Relay.socketsIn.
    cbn [fst Relay.rooms Relay.connectedUsers Relay.activeRooms]. rewrite <- Hu.
    rewrite !lookup_insert_eq. cbn [default from_option id].
    split; apply elem_of_union; [right; apply elem_of_union; left|left];
      by apply elem_of_singleton.
  - unfold Relay.connection, Relay.socketJoin.
    cbn [fst Relay.connectedUsers]. rewrite Hu.
    by rewrite lookup_insert_eq.
Qed.

Lemma invitation_reaches_every_socket_witness :
  ∃ S, (Relay.sendCallInvitation
          (Relay.connection (Relay.connection emptyRelay annPhone 0).1 annLaptop 1).1
          bobPhone "ann").2
       = [Relay.mkDispatch (Relay.Sockets S) (Relay.CallInvitation "bob")]
       ∧ "s1" ∈ S ∧ "s2" ∈ S.
Proof.
  destruct (invitation_reaches_every_socket emptyRelay annPhone annLaptop bobPhone 0 1)
    as (_ & HS & _); [reflexivity|].
  exact HS.
Defined.

(** ** Reading a call *)











(** ** A locked room and its invitations *)

Lemma respondToInvitation_found store callId c u r now i inv :
  store !! callId = Some c →
  r = Accepted ∨ r = Declined →
  list_find (CallController.pendingFor u) (Call.invitations c) = Some (i, inv) →
  db (CallController.respondToInvitation store callId u r now) =
  <[callId := save (Call.set_invitations
                      (<[i := CallController.answer r now inv]> (Call.invitations c)) c)]>
    store.
Proof.
  intros Hc Hr Hf. unfold CallController.respondToInvitation.
  rewrite bool_decide_eq_true_2 by (destruct Hr as [-> | ->]; [left|right; left]).
  cbn [negb]. by rewrite Hc, Hf.
Qed.

(** X29.  In a locked room that can take another participant and whose
    entries all name users that exist, a user who has a pending
    invitation, but none accepted, is refused with Room is locked, with or
    without an entry in the call.  Accepting the invitation is what opens
    the room to the user; after declining it the user is still refused,
    and the refusal writes nothing. *)
Theorem locked_room_opens_on_accept (env : Env) (store : gmap string Call.t)
    (callId : string)
    (c : Call.t) (u : string) (r : InvitationStatus) (now t : Z)
    (blockedUsers : list string) (pw : option string) :
  store !! callId = Some c →
  entriesResolve (users env) c →
  joinable c →
  activeParticipantsCount c < Call.maxParticipants c →
  lockRoom (Call.settings c) = true →
  ¬ Exists (acceptedFor u) (Call.invitations c) →
  Exists (CallController.pendingFor u) (Call.invitations c) →
  r = Accepted ∨ r = Declined →
  let store1 := db (CallController.respondToInvitation store callId u r now) in
  joinCallIn env store blockedUsers callId u pw t =
    CallController.mkTokenResult store (sendErrorResponse "Room is locked" 403) None []
  ∧ ∃ c1, store1 !! callId = Some c1
          ∧ (r = Accepted →
             canUserJoinOn (Populated (users env)) c1 u = Some (mkJoinCheck true None))
          ∧ (r = Declined →
             joinCallIn env store1 blockedUsers callId u pw t =
               CallController.mkTokenResult store1
                 (sendErrorResponse "Room is locked" 403) None []).
Proof.
  intros Hc Hres Hj Hroom Hlock Hacc Hpend Hr. cbn zeta.
  assert (∀ (s : gmap string Call.t) d,
            s !! callId = Some d →
            canUserJoinOn (Populated (users env)) d u
            = Some (mkJoinCheck false (Some "Room is locked")) →
            joinCallIn env s blockedUsers callId u pw t =
            CallController.mkTokenResult s
              (sendErrorResponse "Room is locked" 403) None []) as Hrefused.
  { intros s d Hd Hcan. unfold joinCallIn, CallController.joinCall. by rewrite Hd, Hcan. }
  split; [by apply (Hrefused store c), canUserJoinOn_locked|].
  apply (proj1 (Exists_list_find (CallController.pendingFor u) _)) in Hpend
    as (i & inv & Hf).
  rewrite (respondToInvitation_found store callId c u r now i inv Hc Hr Hf).
  set (c1 := save _). exists c1. rewrite lookup_insert_eq. split; [done|].
  pose proof Hf as Hf0. apply list_find_Some in Hf0 as (Hi & [Hu _] & _).
  assert (joinable c1) as Hj1 by (unfold joinable, c1; by call_simpl).
  assert (activeParticipantsCount c1 < Call.maxParticipants c1) as Hroom1
    by (unfold c1; by call_simpl).
  assert (lockRoom (Call.settings c1) = true) as Hlock1 by (unfold c1; by call_simpl).
  assert (Call.participants c1 = Call.participants c) as Hps by (unfold c1; by call_simpl).
  assert (entriesResolve (users env) c1) as Hres1
    by (unfold entriesResolve; by rewrite Hps).
  assert (Call.invitations c1
          = <[i := CallController.answer r now inv]> (Call.invitations c)) as Hinv
    by (unfold c1; by call_simpl).
  split.
  - intros ->. apply canUserJoinOn_allowed; [done|done|done|]. intros _.
    rewrite Hinv. apply Exists_exists. exists (CallController.answer Accepted now inv).
    split; [|done]. apply list_elem_of_lookup. exists i.
    apply list_lookup_insert_eq. by eapply lookup_lt_Some.
  - intros ->. apply (Hrefused _ c1); [by rewrite lookup_insert_eq|].
    apply canUserJoinOn_locked; [done|done|done|done|].
    rewrite Hinv. intros (a & Hin & [Hau Has])%Exists_exists.
    apply list_elem_of_lookup in Hin as [k Hk].
    destruct (decide (k = i)) as [->|Hki].
    + rewrite list_lookup_insert_eq in Hk by (by eapply lookup_lt_Some).
      by inversion Hk; subst.
    + rewrite list_lookup_insert_ne in Hk by done.
      apply Hacc, Exists_exists. exists a. split; [|done].
      by eapply list_elem_of_lookup_2.
Qed.

Lemma locked_room_opens_on_accept_witness :
  joinCallIn demoEnv {[ "c1" := lockedCall ]} [] "c1" "ann" None 1000 =
    CallController.mkTokenResult {[ "c1" := lockedCall ]}
      (sendErrorResponse "Room is locked" 403) None []
  ∧ ∃ c1, db (CallController.respondToInvitation {[ "c1" := lockedCall ]} "c1" "ann"
                Accepted 500) !! "c1" = Some c1
          ∧ canUserJoinOn (Populated demoUsers) c1 "ann" = Some (mkJoinCheck true None).
Proof.
  destruct (locked_room_opens_on_accept demoEnv {[ "c1" := lockedCall ]} "c1" lockedCall
              "ann" Accepted 500 1000 [] None) as (H403 & c1 & Hc1 & Hopen & _).
  - by vm_compute.
  - prove_by_computation.
  - by left.
  - by vm_compute.
  - reflexivity.
  - apply (proj1 (bool_decide_eq_false _)). by vm_compute.
  - apply (bool_decide_unpack (Exists (CallController.pendingFor "ann")
                                      (Call.invitations lockedCall))).
    vm_compute. exact I.
  - by left.
  - split; [exact H403|]. exists c1. split; [exact Hc1|]. by apply Hopen.
Defined.

(** ** The chat log *)

Lemma removeParticipant_chat_settings c u t :
  Call.chatMessages (removeParticipant c u t) = Call.chatMessages c
  ∧ Call.settings (removeParticipant c u t) = Call.settings c.
Proof.
  unfold removeParticipant. destruct (list_find _ _) as [[i p]|]; [|by call_simpl].
  destruct (Participant.isActive p); by call_simpl.
Qed.

Lemma endCall_chat_settings c t :
  Call.chatMessages (endCall c t) = Call.chatMessages c
  ∧ Call.settings (endCall c t) = Call.settings c.
Proof. unfold endCall. by call_simpl. Qed.

Lemma leaveCallDoc_chat_settings callId c u tLeave tEnd :
  let c' := (CallController.leaveCallDoc callId c u tLeave tEnd).1 in
  Call.chatMessages c' = Call.chatMessages c ∧ Call.settings c' = Call.settings c.
Proof.
  cbn zeta. rewrite leaveCallDoc_fst.
  destruct (removeParticipant_chat_settings c u tLeave) as [Hm Hs].
  set (c1 := removeParticipant c u tLeave) in *.
  assert (Call.chatMessages (CallController.transferHost callId c1 u).1 = Call.chatMessages c
          ∧ Call.settings (CallController.transferHost callId c1 u).1 = Call.settings c)
    as [Hm2 Hs2].
  { destruct (transferHost_cases callId c1 u)
      as [(i & nh & _ & _ & _ & ->)|[_ ->]]; cbn [fst]; [by call_simpl|done]. }
  set (c2 := (CallController.transferHost callId c1 u).1) in *.
  destruct (endIfEmpty_cases callId c2 tEnd) as [[_ ->]|[_ ->]]; cbn [fst]; [|done].
  by destruct (endCall_chat_settings c2 tEnd) as [-> ->].
Qed.

Lemma serve_chat env store callId c req :
  store !! callId = Some c →
  ∃ c' new, after (serve env store callId req) !! callId = Some c'
            ∧ Call.chatMessages c' = Call.chatMessages c ++ new
            ∧ Forall (λ m, validChatMessage m = true) new
            ∧ Call.settings c' = Call.settings c
            ∧ (allowChat (Call.settings c) = false → new = []).
Proof.
  intros Hc.
  assert (∃ c' new, store !! callId = Some c'
            ∧ Call.chatMessages c' = Call.chatMessages c ++ new
            ∧ Forall (λ m, validChatMessage m = true) new
            ∧ Call.settings c' = Call.settings c
            ∧ (allowChat (Call.settings c) = false → new = [])) as Hsame.
  { exists c, []. by rewrite app_nil_r. }
  assert (∀ d, Call.chatMessages d = Call.chatMessages c →
               Call.settings d = Call.settings c →
               ∃ c' new, <[callId := d]> store !! callId = Some c'
                 ∧ Call.chatMessages c' = Call.chatMessages c ++ new
                 ∧ Forall (λ m, validChatMessage m = true) new
                 ∧ Call.settings c' = Call.settings c
                 ∧ (allowChat (Call.settings c) = false → new = [])) as Hkeep.
  { intros d Hm Hs. exists d, []. by rewrite lookup_insert_eq, app_nil_r. }
  destruct req as [blocked u pw now|u t e|u now|u ids now|u r now|u text mt now
                   |u patch|u now|admin now];
    cbn [serve ofResult ofOutcome ofToken after].
  - pose proof (joinCall_cases env store blocked callId u pw now c Hc) as Hj.
    cbv zeta in Hj.
    destruct Hj as [(_ & -> & _)|(_ & _ & _ & _ & _ & -> & _)]; [done|].
    apply Hkeep; by call_simpl.
  - rewrite (leaveCall_found _ _ _ _ _ _ Hc). cbn [db].
    destruct (leaveCallDoc_chat_settings callId c u t e) as [Hm Hs]. by apply Hkeep.
  - unfold CallController.endCall. rewrite Hc.
    destruct (_ && _); [done|]. cbn [db].
    destruct (endCall_chat_settings c now) as [Hm Hs]. by apply Hkeep.
  - unfold CallController.inviteToCall. destruct (_ =? 0); [done|].
    rewrite Hc. destruct (list_find _ _) as [[i p]|]; [|done].
    destruct (canInvite _); [|done]. destruct (0 <? _); [|done].
    destruct (mapM _ _); [|done].
    cbn [db]. apply Hkeep; by call_simpl.
  - unfold CallController.respondToInvitation. destruct (negb _); [done|].
    rewrite Hc. destruct (list_find _ _) as [[i inv]|]; [|done].
    cbn [db]. apply Hkeep; by call_simpl.
  - unfold CallController.sendChatMessage. destruct (_ || _); [done|].
    rewrite Hc. destruct (list_find _ _) as [[i p]|]; [|done].
    destruct (allowChat (Call.settings c)) eqn:Hallow; cbn [negb]; [|done].
    unfold addChatMessage.
    destruct (validChatMessage _) eqn:Hvalid; [|done].
    cbn [db]. eexists _, [_]. rewrite lookup_insert_eq. split; [done|].
    split_and!; [by call_simpl| |by call_simpl|done].
    apply Forall_singleton. exact Hvalid.
  - unfold CallController.updateMediaState. rewrite Hc. cbn [CallController.stored].
    unfold updateParticipantMedia.
    destruct (list_find _ _) as [[i p]|]; apply Hkeep; by call_simpl.
  - unfold AdminController.kickUserFromCall. rewrite Hc. cbn [CallController.stored].
    destruct (removeParticipant_chat_settings c u now) as [Hm Hs]. by apply Hkeep.
  - unfold AdminController.endCall. rewrite Hc.
    destruct (bool_decide _); [done|]. cbn [db].
    destruct (endCall_chat_settings c now) as [Hm Hs]. by apply Hkeep.
Qed.

(** X30.  The chat log only grows at its end.  Whatever requests are made
    on a call, the messages it had are still there, in place and
    unchanged; the messages added satisfy the schema (a text of 1 to 1000
    code units and a message type of the enum); the settings of the call
    are what they were; and while chat is disabled no message is added. *)
Theorem chat_log_is_append_only (env : Env) (store : gmap string Call.t)
    (callId : string) (c : Call.t) (reqs : list Request) :
  store !! callId = Some c →
  ∃ c' new, serveAll env store callId reqs !! callId = Some c'
            ∧ Call.chatMessages c' = Call.chatMessages c ++ new
            ∧ Forall (λ m, validChatMessage m = true) new
            ∧ Call.settings c' = Call.settings c
            ∧ (allowChat (Call.settings c) = false → new = []).
Proof.
  revert store c. induction reqs as [|req reqs IH]; intros store c Hc.
  - exists c, []. by rewrite app_nil_r.
  - destruct (serve_chat env store callId c req Hc) as (c1 & new1 & Hc1 & Hm1 & Hv1 & Hs1 & Hn1).
    destruct (IH _ c1 Hc1) as (c' & new & Hc' & Hm & Hv & Hs & Hn).
    exists c', (new1 ++ new). simpl. split_and!.
    + done.
    + by rewrite Hm, Hm1, app_assoc.
    + by apply Forall_app.
    + congruence.
    + intros Hoff. rewrite Hn1 by done. rewrite Hn; [done|]. by rewrite Hs1.
Qed.

Lemma chat_log_is_append_only_witness :
  ∃ c' new,
    serveAll demoEnv {[ "c1" := demoCall ]} "c1"
      [ReqChat "hana" text1000 None 1000; ReqChat "hana" text1001 None 2000;
       ReqLeave "hana" 3000 3000] !! "c1" = Some c'
    ∧ Call.chatMessages c' = Call.chatMessages demoCall ++ new
    ∧ Forall (λ m, validChatMessage m = true) new.
Proof.
  destruct (chat_log_is_append_only demoEnv {[ "c1" := demoCall ]} "c1" demoCall
              [ReqChat "hana" text1000 None 1000; ReqChat "hana" text1001 None 2000;
               ReqLeave "hana" 3000 3000]) as (c' & new & Hc' & Hm & Hv & _);
    [by vm_compute|].
  by exists c', new.
Defined.
